(** * Projeto-Cloud: authentication, token lifecycle and player aggregation

    A shallow embedding of the FastAPI backend in [src/app/web_app]:
    - [jwt_manager.py]   ([encode], [validate_token]),
    - [app_routes.py]    ([registrar], [login], [consultar]),
    - [db_models.py]     (the [users] table),
    - [grepolis_data.py] (the four feeds and [get_players_data]).

    The handlers are glue around four libraries (python-jose, passlib,
    SQLAlchemy, pandas).  Each library is represented by a small model of the
    calls the handlers make; primitives whose internals play no role
    (HMAC-SHA256, base64url, the JSON codec, sha512-crypt) are operations of a
    type class, together with the laws the handlers rely on.  The clock, the
    salt drawn by the hasher, the signing secret and the remote feeds are
    explicit inputs.

    A handler is first a function from the table it finds to its answer and
    the table it leaves.  The handlers are coroutines, so registrations are
    also given as tasks that the event loop resumes one statement at a time
    ([Interleaved]). *)

From stdpp Require Import base option list strings gmap sorting.
From Stdlib Require Import Ascii ZArith Lia.

Open Scope Z_scope.

(** ** Results and exceptions *)

(** A computation either returns or raises. *)
Inductive result (E A : Type) : Type :=
| Ok (a : A)
| Raise (e : E).
Arguments Ok {E A} a.
Arguments Raise {E A} e.

#[global] Instance result_ret {E} : MRet (result E) := fun A a => Ok a.

#[global] Instance result_bind {E} : MBind (result E) := fun A B k m =>
  match m with
  | Ok a => k a
  | Raise e => Raise e
  end.

#[global] Instance result_fmap {E} : FMap (result E) := fun A B f m =>
  match m with
  | Ok a => Ok (f a)
  | Raise e => Raise e
  end.

(** The exceptions that reach the framework.  [HTTPException] is the only one
    the handlers raise themselves; the others come from the libraries and are
    answered by the framework with a server error. *)
Inductive exn : Type :=
| HTTPException (status_code : Z) (detail : string)
| JWSError
| JWTError
| JWTClaimsError              (* a subclass of JWTError *)
| ExpiredSignatureError       (* a subclass of JWTError *)
| MultipleResultsFound
| IntegrityError
| KeyError (label : string)
| ValueError
| TypeError
| OverflowError
| RecursionError
| AttributeError
| MergeError
| UpstreamFetchError (url : string).

(** ** Strings: splitting at a separator *)

Fixpoint contains (c : Ascii.ascii) (s : string) : bool :=
  match s with
  | EmptyString => false
  | String a s' => if Ascii.eqb a c then true else contains c s'
  end.

(** [s.split(c, 1)]: the text before and after the first [c]. *)
Fixpoint split_first (c : Ascii.ascii) (s : string) : option (string * string) :=
  match s with
  | EmptyString => None
  | String a s' =>
      if Ascii.eqb a c then Some (EmptyString, s')
      else match split_first c s' with
           | Some (l, r) => Some (String a l, r)
           | None => None
           end
  end.

(** [s.rsplit(c, 1)]: the text before and after the last [c]. *)
Fixpoint split_last (c : Ascii.ascii) (s : string) : option (string * string) :=
  match s with
  | EmptyString => None
  | String a s' =>
      match split_last c s' with
      | Some (l, r) => Some (String a l, r)
      | None => if Ascii.eqb a c then Some (EmptyString, s') else None
      end
  end.

(** The number of occurrences of [c] in [s]. *)
Fixpoint count_char (c : Ascii.ascii) (s : string) : nat :=
  match s with
  | EmptyString => 0%nat
  | String a s' => ((if Ascii.eqb a c then 1 else 0) + count_char c s')%nat
  end.

(** ** python-jose: compact JWS with HS256

    The calls [jwt.encode(claims, key, algorithm)] and
    [jwt.decode(token, key, algorithms)] as the program makes them: three
    dot-separated segments, the signature recomputed and compared, the payload
    read back as a JSON object, and the claims validated as the library does
    with its default options and no audience, issuer, subject or access token
    given: iat, nbf, exp, aud, iss, sub, jti and at_hash, in this order.  The
    key is a string the library takes as an HMAC secret as it is. *)

Module Jose.

(** Values of a claim set as the program hands them to [jwt.encode]. *)
Inductive pyvalue : Type :=
| PyStr (s : string)
| PyInt (n : Z)
| PyDatetime (us : Z).   (* an aware UTC datetime, microseconds since the epoch *)

(** A float: [m * 2 ^ e], an infinity, or NaN. *)
Inductive pyfloat : Type :=
| Finite (m e : Z)
| Infinity (negative : bool)
| NotANumber.

#[global] Instance pyfloat_eq_dec : EqDecision pyfloat.
Proof. solve_decision. Defined.

(** Values of a JSON document as [json.loads] returns them. *)
#[warnings="-register-all"] Inductive jvalue : Type :=
| JStr (s : string)
| JInt (n : Z)
| JFloat (f : pyfloat)
| JBool (b : bool)
| JNull
| JArray (items : list jvalue)
| JObject (entries : list (string * jvalue)).

#[global] Instance jvalue_eq_dec : EqDecision jvalue.
Proof.
  refine (fix go (x y : jvalue) {struct x} : Decision (x = y) :=
    match x, y with
    | JStr a, JStr b => cast_if (decide (a = b))
    | JInt a, JInt b => cast_if (decide (a = b))
    | JFloat a, JFloat b => cast_if (decide (a = b))
    | JBool a, JBool b => cast_if (decide (a = b))
    | JNull, JNull => left _
    | JArray a, JArray b =>
        cast_if ((fix items (l k : list jvalue) {struct l} : Decision (l = k) :=
                    match l, k with
                    | [], [] => left _
                    | u :: l', v :: k' => cast_if_and (go u v) (items l' k')
                    | _, _ => right _
                    end) a b)
    | JObject a, JObject b =>
        cast_if ((fix entries (l k : list (string * jvalue)) {struct l}
                    : Decision (l = k) :=
                    match l, k with
                    | [], [] => left _
                    | (c, u) :: l', (d, v) :: k' =>
                        cast_if_and3 (decide (c = d)) (go u v) (entries l' k')
                    | _, _ => right _
                    end) a b)
    | _, _ => right _
    end); clear go; try clear items; try clear entries; abstract congruence.
Defined.

(** The values of the claim sets and headers the library writes for the
    program: strings and integers. *)
Definition scalar (v : jvalue) : Prop :=
  match v with
  | JStr _ | JInt _ => True
  | _ => False
  end.

(** What [json.loads] makes of a text where a JSON object is expected. *)
Inductive loaded : Type :=
| Object (o : gmap string jvalue)
| NotObject      (* ValueError, or a JSON value that is no object *)
| TooDeep.       (* RecursionError: nested beyond the limit of the interpreter *)

(** The primitives under the library. *)
Class Codec : Type := {
  hmac_sha256 : string -> string -> string;          (* key, message *)
  base64url_encode : string -> string;
  base64url_decode : string -> option string;
  json_dumps : gmap string jvalue -> string;
  json_loads : string -> loaded;
  py_int : string -> option Z;                        (* int(str), None on ValueError *)
  base64url_decode_encode :
    forall b, base64url_decode (base64url_encode b) = Some b;
  base64url_encode_alphabet :
    forall b, contains "."%char (base64url_encode b) = false;
  json_loads_dumps :
    forall o, map_Forall (fun _ v => scalar v) o -> json_loads (json_dumps o) = Object o
}.

(** [calendar.timegm(dt.utctimetuple())]: whole seconds, microseconds dropped. *)
Definition timegm (us : Z) : Z := us `div` 1000000.

Definition to_json (v : pyvalue) : option jvalue :=
  match v with
  | PyStr s => Some (JStr s)
  | PyInt n => Some (JInt n)
  | PyDatetime _ => None            (* json.dumps raises TypeError *)
  end.

(** [isinstance(e, JWTError)]. *)
Definition is_JWTError (e : exn) : bool :=
  match e with
  | JWTError | JWTClaimsError | ExpiredSignatureError => true
  | _ => false
  end.

(** An absent value raises. *)
Definition expect {A} (e : exn) (o : option A) : result exn A :=
  match o with
  | Some a => Ok a
  | None => Raise e
  end.

Section jws.
Context `{!Codec}.

(** [int(v)]: a float is truncated towards zero. *)
Definition to_int (v : jvalue) : result exn Z :=
  match v with
  | JInt n => Ok n
  | JBool b => Ok (if b then 1 else 0)
  | JStr s => expect ValueError (py_int s)
  | JFloat (Finite m e) => Ok (if 0 <=? e then m * 2 ^ e else m `quot` 2 ^ (- e))
  | JFloat NotANumber => Raise ValueError
  | JFloat (Infinity _) => Raise OverflowError
  | JNull | JArray _ | JObject _ => Raise TypeError
  end.

(** The integer [int(v)] returns, when it returns. *)
Definition int_claim (v : jvalue) : option Z :=
  match to_int v with
  | Ok n => Some n
  | Raise _ => None
  end.

Definition encode_header (algorithm : string) : string :=
  base64url_encode
    (json_dumps (<["typ" := JStr "JWT"]> (<["alg" := JStr algorithm]> ∅))).

Definition encode_payload (payload : gmap string jvalue) : string :=
  base64url_encode (json_dumps payload).

(** [jws.sign]: header and payload segments, then the signature of both. *)
Definition jws_sign (payload : gmap string jvalue) (key algorithm : string)
  : result exn string :=
  if decide (algorithm = "HS256") then
    let encoded_header := encode_header algorithm in
    let encoded_payload := encode_payload payload in
    let signing_input := encoded_header +:+ "." +:+ encoded_payload in
    let signature := hmac_sha256 key signing_input in
    Ok (signing_input +:+ "." +:+ base64url_encode signature)
  else Raise JWSError.

(** [jwt.encode]: datetimes under exp, iat and nbf become whole seconds. *)
Definition convert_time_claim (c : string) (claims : gmap string pyvalue)
  : gmap string pyvalue :=
  match claims !! c with
  | Some (PyDatetime d) => <[c := PyInt (timegm d)]> claims
  | _ => claims
  end.

Definition jwt_encode (claims : gmap string pyvalue) (key algorithm : string)
  : result exn string :=
  let claims := foldr convert_time_claim claims ["exp"; "iat"; "nbf"] in
  if decide (map_Forall (fun _ v => is_Some (to_json v)) claims)
  then jws_sign (omap to_json claims) key algorithm
  else Raise TypeError.

(** [jws._load]: the last dot separates the signature, the first dot the
    header from the payload; the header is decoded and parsed, then the
    payload and the signature are decoded. *)
Definition load (token : string)
  : result exn (gmap string jvalue * string * string * string) :=
  '(signing_input, crypto_segment) ← expect JWSError (split_last "."%char token);
  '(header_segment, claims_segment) ←
    expect JWSError (split_first "."%char signing_input);
  header_data ← expect JWSError (base64url_decode header_segment);
  header ← match json_loads header_data with
           | Object header => Ok header
           | NotObject => Raise JWSError
           | TooDeep => Raise RecursionError
           end;
  payload ← expect JWSError (base64url_decode claims_segment);
  signature ← expect JWSError (base64url_decode crypto_segment);
  Ok (header, payload, signing_input, signature).

(** [jws._verify_signature]: the header names an allowed algorithm and the
    signature is the HMAC of the signing input. *)
Definition verify_signature (signing_input : string)
    (header : gmap string jvalue) (signature key : string)
    (algorithms : list string) : bool :=
  match header !! "alg" with
  | Some (JStr alg) =>
      bool_decide (alg ≠ "") && bool_decide (alg ∈ algorithms)
      && bool_decide (alg = "HS256")
      && bool_decide (hmac_sha256 key signing_input = signature)
  | _ => false
  end.

(** [jws.verify]: the payload bytes of a token whose signature verifies. *)
Definition jws_verify (token key : string) (algorithms : list string)
  : result exn string :=
  '(header, payload, signing_input, signature) ← load token;
  if verify_signature signing_input header signature key algorithms
  then Ok payload else Raise JWSError.

(** [int(claims[c])] under [except ValueError: raise JWTClaimsError]. *)
Definition int_of_claim (v : jvalue) : result exn Z :=
  match to_int v with
  | Raise ValueError => Raise JWTClaimsError
  | r => r
  end.

(** [jwt._validate_iat]. *)
Definition validate_iat (claims : gmap string jvalue) : result exn unit :=
  match claims !! "iat" with
  | None => Ok tt
  | Some v => _ ← int_of_claim v; Ok tt
  end.

(** [jwt._validate_nbf], at clock reading [now] (microseconds), no leeway. *)
Definition validate_nbf (now : Z) (claims : gmap string jvalue)
  : result exn unit :=
  match claims !! "nbf" with
  | None => Ok tt
  | Some v =>
      nbf ← int_of_claim v;
      if timegm now <? nbf then Raise JWTClaimsError else Ok tt
  end.

(** [jwt._validate_exp]. *)
Definition validate_exp (now : Z) (claims : gmap string jvalue)
  : result exn unit :=
  match claims !! "exp" with
  | None => Ok tt
  | Some v =>
      exp ← int_of_claim v;
      if exp <? timegm now then Raise ExpiredSignatureError else Ok tt
  end.

(** [jwt._validate_aud]: a string counts as a list of one; the elements must
    be strings and [audience] one of them. *)
Definition validate_aud (audience : option string) (claims : gmap string jvalue)
  : result exn unit :=
  match claims !! "aud" with
  | None => Ok tt
  | Some v =>
      audience_claims ←
        match v with
        | JStr _ => Ok [v]
        | JArray items => Ok items
        | _ => Raise JWTClaimsError
        end;
      if forallb (fun c => if c is JStr _ then true else false) audience_claims
      then
        if existsb (fun c => bool_decide (Some c = JStr <$> audience))
                   audience_claims
        then Ok tt else Raise JWTClaimsError
      else Raise JWTClaimsError
  end.

(** [jwt._validate_iss]. *)
Definition validate_iss (issuer : option string) (claims : gmap string jvalue)
  : result exn unit :=
  match issuer with
  | None => Ok tt
  | Some iss =>
      if bool_decide (claims !! "iss" = Some (JStr iss)) then Ok tt
      else Raise JWTClaimsError
  end.

(** [jwt._validate_sub]. *)
Definition validate_sub (subject : option string) (claims : gmap string jvalue)
  : result exn unit :=
  match claims !! "sub" with
  | None => Ok tt
  | Some (JStr s) =>
      match subject with
      | Some expected =>
          if bool_decide (s = expected) then Ok tt else Raise JWTClaimsError
      | None => Ok tt
      end
  | Some _ => Raise JWTClaimsError
  end.

(** [jwt._validate_jti]. *)
Definition validate_jti (claims : gmap string jvalue) : result exn unit :=
  match claims !! "jti" with
  | None | Some (JStr _) => Ok tt
  | Some _ => Raise JWTClaimsError
  end.

(** [jwt._validate_at_hash] when no access token is given. *)
Definition validate_at_hash (claims : gmap string jvalue) : result exn unit :=
  match claims !! "at_hash" with
  | None => Ok tt
  | Some _ => Raise JWTClaimsError
  end.

(** [jwt._validate_claims] under the default options. *)
Definition validate_claims (now : Z) (claims : gmap string jvalue)
    (audience issuer subject : option string) : result exn unit :=
  _ ← validate_iat claims;
  _ ← validate_nbf now claims;
  _ ← validate_exp now claims;
  _ ← validate_aud audience claims;
  _ ← validate_iss issuer claims;
  _ ← validate_sub subject claims;
  _ ← validate_jti claims;
  validate_at_hash claims.

(** [jwt.decode(token, key, algorithms)]: verify the signature, parse the
    payload, validate the claims. *)
Definition jwt_decode (now : Z) (token key : string) (algorithms : list string)
  : result exn (gmap string jvalue) :=
  payload ← match jws_verify token key algorithms with
            | Raise JWSError => Raise JWTError
            | r => r
            end;
  claims ← match json_loads payload with
           | Object claims => Ok claims
           | NotObject => Raise JWTError
           | TooDeep => Raise RecursionError
           end;
  _ ← validate_claims now claims None None None;
  Ok claims.

End jws.
End Jose.

(** ** jwt_manager.py *)

Definition __JWT_ALGORITHM : string := "HS256".

(** [timedelta(hours=n)] in microseconds. *)
Definition timedelta_hours (n : Z) : Z := n * 3600 * 1000000.

Section jwt_manager.
Context `{!Jose.Codec}.
Variable __JWT_SECRET : string.

(** [encode(email)], with the reading [now] of [datetime.now(timezone.utc)]. *)
Definition encode (now : Z) (email : string) : result exn string :=
  Jose.jwt_encode
    (<["sub" := Jose.PyStr email]>
       (<["exp" := Jose.PyDatetime (now + timedelta_hours 1)]> ∅))
    __JWT_SECRET
    __JWT_ALGORITHM.

(** [validate_token(credentials)], on the bearer string of the request: the
    first [except] clause takes an [ExpiredSignatureError], the second any
    other [JWTError]; what is neither passes through. *)
Definition validate_token (now : Z) (credentials : string)
  : result exn (gmap string Jose.jvalue) :=
  match Jose.jwt_decode now credentials __JWT_SECRET [__JWT_ALGORITHM] with
  | Ok payload => Ok payload
  | Raise ExpiredSignatureError =>
      Raise (HTTPException 403 "Token expirado.")
  | Raise exc =>
      if Jose.is_JWTError exc
      then Raise (HTTPException 403 "Token inv√°lido.")
      else Raise exc
  end.

End jwt_manager.

(** ** passlib: the sha512_crypt context *)

Module Passlib.

(** [hash] draws a fresh salt on every call; the salt is an explicit
    argument here.  [verify] recomputes the digest under the salt embedded
    in the stored string; it is taken on stored strings the context has made,
    the only ones [registrar] stores (on a string of no known scheme the
    library raises instead of answering).  The two laws: a hash verifies
    against the secret it was made of, and no secret is its own hash. *)
Class CryptContext : Type := {
  hash : string -> string -> string;       (* salt, secret *)
  verify : string -> string -> bool;       (* secret, stored hash *)
  verify_hash : forall salt secret, verify secret (hash salt secret) = true;
  hash_one_way : forall salt secret, hash salt secret ≠ secret
}.

End Passlib.

(** ** app_models.py *)

Module app_models.

Module UserCreate.
Record t : Type := mk { nome : string; email : string; senha : string }.
End UserCreate.

Module UserLogin.
Record t : Type := mk { email : string; senha : string }.
End UserLogin.

Module Token.
Record t : Type := mk { jwt : string }.
End Token.

End app_models.

(** ** db_models.py *)

Module db_models.

(** A row of the [users] table.  [id] is empty until the row is flushed. *)
Record User : Type := {
  id : option Z;
  nome : string;
  email : string;
  senha : string
}.

#[global] Instance User_eq_dec : EqDecision User.
Proof. solve_decision. Defined.

End db_models.

(** ** The database session *)

Module Db.
Import db_models.

(** The [users] table with its primary-key sequence. *)
Record Table : Type := { rows : list User; next_id : Z }.

Definition empty : Table := {| rows := []; next_id := 1 |}.

(** The one declared constraint beside the primary key:
    [email = Column(String, unique=True, nullable=False)]. *)
Definition unique_email (t : Table) : Prop := NoDup (email <$> rows t).

(** A session: the durable table and the objects added but not committed. *)
Record AsyncSession : Type := { store : Table; pending : list User }.

(** Handlers thread the session and may raise. *)
Definition M (A : Type) : Type := AsyncSession -> result exn A * AsyncSession.

#[global] Instance M_ret : MRet M := fun A a s => (Ok a, s).

#[global] Instance M_bind : MBind M := fun A B k m s =>
  match m s with
  | (Ok a, s') => k a s'
  | (Raise e, s') => (Raise e, s')
  end.

Definition raise {A} (e : exn) : M A := fun s => (Raise e, s).

Definition lift {A} (r : result exn A) : M A := fun s => (r, s).

(** [db.execute(select(User).where(p))]: the committed rows satisfying [p]. *)
Definition execute (where_ : User -> bool) : M (list User) :=
  fun s => (Ok (filter (fun u => where_ u = true) (rows (store s))), s).

(** [Result.scalar_one_or_none()]. *)
Definition scalar_one_or_none (res : list User) : M (option User) :=
  match res with
  | [] => mret None
  | [u] => mret (Some u)
  | _ => raise MultipleResultsFound
  end.

(** [db.add(obj)]. *)
Definition add (u : User) : M unit :=
  fun s => (Ok tt, {| store := store s; pending := pending s ++ [u] |}).

(** INSERT of one row: the unique constraint on [email] is checked, the
    sequence gives the primary key. *)
Definition insert (u : User) (t : Table) : option Table :=
  if bool_decide (email u ∈ email <$> rows t) then None
  else Some {| rows := rows t ++ [ {| id := Some (next_id t); nome := nome u;
                                      email := email u; senha := senha u |} ];
               next_id := next_id t + 1 |}.

Fixpoint flush (us : list User) (t : Table) : option Table :=
  match us with
  | [] => Some t
  | u :: us' => match insert u t with
                | Some t' => flush us' t'
                | None => None
                end
  end.

(** The sequence after the INSERTs of a flush: every INSERT draws a value,
    also the one that is refused, after which the flush stops. *)
Fixpoint sequence_after (us : list User) (t : Table) : Z :=
  match us with
  | [] => next_id t
  | u :: us' => match insert u t with
                | Some t' => sequence_after us' t'
                | None => next_id t + 1
                end
  end.

(** [db.commit()]: all pending rows become durable, or none does.  The
    rollback of a refused transaction does not give back the values drawn
    from the sequence. *)
Definition commit : M unit :=
  fun s => match flush (pending s) (store s) with
           | Some t => (Ok tt, {| store := t; pending := [] |})
           | None =>
               (Raise IntegrityError,
                {| store := {| rows := rows (store s);
                               next_id := sequence_after (pending s) (store s) |};
                   pending := [] |})
           end.

(** A request handler runs in a fresh session ([get_database]); what was
    added but not committed is dropped when the session closes. *)
Definition run_request {A} (handler : M A) (t : Table) : result exn A * Table :=
  let '(r, s) := handler {| store := t; pending := [] |} in (r, store s).

End Db.

(** ** app_routes.py *)

Section app_routes.
Context `{!Jose.Codec} `{!Passlib.CryptContext}.
Variable __JWT_SECRET : string.

Import app_models.

(** [registrar(user, db)], with the salt the hasher draws and the clock. *)
Definition registrar (salt : string) (now : Z) (user : UserCreate.t)
  : Db.M Token.t :=
  by_email ← Db.execute
               (fun u => bool_decide (db_models.email u = UserCreate.email user))
             ≫= Db.scalar_one_or_none;
  if by_email is Some _ then
    Db.raise (HTTPException 400 "Email já registrado")
  else
    by_nome ← Db.execute
                (fun u => bool_decide (db_models.nome u = UserCreate.nome user))
              ≫= Db.scalar_one_or_none;
    if by_nome is Some _ then
      Db.raise (HTTPException 400 "Nome indisponível")
    else
      _ ← Db.add {| db_models.id := None;
                    db_models.nome := UserCreate.nome user;
                    db_models.email := UserCreate.email user;
                    db_models.senha :=
                      Passlib.hash salt (UserCreate.senha user) |};
      _ ← Db.commit;
      token ← Db.lift (encode __JWT_SECRET now (UserCreate.email user));
      mret (Token.mk token).

(** [login(user, db)]. *)
Definition login (now : Z) (user : UserLogin.t) : Db.M Token.t :=
  db_user ← Db.execute
              (fun u => bool_decide (db_models.email u = UserLogin.email user))
            ≫= Db.scalar_one_or_none;
  if match db_user with
     | None => true
     | Some u => negb (Passlib.verify (UserLogin.senha user) (db_models.senha u))
     end
  then Db.raise (HTTPException 401 "Credenciais inválidas")
  else
    token ← Db.lift (encode __JWT_SECRET now (UserLogin.email user));
    mret (Token.mk token).

End app_routes.

(** ** urllib.parse.unquote_plus *)

Module Urllib.

Definition hex_digit (c : Ascii.ascii) : option N :=
  let n := Ascii.N_of_ascii c in
  if ((48 <=? n) && (n <=? 57))%N then Some (n - 48)%N          (* 0-9 *)
  else if ((65 <=? n) && (n <=? 70))%N then Some (n - 55)%N     (* A-F *)
  else if ((97 <=? n) && (n <=? 102))%N then Some (n - 87)%N    (* a-f *)
  else None.

Fixpoint replace (a b : Ascii.ascii) (s : string) : string :=
  match s with
  | EmptyString => EmptyString
  | String c s' => String (if Ascii.eqb c a then b else c) (replace a b s')
  end.

(** [unquote]: every [%XX] with two hexadecimal digits becomes the byte it
    names; a [%] not followed by two such digits stays.  Strings are byte
    strings: the UTF-8 decoding of the bytes is left implicit. *)
Fixpoint unquote (s : string) : string :=
  match s with
  | EmptyString => EmptyString
  | String c s' =>
      if Ascii.eqb c "%" then
        match s' with
        | String a (String b r) =>
            match hex_digit a, hex_digit b with
            | Some h, Some l =>
                String (Ascii.ascii_of_N (16 * h + l)) (unquote r)
            | _, _ => String c (unquote s')
            end
        | _ => String c (unquote s')
        end
      else String c (unquote s')
  end.

Definition unquote_plus (s : string) : string :=
  unquote (replace "+" " " s).

End Urllib.

(** ** pandas: the DataFrame operations of the aggregation *)

Module Pandas.

(** A cell: an integer (also an integral float), a string, or NaN. *)
Inductive cell : Type :=
| Int (n : Z)
| Str (s : string)
| NaN.

#[global] Instance cell_eq_dec : EqDecision cell.
Proof. solve_decision. Defined.

Inductive dtype : Type := int | float | str.

Record DataFrame : Type := { columns : list string; data : list (list cell) }.

(** What [read_csv] accepts in a column of a given dtype: an empty field is
    NaN, which an int column refuses. *)
Definition conforms (d : option dtype) (c : cell) : bool :=
  match d, c with
  | Some int, Int _ => true
  | Some float, (Int _ | NaN) => true
  | Some str, (Str _ | NaN) => true
  | None, _ => true
  | _, _ => false
  end.

Fixpoint assoc {A} (k : string) (l : list (string * A)) : option A :=
  match l with
  | [] => None
  | (k', v) :: l' => if decide (k' = k) then Some v else assoc k l'
  end.

(** The remote files: for a URL, the rows of the gzip CSV found there, or
    nothing when the fetch or the decompression fails.  The rows are taken
    as the parser types them, every field an integer, a text or missing; how
    the text of a file becomes such rows (the spellings read as missing, a
    leading column taken as index, the range of int64) is outside this
    model. *)
Definition Remote : Type := string -> option (list (list cell)).

(** [pd.read_csv(url, compression="gzip", sep=",", names=names, dtype=dtype)]. *)
Definition read_csv (remote : Remote) (url : string) (names : list string)
    (dtype : list (string * dtype)) : result exn DataFrame :=
  match remote url with
  | None => Raise (UpstreamFetchError url)
  | Some rows =>
      if forallb (fun row =>
           bool_decide (length row = length names)
           && forallb (fun '(c, v) => conforms (assoc c dtype) v) (zip names row))
           rows
      then Ok {| columns := names; data := rows |}
      else Raise ValueError
  end.

(** [df.rename(columns=mapper)]. *)
Definition rename (mapper : list (string * string)) (df : DataFrame) : DataFrame :=
  {| columns := (fun c => default c (assoc c mapper)) <$> columns df;
     data := data df |}.

(** Position of the first column with the given label. *)
Fixpoint get_loc (label : string) (cols : list string) : option nat :=
  match cols with
  | [] => None
  | c :: cols' => if decide (c = label) then Some 0%nat
                  else S <$> get_loc label cols'
  end.

(** [df[label] = df[label].apply(f)] for an [f] that may raise. *)
Definition apply_at (i : nat) (f : cell -> result exn cell) (row : list cell)
  : result exn (list cell) :=
  match row !! i with
  | None => Ok row
  | Some v => v' ← f v; Ok (<[i := v']> row)
  end.

Fixpoint map_rows (f : list cell -> result exn (list cell))
    (rows : list (list cell)) : result exn (list (list cell)) :=
  match rows with
  | [] => Ok []
  | r :: rows' => r' ← f r; rs ← map_rows f rows'; Ok (r' :: rs)
  end.

Definition set_apply (label : string) (f : cell -> result exn cell)
    (df : DataFrame) : result exn DataFrame :=
  match get_loc label (columns df) with
  | None => Raise (KeyError label)
  | Some i =>
      rows ← map_rows (apply_at i f) (data df);
      Ok {| columns := columns df; data := rows |}
  end.

(** [Series.fillna(v)] and [Series.astype(int)], cell by cell. *)
Definition fillna (v : Z) (c : cell) : cell :=
  match c with
  | NaN => Int v
  | _ => c
  end.

Definition astype_int (c : cell) : result exn cell :=
  match c with
  | Int n => Ok (Int n)
  | _ => Raise ValueError
  end.

(** [Index.duplicated()]: true where the label occurred before. *)
Fixpoint duplicated_from (seen l : list string) : list bool :=
  match l with
  | [] => []
  | x :: l' => bool_decide (x ∈ seen) :: duplicated_from (x :: seen) l'
  end.

Definition duplicated (l : list string) : list bool := duplicated_from [] l.

(** Labels the suffixes made collide inside one frame. *)
Definition suffix_dups (old new : list string) : bool :=
  existsb id (zip_with (fun o n => n && negb o) (duplicated old) (duplicated new)).

Definition add_suffix (to_rename : list string) (suffix c : string) : string :=
  if bool_decide (c ∈ to_rename) then c +:+ suffix else c.

(** [float(n)] for an int64 [n]: a float64 holds 53 bits of it, the nearest
    value, a tie going to the even one. *)
Definition float64 (n : Z) : Z :=
  let a := Z.abs n in
  if a <? 2 ^ 53 then n
  else
    let k := Z.log2 a - 52 in
    let q := a `div` 2 ^ k in
    let r := a `mod` 2 ^ k in
    let half := 2 ^ (k - 1) in
    let q' := if (half <? r) || ((r =? half) && Z.odd q) then q + 1 else q in
    Z.sgn n * (q' * 2 ^ k).

(** A cell of an int64 column that turns float64. *)
Definition astype_float (c : cell) : cell :=
  match c with
  | Int n => Int (float64 n)
  | _ => c
  end.

(** The right-hand columns of a left join keep their dtype when every left
    key finds a right row; as soon as one does not, they receive a NaN and
    their int64 values turn float64. *)
Definition upcast (ri : nat) (left_keys : list cell)
    (right_rows : list (list cell)) : cell -> cell :=
  if forallb (fun key =>
       existsb (fun r => bool_decide (default NaN (r !! ri) = key)) right_rows)
       left_keys
  then id else astype_float.

(** The rows of a left join: every left row once per matching right row, in
    the order of the left frame, or once with NaN for the right columns. *)
Definition join_row (ri width : nat) (cast : cell -> cell)
    (right_rows : list (list cell)) (key : cell) (l : list cell)
  : list (list cell) :=
  match filter (fun r => default NaN (r !! ri) = key) right_rows with
  | [] => [l ++ replicate width NaN]
  | matches => (fun r => l ++ (cast <$> r)) <$> matches
  end.

Definition left_join (li ri width : nat) (left_rows right_rows : list (list cell))
  : list (list cell) :=
  let cast :=
    upcast ri ((fun l => default NaN (l !! li)) <$> left_rows) right_rows in
  mjoin ((fun l => join_row ri width cast right_rows (default NaN (l !! li)) l)
           <$> left_rows).

(** [left.merge(right, left_on=.., right_on=.., how="left", suffixes=..)]. *)
Definition merge (left right : DataFrame) (left_on right_on : string)
    (suffixes : string * string) : result exn DataFrame :=
  match get_loc left_on (columns left), get_loc right_on (columns right) with
  | Some li, Some ri =>
      let rows := left_join li ri (length (columns right)) (data left) (data right) in
      let to_rename := filter (fun c => c ∈ columns right) (columns left) in
      if bool_decide (to_rename = []) then
        Ok {| columns := columns left ++ columns right; data := rows |}
      else if bool_decide (suffixes.1 = "") && bool_decide (suffixes.2 = "") then
        Raise ValueError
      else
        let llabels := add_suffix to_rename suffixes.1 <$> columns left in
        let rlabels := add_suffix to_rename suffixes.2 <$> columns right in
        if suffix_dups (columns left) llabels || suffix_dups (columns right) rlabels
        then Raise MergeError
        else Ok {| columns := llabels ++ rlabels; data := rows |}
  | None, _ => Raise (KeyError left_on)
  | _, None => Raise (KeyError right_on)
  end.

(** Keep the entries whose mask bit is set. *)
Fixpoint keep {A} (mask : list bool) (l : list A) : list A :=
  match mask, l with
  | b :: mask', x :: l' => if b then x :: keep mask' l' else keep mask' l'
  | _, _ => []
  end.

(** [df.drop(columns=labels)]: every label must name a column. *)
Definition drop (labels : list string) (df : DataFrame) : result exn DataFrame :=
  match filter (fun c => c ∉ columns df) labels with
  | missing :: _ => Raise (KeyError missing)
  | [] =>
      let mask := (fun c => bool_decide (c ∉ labels)) <$> columns df in
      Ok {| columns := keep mask (columns df); data := keep mask <$> data df |}
  end.

(** Ascending order of cells: integers by value, strings by code point,
    NaN last. *)
Definition cell_le (a b : cell) : Prop :=
  match a, b with
  | Int x, Int y => x ≤ y
  | Str s, Str t => String.le s t
  | Int _, Str _ => True
  | Str _, Int _ => False
  | _, NaN => True
  | NaN, _ => False
  end.

#[global] Instance cell_le_dec a b : Decision (cell_le a b).
Proof. destruct a, b; simpl; apply _. Defined.

Definition row_le (i : nat) (r1 r2 : list cell) : Prop :=
  cell_le (default NaN (r1 !! i)) (default NaN (r2 !! i)).

#[global] Instance row_le_dec i r1 r2 : Decision (row_le i r1 r2).
Proof. unfold row_le. apply _. Defined.

(** [df.sort_values(by=label)]: the label must name exactly one column.  The
    library leaves the order of rows with equal keys open; here they keep
    their relative order. *)
Definition sort_values (by_ : string) (df : DataFrame) : result exn DataFrame :=
  match filter (fun c => c = by_) (columns df), get_loc by_ (columns df) with
  | [_], Some i =>
      Ok {| columns := columns df; data := merge_sort (row_le i) (data df) |}
  | [], _ | _, None => Raise (KeyError by_)
  | _, _ => Raise ValueError
  end.

End Pandas.

(** ** grepolis_data.py *)

Definition __GAME_WORLD : string := "br137".
Definition __COMBAT_COLUMNS : list string := ["rank"; "player_id"; "points"].
Definition __COMBAT_DYPES : list (string * Pandas.dtype) :=
  [("rank", Pandas.int); ("player_id", Pandas.int); ("points", Pandas.int)].

Definition players_url : string :=
  "http://" +:+ __GAME_WORLD +:+ ".grepolis.com/data/players.txt.gz".
Definition kills_all_url : string :=
  "http://" +:+ __GAME_WORLD +:+ ".grepolis.com/data/player_kills_all.txt.gz".
Definition kills_att_url : string :=
  "http://" +:+ __GAME_WORLD +:+ ".grepolis.com/data/player_kills_att.txt.gz".
Definition kills_def_url : string :=
  "http://" +:+ __GAME_WORLD +:+ ".grepolis.com/data/player_kills_def.txt.gz".

Section grepolis_data.
Import Pandas.
Variable remote : Remote.

Definition __read_data (url : string) (columns : list string)
    (dtype : list (string * dtype)) : result exn DataFrame :=
  read_csv remote url columns dtype.

(** [unquote_plus] applied to a cell of the name column. *)
Definition unquote_plus_cell (c : cell) : result exn cell :=
  match c with
  | Str s => Ok (Str (Urllib.unquote_plus s))
  | _ => Raise AttributeError
  end.

Definition __player_data : result exn DataFrame :=
  data ← __read_data players_url
           ["id"; "name"; "alliance_id"; "points"; "rank"; "towns"]
           [("id", int); ("name", str); ("alliance_id", float);
            ("points", int); ("rank", int); ("towns", int)];
  data ← set_apply "name" unquote_plus_cell data;
  data ← set_apply "alliance_id" (fun c => astype_int (fillna (-1) c)) data;
  Ok data.

Definition __player_combat_data : result exn DataFrame :=
  rename [("rank", "combat_rank"); ("points", "combat_points")]
    <$> __read_data kills_all_url __COMBAT_COLUMNS __COMBAT_DYPES.

Definition __player_attack_data : result exn DataFrame :=
  rename [("rank", "attack_rank"); ("points", "attack_points")]
    <$> __read_data kills_att_url __COMBAT_COLUMNS __COMBAT_DYPES.

Definition __player_defense_data : result exn DataFrame :=
  rename [("rank", "defense_rank"); ("points", "defense_points")]
    <$> __read_data kills_def_url __COMBAT_COLUMNS __COMBAT_DYPES.

Definition get_players_data : result exn DataFrame :=
  base ← __player_data;
  combat ← __player_combat_data;
  df ← merge base combat "id" "player_id" ("_x", "_y");
  attack ← __player_attack_data;
  df ← merge df attack "id" "player_id" ("", "_atk");
  defense ← __player_defense_data;
  df ← merge df defense "id" "player_id" ("", "_def");
  df ← drop ["player_id"; "player_id_atk"; "player_id_def"] df;
  sort_values "rank" df.

End grepolis_data.

(** ** app_routes.py: the protected page *)

Definition newline : string := String (Ascii.ascii_of_N 10) EmptyString.

(** The document [consultar] wraps around the rendered table. *)
Definition page (table : string) : string :=
  newline +:+
  "    <html>" +:+ newline +:+
  "        <head>" +:+ newline +:+
  "            <title>Grepolis Player Data</title>" +:+ newline +:+
  "        </head>" +:+ newline +:+
  "        <body>" +:+ newline +:+
  "            <h1>Grepolis Data</h1>" +:+ newline +:+
  "            " +:+ table +:+ newline +:+
  "        </body>" +:+ newline +:+
  "    </html>" +:+ newline +:+
  "    ".

Section consultar.
Context `{!Jose.Codec}.
Variable __JWT_SECRET : string.
Variable remote : Pandas.Remote.
Variable to_html : Pandas.DataFrame -> string.      (* DataFrame.to_html() *)

(** [consultar(payload = Depends(validate_token))]: the dependency runs
    first; the body of the response is the page around the aggregated
    players. *)
Definition consultar (now : Z) (credentials : string) : result exn string :=
  payload ← validate_token __JWT_SECRET now credentials;
  df ← get_players_data remote;
  Ok (page (to_html df)).

End consultar.

(** ** Operations on the credential store *)

Section operations.
Context `{!Jose.Codec} `{!Passlib.CryptContext}.
Variable __JWT_SECRET : string.

Import app_models.

(** The requests that receive a database session. *)
Inductive request : Type :=
| Registrar (salt : string) (now : Z) (user : UserCreate.t)
| Login (now : Z) (user : UserLogin.t).

Definition handle (t : Db.Table) (req : request) : Db.Table :=
  match req with
  | Registrar salt now user =>
      (Db.run_request (registrar __JWT_SECRET salt now user) t).2
  | Login now user =>
      (Db.run_request (login __JWT_SECRET now user) t).2
  end.

(** The store after a sequence of requests on a fresh deployment. *)
Definition run (reqs : list request) : Db.Table := foldl handle Db.empty reqs.

End operations.

(** ** Registrations handled concurrently

    [registrar] is a coroutine: it suspends at each [await], that is at the
    query by email, at the query by name and at the commit.  While one
    request is suspended the event loop runs the others, each in a session of
    its own on the one table.  A request is therefore a task that advances
    one database statement at a time. *)

Module Interleaved.
Import app_models.

Inductive stage : Type :=
| AtEmailQuery                          (* line 48 of app_routes.py *)
| AtNameQuery                           (* line 51 *)
| AtCommit                              (* lines 54 to 59 *)
| Returned (r : result exn Token.t).

Record task : Type := {
  salt : string;
  now : Z;
  user : UserCreate.t;
  at_stage : stage
}.

Definition start (salt : string) (now : Z) (user : UserCreate.t) : task :=
  {| salt := salt; now := now; user := user; at_stage := AtEmailQuery |}.

Definition move (k : task) (st : stage) : task :=
  {| salt := salt k; now := now k; user := user k; at_stage := st |}.

Section interleaved.
Context `{!Jose.Codec} `{!Passlib.CryptContext}.
Variable __JWT_SECRET : string.

(** One statement of [registrar] on the table as it is now. *)
Definition advance (k : task) (t : Db.Table) : task * Db.Table :=
  match at_stage k with
  | AtEmailQuery =>
      match (Db.execute
               (fun u => bool_decide (db_models.email u = UserCreate.email (user k)))
             ≫= Db.scalar_one_or_none) {| Db.store := t; Db.pending := [] |} with
      | (Ok None, _) => (move k AtNameQuery, t)
      | (Ok (Some _), _) =>
          (move k (Returned (Raise (HTTPException 400 "Email já registrado"))), t)
      | (Raise e, _) => (move k (Returned (Raise e)), t)
      end
  | AtNameQuery =>
      match (Db.execute
               (fun u => bool_decide (db_models.nome u = UserCreate.nome (user k)))
             ≫= Db.scalar_one_or_none) {| Db.store := t; Db.pending := [] |} with
      | (Ok None, _) => (move k AtCommit, t)
      | (Ok (Some _), _) =>
          (move k (Returned (Raise (HTTPException 400 "Nome indisponível"))), t)
      | (Raise e, _) => (move k (Returned (Raise e)), t)
      end
  | AtCommit =>
      match (_ ← Db.add {| db_models.id := None;
                           db_models.nome := UserCreate.nome (user k);
                           db_models.email := UserCreate.email (user k);
                           db_models.senha :=
                             Passlib.hash (salt k) (UserCreate.senha (user k)) |};
             _ ← Db.commit;
             token ← Db.lift (encode __JWT_SECRET (now k) (UserCreate.email (user k)));
             mret (Token.mk token)) {| Db.store := t; Db.pending := [] |} with
      | (r, s) => (move k (Returned r), Db.store s)
      end
  | Returned _ => (k, t)
  end.

(** A task resumed three times in a row, nothing else running. *)
Definition run_alone (k : task) (t : Db.Table) : task * Db.Table :=
  let s1 := advance k t in
  let s2 := advance s1.1 s1.2 in
  advance s2.1 s2.2.

(** The event loop resumes the tasks in the order of the schedule. *)
Definition resume (st : list task * Db.Table) (i : nat) : list task * Db.Table :=
  match st.1 !! i with
  | Some k => let '(k', t') := advance k st.2 in (<[i := k']> st.1, t')
  | None => st
  end.

Definition run_schedule (schedule : list nat) (tasks : list task) (t : Db.Table)
  : list task * Db.Table :=
  foldl resume (tasks, t) schedule.

End interleaved.
End Interleaved.

(** ** A reference instance of the primitives

    A transparent stand-in for each primitive, enough to run the handlers on
    concrete inputs: bytes are written as two letters, a JSON object as a
    framed list of its entries, a password hash as scheme, salt and the
    letters of the secret. *)

Module Reference.
Import Jose.

(** Two letters of [a]..[p] per byte. *)
Definition nibble (n : N) : Ascii.ascii := Ascii.ascii_of_N (97 + n).

Definition unnibble (c : Ascii.ascii) : option N :=
  let n := Ascii.N_of_ascii c in
  if ((97 <=? n) && (n <? 113))%N then Some (n - 97)%N else None.

Fixpoint letters_encode (s : string) : string :=
  match s with
  | EmptyString => EmptyString
  | String c s' =>
      let n := Ascii.N_of_ascii c in
      String (nibble (n / 16)) (String (nibble (n mod 16)) (letters_encode s'))
  end.

Fixpoint letters_decode (s : string) : option string :=
  match s with
  | EmptyString => Some EmptyString
  | String a (String b s') =>
      match unnibble a, unnibble b, letters_decode s' with
      | Some h, Some l, Some r => Some (String (Ascii.ascii_of_N (16 * h + l)) r)
      | _, _, _ => None
      end
  | _ => None
  end.

(** Framing: [c x] for a character [x], [e] for an end. *)
Fixpoint put_string (s : string) (k : string) : string :=
  match s with
  | EmptyString => String "e" k
  | String c s' => String "c" (String c (put_string s' k))
  end.

Fixpoint get_string (s : string) : option (string * string) :=
  match s with
  | String "e" k => Some (EmptyString, k)
  | String "c" (String c s') =>
      match get_string s' with
      | Some (r, k) => Some (String c r, k)
      | None => None
      end
  | _ => None
  end.

Fixpoint put_pos (p : positive) (k : string) : string :=
  match p with
  | xH => String "e" k
  | xO p' => String "0" (put_pos p' k)
  | xI p' => String "1" (put_pos p' k)
  end.

Fixpoint get_pos (s : string) : option (positive * string) :=
  match s with
  | String "e" k => Some (xH, k)
  | String "0" s' =>
      match get_pos s' with Some (p, k) => Some (xO p, k) | None => None end
  | String "1" s' =>
      match get_pos s' with Some (p, k) => Some (xI p, k) | None => None end
  | _ => None
  end.

Definition put_Z (n : Z) (k : string) : string :=
  match n with
  | Z0 => String "z" k
  | Zpos p => String "p" (put_pos p k)
  | Zneg p => String "n" (put_pos p k)
  end.

Definition get_Z (s : string) : option (Z * string) :=
  match s with
  | String "z" k => Some (Z0, k)
  | String "p" s' =>
      match get_pos s' with Some (p, k) => Some (Zpos p, k) | None => None end
  | String "n" s' =>
      match get_pos s' with Some (p, k) => Some (Zneg p, k) | None => None end
  | _ => None
  end.

(** Strings and integers are framed; the stand-in writes nothing it could
    read back for the other values. *)
Definition put_value (v : jvalue) (k : string) : string :=
  match v with
  | JStr s => String "s" (put_string s k)
  | JInt n => String "i" (put_Z n k)
  | _ => String "x" k
  end.

Definition get_value (s : string) : option (jvalue * string) :=
  match s with
  | String "s" s' =>
      match get_string s' with Some (r, k) => Some (JStr r, k) | None => None end
  | String "i" s' =>
      match get_Z s' with Some (n, k) => Some (JInt n, k) | None => None end
  | _ => None
  end.

Fixpoint put_entries (l : list (string * jvalue)) : string :=
  match l with
  | [] => String "e" EmptyString
  | (key, v) :: l' => String "k" (put_string key (put_value v (put_entries l')))
  end.

Fixpoint get_entries (fuel : nat) (s : string) : option (list (string * jvalue)) :=
  match fuel with
  | O => None
  | S fuel' =>
      match s with
      | String "e" EmptyString => Some []
      | String "k" s' =>
          match get_string s' with
          | Some (key, s'') =>
              match get_value s'' with
              | Some (v, s''') =>
                  match get_entries fuel' s''' with
                  | Some l => Some ((key, v) :: l)
                  | None => None
                  end
              | None => None
              end
          | None => None
          end
      | _ => None
      end
  end.

Definition dumps (o : gmap string jvalue) : string := put_entries (map_to_list o).

Definition loads (s : string) : option (gmap string jvalue) :=
  list_to_map <$> get_entries (String.length s) s.

Definition json_loads (s : string) : loaded :=
  match loads s with
  | Some o => Object o
  | None => NotObject
  end.

(** The stand-in for the keyed digest. *)
Definition mac (key msg : string) : string := key +:+ ":" +:+ msg.

(** The stand-in for the password hash, in the layout of sha512_crypt:
    scheme, salt, digest. *)
Definition crypt (salt secret : string) : string :=
  "$6$" +:+ salt +:+ "$" +:+ letters_encode secret.

Definition crypt_verify (secret stored : string) : bool :=
  match split_last "$" stored with
  | Some (_, digest) => bool_decide (digest = letters_encode secret)
  | None => false
  end.

End Reference.

(** ** Sample data *)

Module Sample.
Import app_models.

Definition secret : string := "s3cr3t".

(** A store with one registered user. *)
Definition table : Db.Table :=
  {| Db.rows := [ {| db_models.id := Some 1;
                     db_models.nome := "bob";
                     db_models.email := "bob@example.org";
                     db_models.senha := Reference.crypt "Zx9" "hunter2" |} ];
     Db.next_id := 2 |}.

Definition alice : UserCreate.t := UserCreate.mk "alice" "alice@example.org" "correct horse".

(** Bob's email under another name. *)
Definition robert : UserCreate.t := UserCreate.mk "robert" "bob@example.org" "pw".

Definition bob_login : UserLogin.t := UserLogin.mk "bob@example.org" "hunter2".

(** Two registrations under one name. *)
Definition ana1 : UserCreate.t := UserCreate.mk "ana" "ana@example.org" "pw-one".
Definition ana2 : UserCreate.t := UserCreate.mk "ana" "ana@example.net" "pw-two".

(** Two clock readings within one second. *)
Definition t0 : Z := 1700000000123456.
Definition t1 : Z := 1700000000999999.

(** The four feeds: a player without alliance and without kills, ranked
    first but listed second, and a player present in two kills feeds. *)
Definition players : list (list Pandas.cell) :=
  [ [Pandas.Int 2; Pandas.Str "C%41"; Pandas.Int 7; Pandas.Int 50; Pandas.Int 2;
     Pandas.Int 1];
    [Pandas.Int 1; Pandas.Str "A+B"; Pandas.NaN; Pandas.Int 100; Pandas.Int 1;
     Pandas.Int 3] ].
Definition combat : list (list Pandas.cell) :=
  [ [Pandas.Int 1; Pandas.Int 2; Pandas.Int 10] ].
Definition attack : list (list Pandas.cell) := [].
Definition defense : list (list Pandas.cell) :=
  [ [Pandas.Int 5; Pandas.Int 2; Pandas.Int 3] ].

Definition remote : Pandas.Remote := fun url =>
  if decide (url = players_url) then Some players
  else if decide (url = kills_all_url) then Some combat
  else if decide (url = kills_att_url) then Some attack
  else if decide (url = kills_def_url) then Some defense
  else None.

(** What the aggregation returns on these feeds. *)
Definition aggregated : Pandas.DataFrame :=
  {| Pandas.columns :=
       ["id"; "name"; "alliance_id"; "points"; "rank"; "towns";
        "combat_rank"; "combat_points"; "attack_rank"; "attack_points";
        "defense_rank"; "defense_points"];
     Pandas.data :=
       [ [Pandas.Int 1; Pandas.Str "A B"; Pandas.Int (-1); Pandas.Int 100;
          Pandas.Int 1; Pandas.Int 3;
          Pandas.NaN; Pandas.NaN; Pandas.NaN; Pandas.NaN; Pandas.NaN; Pandas.NaN];
         [Pandas.Int 2; Pandas.Str "CA"; Pandas.Int 7; Pandas.Int 50;
          Pandas.Int 2; Pandas.Int 1;
          Pandas.Int 1; Pandas.Int 10; Pandas.NaN; Pandas.NaN; Pandas.Int 5;
          Pandas.Int 3] ] |}.

End Sample.

(** ** Vocabulary of the properties *)

(** The outcomes by the names the design gives them. *)
Definition DuplicateEmail : exn := HTTPException 400 "Email já registrado".
Definition DuplicateName : exn := HTTPException 400 "Nome indisponível".
Definition InvalidCredentials : exn := HTTPException 401 "Credenciais inválidas".
Definition TokenExpired : exn := HTTPException 403 "Token expirado.".
Definition TokenInvalid : exn := HTTPException 403 "Token inv√°lido.".

Section vocabulary.
Context `{!Jose.Codec} `{!Passlib.CryptContext}.
Import Jose.

(** The claim set of a token issued at [now] for [email]. *)
Definition issued_claims (now : Z) (email : string) : gmap string jvalue :=
  <["sub" := JStr email]> (<["exp" := JInt (timegm now + 3600)]> ∅).

(** The claims of a token whose signature verifies under [secret] and whose
    payload is a JSON object. *)
Definition verified_claims (secret token : string) : option (gmap string jvalue) :=
  match jws_verify token secret [__JWT_ALGORITHM] with
  | Ok payload =>
      match json_loads payload with
      | Object claims => Some claims
      | _ => None
      end
  | Raise _ => None
  end.

(** The token is well formed and its signature verifies under [secret]. *)
Definition signature_verifies (secret token : string) : Prop :=
  exists payload, jws_verify token secret [__JWT_ALGORITHM] = Ok payload.

(** The token is refused before its signature is looked at: it has fewer
    than three segments, a segment is not base64url, or the header is not a
    JSON object. *)
Definition malformed (token : string) : Prop := load token = Raise JWSError.

(** The header, or the payload under a signature that verifies, is JSON
    nested too deeply for the parser. *)
Definition too_deep (secret token : string) : Prop :=
  load token = Raise RecursionError
  \/ exists payload,
       jws_verify token secret [__JWT_ALGORITHM] = Ok payload
       /\ json_loads payload = TooDeep.

(** The exp claim read as an integer, when there is one. *)
Definition expiry (claims : gmap string jvalue) : option Z :=
  claims !! "exp" ≫= int_claim.

(** The checks of a claim set, one by one: an iat claim is an integer; an
    nbf claim is an integer not after the second of the clock; an exp claim
    is an integer not before it; there is no aud and no at_hash claim, and a
    sub or jti claim is a string. *)
Definition issued_at_passes (claims : gmap string jvalue) : Prop :=
  forall v, claims !! "iat" = Some v -> is_Some (int_claim v).

Definition not_before_passes (now : Z) (claims : gmap string jvalue) : Prop :=
  forall v, claims !! "nbf" = Some v ->
    exists nbf, int_claim v = Some nbf /\ nbf ≤ timegm now.

Definition expiry_passes (now : Z) (claims : gmap string jvalue) : Prop :=
  forall v, claims !! "exp" = Some v ->
    exists exp, int_claim v = Some exp /\ timegm now ≤ exp.

Definition identity_claims_pass (claims : gmap string jvalue) : Prop :=
  claims !! "aud" = None
  /\ (forall v, claims !! "sub" = Some v -> exists s, v = JStr s)
  /\ (forall v, claims !! "jti" = Some v -> exists s, v = JStr s)
  /\ claims !! "at_hash" = None.

Definition acceptable (now : Z) (claims : gmap string jvalue) : Prop :=
  issued_at_passes claims
  /\ not_before_passes now claims
  /\ expiry_passes now claims
  /\ identity_claims_pass claims.

(** The first check that does not pass refuses the claim set as invalid: an
    iat, nbf or exp claim is a string that is no integer (or a float NaN), or
    the nbf claim is after the second of the clock, or, the three time claims
    passing, the other claims do not. *)
Definition refused_claim (now : Z) (claims : gmap string jvalue) : Prop :=
  (exists v, claims !! "iat" = Some v /\ to_int v = Raise ValueError)
  \/ (issued_at_passes claims
      /\ exists v, claims !! "nbf" = Some v
           /\ (to_int v = Raise ValueError
               \/ exists nbf, to_int v = Ok nbf /\ timegm now < nbf))
  \/ (issued_at_passes claims /\ not_before_passes now claims
      /\ exists v, claims !! "exp" = Some v /\ to_int v = Raise ValueError)
  \/ (issued_at_passes claims /\ not_before_passes now claims
      /\ expiry_passes now claims /\ ¬ identity_claims_pass claims).

(** The exceptions a check of a time claim lets through. *)
Definition time_claim_error (e : exn) : Prop :=
  e = JWTClaimsError \/ e = TypeError \/ e = OverflowError.

(** The checks after exp, taken together. *)
Definition validate_identity (claims : gmap string jvalue) : result exn unit :=
  _ ← validate_aud None claims;
  _ ← validate_iss None claims;
  _ ← validate_sub None claims;
  _ ← validate_jti claims;
  validate_at_hash claims.

(** What [validate_token] makes of the outcome of the checks. *)
Definition answer (claims : gmap string jvalue) (checked : result exn unit)
  : result exn (gmap string jvalue) :=
  match checked with
  | Ok _ => Ok claims
  | Raise ExpiredSignatureError => Raise TokenExpired
  | Raise e => if is_JWTError e then Raise TokenInvalid else Raise e
  end.

(** The object the registration hands to the session. *)
Definition new_user (salt : string) (user : app_models.UserCreate.t)
  : db_models.User :=
  {| db_models.id := None;
     db_models.nome := app_models.UserCreate.nome user;
     db_models.email := app_models.UserCreate.email user;
     db_models.senha := Passlib.hash salt (app_models.UserCreate.senha user) |}.

(** A session as [get_database] opens it. *)
Definition fresh_session (t : Db.Table) : Db.AsyncSession :=
  {| Db.store := t; Db.pending := [] |}.

(** The table after the insert of a registration. *)
Definition registered (salt : string) (user : app_models.UserCreate.t)
    (t : Db.Table) : Db.Table :=
  {| Db.rows := Db.rows t ++
       [ {| db_models.id := Some (Db.next_id t);
            db_models.nome := app_models.UserCreate.nome user;
            db_models.email := app_models.UserCreate.email user;
            db_models.senha := Passlib.hash salt (app_models.UserCreate.senha user) |} ];
     Db.next_id := Db.next_id t + 1 |}.

End vocabulary.

(** ** Invariant of the credential store *)

Section store_invariant.
Context `{!Passlib.CryptContext}.
Import app_models db_models.

(** What holds of a table reached by the requests [reqs]: emails and names
    are unique, and every row stores the hash of the registration that
    created it. *)
Definition store_invariant (reqs : list request) (t : Db.Table) : Prop :=
  NoDup (email <$> Db.rows t)
  /\ NoDup (nome <$> Db.rows t)
  /\ forall u, u ∈ Db.rows t ->
       exists salt now user,
         Registrar salt now user ∈ reqs
         /\ email u = UserCreate.email user
         /\ nome u = UserCreate.nome user
         /\ senha u = Passlib.hash salt (UserCreate.senha user)
         /\ senha u ≠ UserCreate.senha user.

End store_invariant.

(** ** Vocabulary of the aggregation *)

Module Aggregate.
Import Pandas.

Definition base_columns : list string :=
  ["id"; "name"; "alliance_id"; "points"; "rank"; "towns"].

Definition result_columns : list string :=
  base_columns ++
  ["combat_rank"; "combat_points"; "attack_rank"; "attack_points";
   "defense_rank"; "defense_points"].

(** The columns after the three merges, before any is dropped. *)
Definition merged_columns : list string :=
  base_columns ++
  ["combat_rank"; "player_id"; "combat_points";
   "attack_rank"; "player_id_atk"; "attack_points";
   "defense_rank"; "player_id_def"; "defense_points"].

(** The base fields of a player as the aggregation presents them. *)
Definition player_record (i : Z) (name : string) (alliance : cell) (p rk tw : Z)
  : list cell :=
  [Int i; Str (Urllib.unquote_plus name); fillna (-1) alliance; Int p; Int rk; Int tw].

(** A row of a kills feed holds three integers. *)
Definition kills_row (row : list cell) : Prop :=
  exists rk pid pts, row = [Int rk; Int pid; Int pts].

(** A row of the players feed and the record made of it. *)
Definition base_row (row record : list cell) : Prop :=
  exists i name alliance p rk tw,
    row = [Int i; Str name; alliance; Int p; Int rk; Int tw]
    /\ record = player_record i name alliance p rk tw.

(** The player ids of a kills feed (its second column). *)
Definition player_ids (rows : list (list cell)) : list cell :=
  (fun r => default NaN (r !! 1%nat)) <$> rows.

(** The rank of a record (the fifth column). *)
Definition rank_of (row : list cell) : option cell := row !! 4%nat.

(** The cells a left join shows for a right row: the row as it is, or the
    row turned float64. *)
Definition joined_cells (right_rows : list (list cell)) (x : list cell) : Prop :=
  exists r, r ∈ right_rows /\ (x = r \/ x = astype_float <$> r).

(** The three joins in a row. *)
Definition joined (base combat attack defense : list (list cell))
  : list (list cell) :=
  left_join 0 1 3 (left_join 0 1 3 (left_join 0 1 3 base combat) attack) defense.

(** Which of the fifteen merged columns survive the drop. *)
Definition kept : list bool :=
  [true; true; true; true; true; true;
   true; false; true; true; false; true; true; false; true].

End Aggregate.

(** ** Well-formed feeds *)

Module Feeds.
Import Pandas.

(** A row of the players feed as [read_csv] and [unquote_plus] accept it: a
    name, an alliance id or none, integers elsewhere. *)
Definition players_row (row : list cell) : Prop :=
  exists i name alliance p rk tw,
    row = [Int i; Str name; alliance; Int p; Int rk; Int tw]
    /\ (alliance = NaN \/ exists a, alliance = Int a).

(** The join key of a left row (its first column) and of a kills row (its
    second). *)
Definition left_key (l : list cell) : cell := default NaN (l !! 0%nat).
Definition kills_key (r : list cell) : cell := default NaN (r !! 1%nat).

(** The rank and points a record shows for player [i] from one kills feed:
    both NaN when the feed has no row of the player, else those of a row of
    the player, as they are or both turned float64. *)
Definition kills_fields (feed : list (list cell)) (i : Z) (rk pts : cell) : Prop :=
  (rk = NaN /\ pts = NaN /\ Int i ∉ (kills_key <$> feed))
  \/ (exists r p,
        [Int r; Int i; Int p] ∈ feed
        /\ ((rk = Int r /\ pts = Int p)
            \/ (rk = Int (float64 r) /\ pts = Int (float64 p)))).

End Feeds.

(** ** Further sample data *)

Module Cases.
Import app_models.

(** A store where two rows share a name, as two interleaved registrations
    can leave it. *)
Definition ana_row1 : db_models.User :=
  {| db_models.id := Some 1;
     db_models.nome := "ana";
     db_models.email := "ana@example.org";
     db_models.senha := Reference.crypt "Na7" "pw-one" |}.
Definition ana_row2 : db_models.User :=
  {| db_models.id := Some 2;
     db_models.nome := "ana";
     db_models.email := "ana@example.net";
     db_models.senha := Reference.crypt "Qb2" "pw-two" |}.
Definition twins : Db.Table := {| Db.rows := [ana_row1; ana_row2]; Db.next_id := 3 |}.

(** A third registration under that name. *)
Definition ana3 : UserCreate.t := UserCreate.mk "ana" "ana@example.com" "pw-three".

(** Alice's email under another name, and her name under another email. *)
Definition alicia : UserCreate.t := UserCreate.mk "alicia" "alice@example.org" "pw".
Definition alice2 : UserCreate.t := UserCreate.mk "alice" "alice@example.net" "pw".

(** A claim set whose exp is long past and whose nbf is far ahead (the first
    second of the year 2100). *)
Definition stale_claims : gmap string Jose.jvalue :=
  <["exp" := Jose.JInt 1]> (<["nbf" := Jose.JInt 4102444800]> ∅).

(** The token of that claim set under the secret of [Sample], as the
    reference instance writes it: header, payload, signature. *)
Definition stale_header : string :=
  "glgdgbgdgmgdghgfhdgdeigdfdgddcgddfgddggfglgdhegdhjgdhagfhdgdekgd" +:+
  "fhgdfegfgf".
Definition stale_payload : string :=
  "glgdgfgdhigdhagfgjhagfglgdgogdgcgdgggfgjhadadadadadadadadadbdbdb" +:+
  "dadbdadbdadadbdbdadadadadbdadadbdadbdbdbgfgf".
Definition stale_signature : string :=
  "hdddgdhcddhedkghgmghgeghgcghgeghgnghgeghgighgggigeghgegfgjghgegg" +:+
  "geghgegegdghgegeggghgegeghghggghgmghgegigfghgegigkghgegigbghgggi" +:+
  "geghgegfglghgegggighgegggfghggghggcoghgmghgeghggghgegigjghgegigb" +:+
  "ghggghgkgigbghggghgmghgeghgpghgeghgdghgeghghghggghgkgigbgegbgegb" +:+
  "gegbgegbgegbgegbgegbgegbgegcgegcgegcgegbgegcgegbgegcgegbgegbgegc" +:+
  "gegcgegbgegbgegbgegbgegcgegbgegbgegcgegbgegcgegcgegcghggghgg".
Definition stale_token : string :=
  stale_header +:+ "." +:+ stale_payload +:+ "." +:+ stale_signature.

(** One email under two names. *)
Definition bea1 : UserCreate.t := UserCreate.mk "bea" "bea@example.org" "pw-one".
Definition bea2 : UserCreate.t := UserCreate.mk "beatriz" "bea@example.org" "pw-two".

(** The feeds of [Sample], the attack feed missing. *)
Definition remote_without_attack : Pandas.Remote := fun url =>
  if decide (url = kills_att_url) then None else Sample.remote url.

(** Feeds with points of 54 bits: the first player is in the defense feed
    only, the second in the combat and in the defense feed. *)
Definition remote_large : Pandas.Remote := fun url =>
  if decide (url = players_url) then
    Some [ [Pandas.Int 1; Pandas.Str "A"; Pandas.Int 3; Pandas.Int 10; Pandas.Int 1;
            Pandas.Int 1];
           [Pandas.Int 2; Pandas.Str "B"; Pandas.Int 3; Pandas.Int 20; Pandas.Int 2;
            Pandas.Int 1] ]
  else if decide (url = kills_all_url) then
    Some [ [Pandas.Int 1; Pandas.Int 2; Pandas.Int 9007199254740993] ]
  else if decide (url = kills_att_url) then Some []
  else if decide (url = kills_def_url) then
    Some [ [Pandas.Int 1; Pandas.Int 2; Pandas.Int 9007199254740993];
           [Pandas.Int 2; Pandas.Int 1; Pandas.Int 5] ]
  else None.

(** A stand-in for [DataFrame.to_html()]: the column labels in a row. *)
Definition render (df : Pandas.DataFrame) : string :=
  "<table><tr>" +:+ String.concat "|" (Pandas.columns df) +:+ "</tr></table>".

End Cases.

(** * Properties *)

(** One step of a computation that returned. *)
Ltac bind_ok := unfold mbind at 1, result_bind at 1; cbv beta iota.
Ltac fmap_ok := unfold fmap at 1, result_fmap at 1; cbv beta iota.
Ltac binds_ok := unfold mbind, result_bind; cbv beta iota.

(** ** Splitting *)

Lemma app_cons (a : Ascii.ascii) (l s : string) :
  String a l +:+ s = String a (l +:+ s).
Proof. reflexivity. Qed.

Lemma dot_app (l s : string) : l +:+ "." +:+ s = l +:+ String "." s.
Proof. reflexivity. Qed.

Lemma split_last_absent c s : contains c s = false -> split_last c s = None.
Proof.
  induction s as [|a s IH]; [reflexivity|]. simpl.
  destruct (Ascii.eqb a c); [discriminate|].
  intros Hs. rewrite (IH Hs). reflexivity.
Qed.

Lemma split_last_app c l r :
  contains c r = false -> split_last c (l +:+ String c r) = Some (l, r).
Proof.
  intros Hr. induction l as [|a l IH].
  - change (split_last c (String c r) = Some (EmptyString, r)). simpl.
    rewrite (split_last_absent _ _ Hr), Ascii.eqb_refl. reflexivity.
  - rewrite app_cons. simpl. rewrite IH. reflexivity.
Qed.

Lemma split_first_app c l r :
  contains c l = false -> split_first c (l +:+ String c r) = Some (l, r).
Proof.
  induction l as [|a l IH]; intros Hl.
  - change (split_first c (String c r) = Some (EmptyString, r)). simpl.
    rewrite Ascii.eqb_refl. reflexivity.
  - rewrite app_cons. simpl in *.
    destruct (Ascii.eqb a c); [discriminate|].
    rewrite (IH Hl). reflexivity.
Qed.

(** ** python-jose: what is signed is what is read back *)

Section jose_facts.
Context `{!Jose.Codec}.
Import Jose.

Lemma header_scalar alg :
  map_Forall (fun _ v => scalar v)
    (<["typ" := JStr "JWT"]> (<["alg" := JStr alg]> (∅ : gmap string jvalue))).
Proof.
  apply map_Forall_insert_2; [exact I|].
  apply map_Forall_insert_2; [exact I|]. apply map_Forall_empty.
Qed.

Lemma load_jws_sign payload key :
  exists token,
    jws_sign payload key "HS256" = Ok token /\
    load token =
      Ok (<["typ" := JStr "JWT"]> (<["alg" := JStr "HS256"]> ∅),
          json_dumps payload,
          encode_header "HS256" +:+ "." +:+ encode_payload payload,
          hmac_sha256 key (encode_header "HS256" +:+ "." +:+ encode_payload payload)).
Proof.
  eexists. split; [reflexivity|].
  unfold load.
  rewrite !dot_app.
  rewrite split_last_app by apply base64url_encode_alphabet.
  cbn [expect]. bind_ok.
  rewrite split_first_app by apply base64url_encode_alphabet.
  cbn [expect]. bind_ok.
  unfold encode_header, encode_payload.
  rewrite !base64url_decode_encode. cbn [expect]. bind_ok.
  rewrite (json_loads_dumps _ (header_scalar "HS256")). bind_ok. bind_ok. bind_ok.
  reflexivity.
Qed.

Lemma jws_verify_jws_sign claims key token :
  jws_sign claims key "HS256" = Ok token ->
  jws_verify token key ["HS256"] = Ok (json_dumps claims).
Proof.
  intros Hsign.
  destruct (load_jws_sign claims key) as (token' & Hsign' & Hload).
  rewrite Hsign in Hsign'. injection Hsign' as <-. clear Hsign.
  unfold jws_verify. rewrite Hload. bind_ok.
  unfold verify_signature.
  rewrite lookup_insert_ne by done. rewrite lookup_insert_eq.
  rewrite !bool_decide_eq_true_2 by (done || set_solver). reflexivity.
Qed.

(** What [int] returns and how it raises. *)
Lemma int_of_claim_ok v n : int_of_claim v = Ok n <-> int_claim v = Some n.
Proof.
  unfold int_of_claim, int_claim.
  destruct (to_int v) as [m|e]; [split; congruence|].
  split; [|discriminate]. by destruct e.
Qed.

Lemma to_int_raise v e :
  to_int v = Raise e -> e = ValueError \/ e = TypeError \/ e = OverflowError.
Proof.
  destruct v as [s|n|[m x|neg|]|b| | |]; cbn [to_int]; try discriminate;
    try (intros [= <-]; auto).
  destruct (py_int s); [discriminate|]. cbn [expect]. intros [= <-]. auto.
Qed.

Lemma int_of_claim_raise v e :
  int_of_claim v = Raise e ->
  (e = JWTClaimsError /\ to_int v = Raise ValueError)
  \/ ((e = TypeError \/ e = OverflowError) /\ to_int v = Raise e).
Proof.
  unfold int_of_claim. destruct (to_int v) as [n|e'] eqn:Hv; [discriminate|].
  destruct (to_int_raise _ _ Hv) as [->|[->| ->]]; intros [= <-]; auto.
Qed.

Lemma int_claim_None v :
  int_claim v = None <-> exists e, to_int v = Raise e.
Proof.
  unfold int_claim. destruct (to_int v) as [n|e].
  - split; [discriminate|]. by intros [? [=]].
  - split; [by eexists|done].
Qed.

End jose_facts.

(** ** python-jose: the checks of a claim set *)

Section claims_facts.
Context `{!Jose.Codec}.
Import Jose.

Lemma validate_iat_ok claims : validate_iat claims = Ok tt <-> issued_at_passes claims.
Proof.
  unfold validate_iat, issued_at_passes.
  destruct (claims !! "iat") as [v|]; [|split; [intros _ ? [=]|done]].
  destruct (int_of_claim v) as [n|e] eqn:Hv.
  - apply int_of_claim_ok in Hv. split; [|done].
    intros _ ? [= <-]. by eexists.
  - split; [discriminate|]. intros Hpass. destruct (Hpass v eq_refl) as [n Hn].
    apply int_of_claim_ok in Hn. congruence.
Qed.

Lemma validate_iat_raise claims e :
  validate_iat claims = Raise e -> time_claim_error e.
Proof.
  unfold validate_iat. destruct (claims !! "iat") as [v|]; [|discriminate].
  destruct (int_of_claim v) as [n|e'] eqn:Hv; [discriminate|].
  intros [= <-]. unfold time_claim_error.
  apply int_of_claim_raise in Hv as [[-> _]|[[-> | ->] _]]; auto.
Qed.

Lemma validate_nbf_ok now claims :
  validate_nbf now claims = Ok tt <-> not_before_passes now claims.
Proof.
  unfold validate_nbf, not_before_passes.
  destruct (claims !! "nbf") as [v|]; [|split; [intros _ ? [=]|done]].
  destruct (int_of_claim v) as [n|e] eqn:Hv.
  - apply int_of_claim_ok in Hv. bind_ok.
    destruct (Z.ltb_spec (timegm now) n).
    + split; [discriminate|]. intros Hpass.
      destruct (Hpass v eq_refl) as (n' & Hn' & Hle). rewrite Hv in Hn'.
      injection Hn' as <-. lia.
    + split; [|done]. intros _ ? [= <-]. by exists n.
  - split; [discriminate|]. intros Hpass.
    destruct (Hpass v eq_refl) as (n & Hn & _).
    apply int_of_claim_ok in Hn. congruence.
Qed.

Lemma validate_nbf_raise now claims e :
  validate_nbf now claims = Raise e -> time_claim_error e.
Proof.
  unfold validate_nbf. destruct (claims !! "nbf") as [v|]; [|discriminate].
  destruct (int_of_claim v) as [n|e'] eqn:Hv.
  - bind_ok. destruct (timegm now <? n); [|discriminate].
    intros [= <-]. by left.
  - intros [= <-]. unfold time_claim_error.
    apply int_of_claim_raise in Hv as [[-> _]|[[-> | ->] _]]; auto.
Qed.

Lemma validate_exp_ok now claims :
  validate_exp now claims = Ok tt <-> expiry_passes now claims.
Proof.
  unfold validate_exp, expiry_passes.
  destruct (claims !! "exp") as [v|]; [|split; [intros _ ? [=]|done]].
  destruct (int_of_claim v) as [n|e] eqn:Hv.
  - apply int_of_claim_ok in Hv. bind_ok.
    destruct (Z.ltb_spec n (timegm now)).
    + split; [discriminate|]. intros Hpass.
      destruct (Hpass v eq_refl) as (n' & Hn' & Hle). rewrite Hv in Hn'.
      injection Hn' as <-. lia.
    + split; [|done]. intros _ ? [= <-]. by exists n.
  - split; [discriminate|]. intros Hpass.
    destruct (Hpass v eq_refl) as (n & Hn & _).
    apply int_of_claim_ok in Hn. congruence.
Qed.

Lemma validate_exp_expired now claims :
  validate_exp now claims = Raise ExpiredSignatureError <->
  exists exp, expiry claims = Some exp /\ exp < timegm now.
Proof.
  unfold validate_exp, expiry.
  destruct (claims !! "exp") as [v|]; cbn [mbind option_bind];
    [|split; [discriminate|by intros (? & [=] & _)]].
  destruct (int_of_claim v) as [n|e] eqn:Hv.
  - apply int_of_claim_ok in Hv. bind_ok. rewrite Hv.
    destruct (Z.ltb_spec n (timegm now)).
    + split; [|done]. intros _. by exists n.
    + split; [discriminate|]. intros (? & [= <-] & ?). lia.
  - bind_ok. split.
    + intros [= ->]. by apply int_of_claim_raise in Hv as [[[=] _]|[[[=]|[=]] _]].
    + intros (n & Hn & _). rewrite <- int_of_claim_ok in Hn. congruence.
Qed.

Lemma validate_exp_raise now claims e :
  validate_exp now claims = Raise e ->
  e = ExpiredSignatureError \/ time_claim_error e.
Proof.
  unfold validate_exp. destruct (claims !! "exp") as [v|]; [|discriminate].
  destruct (int_of_claim v) as [n|e'] eqn:Hv.
  - bind_ok. destruct (n <? timegm now); [|discriminate].
    intros [= <-]. by left.
  - intros [= <-]. right. unfold time_claim_error.
    apply int_of_claim_raise in Hv as [[-> _]|[[-> | ->] _]]; auto.
Qed.

Lemma validate_aud_None claims :
  (validate_aud None claims = Ok tt <-> claims !! "aud" = None)
  /\ forall e, validate_aud None claims = Raise e -> e = JWTClaimsError.
Proof.
  unfold validate_aud. destruct (claims !! "aud") as [v|]; [|by split].
  assert (forall items,
            existsb (fun c => bool_decide (Some c = JStr <$> (None : option string)))
                    items = false) as Hnone.
  { induction items as [|c items IH]; [reflexivity|]. cbn [existsb].
    rewrite IH. by rewrite bool_decide_eq_false_2. }
  assert (forall items : list jvalue,
            (if forallb (fun c => if c is JStr _ then true else false) items
             then if existsb
                       (fun c => bool_decide (Some c = JStr <$> (None : option string)))
                       items
                  then Ok tt else Raise JWTClaimsError
             else Raise JWTClaimsError) = (Raise JWTClaimsError : result exn unit))
    as Hraise.
  { intros items. rewrite Hnone. by destruct (forallb _ items). }
  destruct v as [s|n|f|b| |items|entries]; unfold mbind, result_bind;
    cbv beta iota; rewrite ?Hraise;
    (split; [split; discriminate|by intros e [= <-]]).
Qed.

Lemma validate_sub_None claims :
  (validate_sub None claims = Ok tt <->
   forall v, claims !! "sub" = Some v -> exists s, v = JStr s)
  /\ forall e, validate_sub None claims = Raise e -> e = JWTClaimsError.
Proof.
  unfold validate_sub. destruct (claims !! "sub") as [v|].
  - destruct v; (split; [split|]);
      try discriminate; try (by intros e [= <-]); try done.
    + intros _ ? [= <-]. by eexists.
    + intros Hs. by destruct (Hs _ eq_refl).
    + intros Hs. by destruct (Hs _ eq_refl).
    + intros Hs. by destruct (Hs _ eq_refl).
    + intros Hs. by destruct (Hs _ eq_refl).
    + intros Hs. by destruct (Hs _ eq_refl).
    + intros Hs. by destruct (Hs _ eq_refl).
  - split; [|discriminate]. split; [intros _ ? [=]|done].
Qed.

Lemma validate_jti_iff claims :
  (validate_jti claims = Ok tt <->
   forall v, claims !! "jti" = Some v -> exists s, v = JStr s)
  /\ forall e, validate_jti claims = Raise e -> e = JWTClaimsError.
Proof.
  unfold validate_jti. destruct (claims !! "jti") as [v|].
  - destruct v; (split; [split|]);
      try discriminate; try (by intros e [= <-]); try done.
    + intros _ ? [= <-]. by eexists.
    + intros Hs. by destruct (Hs _ eq_refl).
    + intros Hs. by destruct (Hs _ eq_refl).
    + intros Hs. by destruct (Hs _ eq_refl).
    + intros Hs. by destruct (Hs _ eq_refl).
    + intros Hs. by destruct (Hs _ eq_refl).
    + intros Hs. by destruct (Hs _ eq_refl).
  - split; [|discriminate]. split; [intros _ ? [=]|done].
Qed.

Lemma validate_at_hash_iff claims :
  (validate_at_hash claims = Ok tt <-> claims !! "at_hash" = None)
  /\ forall e, validate_at_hash claims = Raise e -> e = JWTClaimsError.
Proof.
  unfold validate_at_hash. destruct (claims !! "at_hash") as [v|]; [|by split].
  split; [split; discriminate|by intros e [= <-]].
Qed.

Lemma validate_identity_iff claims :
  (validate_identity claims = Ok tt <-> identity_claims_pass claims)
  /\ forall e, validate_identity claims = Raise e -> e = JWTClaimsError.
Proof.
  unfold validate_identity, identity_claims_pass.
  destruct (validate_aud_None claims) as [Haud Haud'].
  destruct (validate_sub_None claims) as [Hsub Hsub'].
  destruct (validate_jti_iff claims) as [Hjti Hjti'].
  destruct (validate_at_hash_iff claims) as [Hat Hat'].
  destruct (validate_aud None claims) as [[]|e1].
  - bind_ok. cbn [validate_iss]. bind_ok.
    destruct (validate_sub None claims) as [[]|e2].
    + bind_ok. destruct (validate_jti claims) as [[]|e3].
      * bind_ok. destruct (validate_at_hash claims) as [[]|e4].
        -- split; [|discriminate]. split; [intros _|done].
           split; [by apply Haud|]. split; [by apply Hsub|].
           split; [by apply Hjti|by apply Hat].
        -- split; [|intros e [= <-]; by apply Hat'].
           split; [discriminate|]. intros (_ & _ & _ & H4). by apply Hat in H4.
      * bind_ok. split; [|intros e [= <-]; by apply Hjti'].
        split; [discriminate|]. intros (_ & _ & H3 & _). by apply Hjti in H3.
    + bind_ok. split; [|intros e [= <-]; by apply Hsub'].
      split; [discriminate|]. intros (_ & H2 & _). by apply Hsub in H2.
  - bind_ok. split; [|intros e [= <-]; by apply Haud'].
    split; [discriminate|]. intros (H1 & _). by apply Haud in H1.
Qed.

Lemma validate_claims_unfold now claims :
  validate_claims now claims None None None =
  (_ ← validate_iat claims;
   _ ← validate_nbf now claims;
   _ ← validate_exp now claims;
   validate_identity claims).
Proof. reflexivity. Qed.

(** The claim set passes every check exactly when it is acceptable. *)
Lemma validate_claims_ok now claims :
  validate_claims now claims None None None = Ok tt <-> acceptable now claims.
Proof.
  rewrite validate_claims_unfold. unfold acceptable.
  rewrite <- validate_iat_ok, <- validate_nbf_ok, <- validate_exp_ok.
  rewrite <- (proj1 (validate_identity_iff claims)).
  destruct (validate_iat claims) as [[]|]; bind_ok;
    [|split; [discriminate|by intros [[=] _]]].
  destruct (validate_nbf now claims) as [[]|]; bind_ok;
    [|split; [discriminate|by intros (_ & [=] & _)]].
  destruct (validate_exp now claims) as [[]|]; bind_ok;
    [|split; [discriminate|by intros (_ & _ & [=] & _)]].
  split; [done|]. by intros (_ & _ & _ & ?).
Qed.

(** It is refused as expired exactly when iat and nbf pass and exp is past. *)
Lemma validate_claims_expired now claims :
  validate_claims now claims None None None = Raise ExpiredSignatureError <->
  issued_at_passes claims /\ not_before_passes now claims
  /\ exists exp, expiry claims = Some exp /\ exp < timegm now.
Proof.
  rewrite validate_claims_unfold.
  rewrite <- validate_iat_ok, <- validate_nbf_ok, <- validate_exp_expired.
  pose proof (validate_iat_raise claims) as Hiat.
  pose proof (validate_nbf_raise now claims) as Hnbf.
  destruct (validate_iat claims) as [[]|e1]; bind_ok.
  - destruct (validate_nbf now claims) as [[]|e2]; bind_ok.
    + destruct (validate_exp now claims) as [[]|e3] eqn:Hexp; bind_ok.
      * split; [|by intros (_ & _ & [=])].
        intros Hid. by apply (proj2 (validate_identity_iff claims)) in Hid.
      * split; [by intros [= ->]|]. by intros (_ & _ & [= ->]).
    + split; [|by intros (_ & [=] & _)].
      intros [= ->]. by destruct (Hnbf _ eq_refl) as [[=]|[[=]|[=]]].
  - split; [|by intros ([=] & _)].
    intros [= ->]. by destruct (Hiat _ eq_refl) as [[=]|[[=]|[=]]].
Qed.

(** Whatever else it raises is a claims error, or what [int] raised. *)
Lemma validate_claims_raise now claims e :
  validate_claims now claims None None None = Raise e ->
  e = ExpiredSignatureError \/ time_claim_error e.
Proof.
  rewrite validate_claims_unfold.
  pose proof (validate_iat_raise claims) as Hiat.
  pose proof (validate_nbf_raise now claims) as Hnbf.
  pose proof (validate_exp_raise now claims) as Hexp.
  destruct (validate_iat claims) as [[]|e1]; bind_ok;
    [|intros [= <-]; right; by apply Hiat].
  destruct (validate_nbf now claims) as [[]|e2]; bind_ok;
    [|intros [= <-]; right; by apply Hnbf].
  destruct (validate_exp now claims) as [[]|e3]; bind_ok;
    [|intros [= <-]; by apply Hexp].
  intros He. right. left.
  by apply (proj2 (validate_identity_iff claims)).
Qed.

Lemma int_of_claim_refused v :
  int_of_claim v = Raise JWTClaimsError <-> to_int v = Raise ValueError.
Proof.
  unfold int_of_claim. destruct (to_int v) as [n|e] eqn:Hv; [split; discriminate|].
  destruct (to_int_raise _ _ Hv) as [->|[->| ->]]; split; done.
Qed.

Lemma validate_iat_refused claims :
  validate_iat claims = Raise JWTClaimsError <->
  exists v, claims !! "iat" = Some v /\ to_int v = Raise ValueError.
Proof.
  unfold validate_iat. destruct (claims !! "iat") as [v|];
    [|split; [discriminate|by intros (? & [=] & _)]].
  pose proof (int_of_claim_refused v) as Href.
  destruct (int_of_claim v) as [n|e]; bind_ok.
  - split; [discriminate|]. intros (? & [= <-] & Hv). by apply Href in Hv.
  - split.
    + intros [= ->]. exists v. split; [done|]. by apply Href.
    + intros (? & [= <-] & Hv). apply Href in Hv. congruence.
Qed.

Lemma validate_nbf_refused now claims :
  validate_nbf now claims = Raise JWTClaimsError <->
  exists v, claims !! "nbf" = Some v
    /\ (to_int v = Raise ValueError
        \/ exists nbf, to_int v = Ok nbf /\ timegm now < nbf).
Proof.
  unfold validate_nbf. destruct (claims !! "nbf") as [v|];
    [|split; [discriminate|by intros (? & [=] & _)]].
  pose proof (int_of_claim_refused v) as Href.
  unfold int_of_claim in *. destruct (to_int v) as [n|e] eqn:Hv.
  - bind_ok. destruct (Z.ltb_spec (timegm now) n).
    + split; [|done]. intros _. exists v. split; [done|]. right. by exists n.
    + split; [discriminate|]. intros (? & [= <-] & [Hval|(n' & Hn' & Hlt)]).
      * congruence.
      * rewrite Hv in Hn'. injection Hn' as <-. lia.
  - destruct (to_int_raise _ _ Hv) as [->|[->| ->]]; bind_ok.
    + split; [|done]. intros _. exists v. split; [done|]. by left.
    + split; [discriminate|]. intros (? & [= <-] & [Hval|(n' & Hn' & _)]); congruence.
    + split; [discriminate|]. intros (? & [= <-] & [Hval|(n' & Hn' & _)]); congruence.
Qed.

Lemma validate_exp_refused now claims :
  validate_exp now claims = Raise JWTClaimsError <->
  exists v, claims !! "exp" = Some v /\ to_int v = Raise ValueError.
Proof.
  unfold validate_exp. destruct (claims !! "exp") as [v|];
    [|split; [discriminate|by intros (? & [=] & _)]].
  pose proof (int_of_claim_refused v) as Href.
  destruct (int_of_claim v) as [n|e]; bind_ok.
  - destruct (n <? timegm now); (split; [discriminate|]);
      intros (? & [= <-] & Hv); by apply Href in Hv.
  - split.
    + intros [= ->]. exists v. split; [done|]. by apply Href.
    + intros (? & [= <-] & Hv). apply Href in Hv. congruence.
Qed.

Lemma validate_identity_refused claims :
  validate_identity claims = Raise JWTClaimsError <-> ¬ identity_claims_pass claims.
Proof.
  destruct (validate_identity_iff claims) as [Hok Hraise].
  destruct (validate_identity claims) as [[]|e].
  - split; [discriminate|]. intros Hno. exfalso. by apply Hno, Hok.
  - rewrite (Hraise e eq_refl). split; [|done].
    intros _ Hpass. by apply Hok in Hpass.
Qed.

(** It is refused as invalid exactly when the first failing check says so. *)
Lemma validate_claims_refused now claims :
  validate_claims now claims None None None = Raise JWTClaimsError <->
  refused_claim now claims.
Proof.
  rewrite validate_claims_unfold. unfold refused_claim.
  rewrite <- validate_iat_refused, <- validate_nbf_refused.
  rewrite <- (validate_exp_refused now), <- validate_identity_refused.
  rewrite <- validate_iat_ok, <- validate_nbf_ok, <- validate_exp_ok.
  destruct (validate_iat claims) as [[]|e1]; bind_ok.
  - destruct (validate_nbf now claims) as [[]|e2]; bind_ok.
    + destruct (validate_exp now claims) as [[]|e3]; bind_ok.
      * split; [by auto 10|]. intros [[=]|[(_ & [=])|[(_ & _ & [=])|(_ & _ & _ & ?)]]].
        done.
      * split; [intros [= ->]; by auto 10|].
        intros [[=]|[(_ & [=])|[(_ & _ & ?)|(_ & _ & [=] & _)]]]. done.
    + split; [intros [= ->]; by auto 10|].
      intros [[=]|[(_ & ?)|[(_ & [=] & _)|(_ & [=] & _)]]]. done.
  - split; [intros [= ->]; by auto|].
    intros [?|[([=] & _)|[([=] & _)|([=] & _)]]]. done.
Qed.

End claims_facts.

Section jwt_facts.
Context `{!Jose.Codec}.
Variable secret : string.
Import Jose.

Lemma timegm_plus_hour now : timegm (now + timedelta_hours 1) = timegm now + 3600.
Proof.
  unfold timegm, timedelta_hours.
  replace (now + 1 * 3600 * 1000000) with (now + 3600 * 1000000) by lia.
  apply Z.div_add. lia.
Qed.

Lemma convert_time_claims_sub_exp email d :
  foldr convert_time_claim
    (<["sub" := PyStr email]> (<["exp" := PyDatetime d]> ∅)) ["exp"; "iat"; "nbf"] =
  <["sub" := PyStr email]> (<["exp" := PyInt (timegm d)]> ∅).
Proof.
  simpl. unfold convert_time_claim. simplify_map_eq.
  rewrite (insert_insert_ne _ "exp" "sub") by done.
  by rewrite insert_insert_eq.
Qed.

Lemma jwt_encode_sub_exp email d key alg :
  jwt_encode (<["sub" := PyStr email]> (<["exp" := PyDatetime d]> ∅)) key alg =
  jws_sign (<["sub" := JStr email]> (<["exp" := JInt (timegm d)]> ∅)) key alg.
Proof.
  unfold jwt_encode. cbv zeta. rewrite convert_time_claims_sub_exp.
  rewrite decide_True.
  - rewrite (omap_insert_Some _ _ _ _ (JStr email)) by done.
    rewrite (omap_insert_Some _ _ _ _ (JInt (timegm d))) by done.
    rewrite omap_empty. reflexivity.
  - apply map_Forall_insert_2; [by eexists|].
    apply map_Forall_insert_2; [by eexists|].
    apply map_Forall_empty.
Qed.

Lemma encode_eq now email :
  encode secret now email =
  jws_sign (issued_claims now email) secret "HS256".
Proof.
  unfold encode, issued_claims, __JWT_ALGORITHM.
  rewrite jwt_encode_sub_exp, timegm_plus_hour. reflexivity.
Qed.

Lemma issued_claims_scalar now email :
  map_Forall (fun _ v => scalar v) (issued_claims now email).
Proof.
  unfold issued_claims.
  apply map_Forall_insert_2; [exact I|].
  apply map_Forall_insert_2; [exact I|]. apply map_Forall_empty.
Qed.

Lemma jwt_decode_jws_sign claims key token now :
  map_Forall (fun _ v => scalar v) claims ->
  jws_sign claims key "HS256" = Ok token ->
  jwt_decode now token key ["HS256"] =
  (_ ← validate_claims now claims None None None; Ok claims).
Proof.
  intros Hclaims Hsign.
  unfold jwt_decode. rewrite (jws_verify_jws_sign _ _ _ Hsign). bind_ok.
  rewrite (json_loads_dumps _ Hclaims). bind_ok. reflexivity.
Qed.

Lemma issued_claims_sub now email :
  issued_claims now email !! "sub" = Some (JStr email).
Proof. unfold issued_claims. by simplify_map_eq. Qed.

Lemma issued_claims_expiry now email :
  expiry (issued_claims now email) = Some (timegm now + 3600).
Proof. unfold expiry, issued_claims. by simplify_map_eq. Qed.

Lemma verified_claims_jws_sign claims key token :
  map_Forall (fun _ v => scalar v) claims ->
  jws_sign claims key "HS256" = Ok token ->
  verified_claims key token = Some claims.
Proof.
  intros Hclaims Hsign. unfold verified_claims, __JWT_ALGORITHM.
  rewrite (jws_verify_jws_sign _ _ _ Hsign).
  by rewrite (json_loads_dumps _ Hclaims).
Qed.

Lemma encode_ok now email : exists token, encode secret now email = Ok token.
Proof. rewrite encode_eq. eexists. reflexivity. Qed.

(** The checks on the claim set the program issues: only exp can fail. *)
Lemma validate_claims_issued now now' email :
  validate_claims now' (issued_claims now email) None None None =
  if timegm now + 3600 <? timegm now' then Raise ExpiredSignatureError else Ok tt.
Proof.
  unfold validate_claims, validate_iat, validate_nbf, validate_exp, validate_aud,
    validate_iss, validate_sub, validate_jti, validate_at_hash, issued_claims.
  simplify_map_eq.
  destruct (timegm now + 3600 <? timegm now'); reflexivity.
Qed.

Lemma validate_token_encode now now' email token :
  encode secret now email = Ok token ->
  timegm now' ≤ timegm now + 3600 ->
  validate_token secret now' token = Ok (issued_claims now email).
Proof.
  rewrite encode_eq. intros Hsign Hle.
  unfold validate_token, __JWT_ALGORITHM.
  rewrite (jwt_decode_jws_sign _ _ _ _ (issued_claims_scalar now email) Hsign).
  clear Hsign. rewrite validate_claims_issued.
  destruct (Z.ltb_spec (timegm now + 3600) (timegm now')); [lia|]. reflexivity.
Qed.

End jwt_facts.

(** ** The session: queries and the insert *)

Section session_facts.
Import db_models.

Lemma filter_email_absent (e : string) (l : list User) :
  e ∉ email <$> l ->
  filter (fun u => bool_decide (email u = e) = true) l = [].
Proof.
  induction l as [|u l IH]; [done|]. rewrite fmap_cons, not_elem_of_cons.
  intros [Hne Hl]. rewrite filter_cons_False; [by apply IH|].
  rewrite bool_decide_eq_true. congruence.
Qed.

Lemma filter_nome_absent (n : string) (l : list User) :
  n ∉ nome <$> l ->
  filter (fun u => bool_decide (nome u = n) = true) l = [].
Proof.
  induction l as [|u l IH]; [done|]. rewrite fmap_cons, not_elem_of_cons.
  intros [Hne Hl]. rewrite filter_cons_False; [by apply IH|].
  rewrite bool_decide_eq_true. congruence.
Qed.

Lemma filter_email_unique (u : User) (l : list User) :
  NoDup (email <$> l) -> u ∈ l ->
  filter (fun v => bool_decide (email v = email u) = true) l = [u].
Proof.
  induction l as [|v l IH]; [by intros _ ?%elem_of_nil|].
  rewrite fmap_cons, NoDup_cons. intros [Hv Hl] [->|Hu]%elem_of_cons.
  - rewrite filter_cons_True by by rewrite bool_decide_eq_true.
    by rewrite filter_email_absent.
  - rewrite filter_cons_False; [by apply IH|].
    rewrite bool_decide_eq_true. intros Heq. apply Hv. rewrite Heq.
    by apply list_elem_of_fmap_2.
Qed.

Lemma filter_nonempty_elem {A} (P : A -> Prop) `{!forall x, Decision (P x)}
    (l : list A) :
  filter P l = [] -> forall x, x ∈ l -> ¬ P x.
Proof.
  intros Hnil x Hx HP.
  assert (x ∈ filter P l) as Hin by (apply list_elem_of_filter; done).
  rewrite Hnil in Hin. by apply elem_of_nil in Hin.
Qed.

Lemma filter_email_nil_absent (e : string) (l : list User) :
  filter (fun u => bool_decide (email u = e) = true) l = [] -> e ∉ email <$> l.
Proof.
  intros Hnil (u & -> & Hu)%list_elem_of_fmap.
  apply (filter_nonempty_elem _ _ Hnil u Hu). by rewrite bool_decide_eq_true.
Qed.

Lemma filter_nome_nil_absent (n : string) (l : list User) :
  filter (fun u => bool_decide (nome u = n) = true) l = [] -> n ∉ nome <$> l.
Proof.
  intros Hnil (u & -> & Hu)%list_elem_of_fmap.
  apply (filter_nonempty_elem _ _ Hnil u Hu). by rewrite bool_decide_eq_true.
Qed.

Lemma insert_fresh (u : User) (t : Db.Table) :
  email u ∉ email <$> Db.rows t ->
  Db.insert u t =
  Some {| Db.rows := Db.rows t ++ [ {| id := Some (Db.next_id t); nome := nome u;
                                       email := email u; senha := senha u |} ];
          Db.next_id := Db.next_id t + 1 |}.
Proof.
  intros Hfresh. unfold Db.insert. by rewrite bool_decide_eq_false_2.
Qed.

End session_facts.

(** ** The handlers, case by case *)

Section routes_facts.
Context `{!Jose.Codec} `{!Passlib.CryptContext}.
Variable secret : string.
Import app_models db_models.

Lemma registrar_unfold salt now user s :
  registrar secret salt now user s =
  match filter (fun u => bool_decide (email u = UserCreate.email user) = true)
               (Db.rows (Db.store s)) with
  | [] =>
      match filter (fun u => bool_decide (nome u = UserCreate.nome user) = true)
                   (Db.rows (Db.store s)) with
      | [] =>
          match Db.flush (Db.pending s ++ [new_user salt user]) (Db.store s) with
          | Some t =>
              (Token.mk <$> encode secret now (UserCreate.email user),
               {| Db.store := t; Db.pending := [] |})
          | None =>
              (Raise IntegrityError,
               {| Db.store :=
                    {| Db.rows := Db.rows (Db.store s);
                       Db.next_id :=
                         Db.sequence_after (Db.pending s ++ [new_user salt user])
                           (Db.store s) |};
                  Db.pending := [] |})
          end
      | [_] => (Raise (HTTPException 400 "Nome indisponível"), s)
      | _ => (Raise MultipleResultsFound, s)
      end
  | [_] => (Raise (HTTPException 400 "Email já registrado"), s)
  | _ => (Raise MultipleResultsFound, s)
  end.
Proof.
  unfold registrar, mbind, Db.M_bind, Db.execute, Db.scalar_one_or_none.
  destruct (filter _ (Db.rows (Db.store s))) as [|? [|? ?]]; simpl; try reflexivity.
  destruct (filter _ (Db.rows (Db.store s))) as [|? [|? ?]]; simpl; try reflexivity.
  unfold Db.commit, Db.add, Db.lift, new_user. simpl.
  destruct (Db.flush _ _); simpl; [|reflexivity].
  destruct (encode _ _ _); reflexivity.
Qed.

End routes_facts.

Section registrar_facts.
Context `{!Jose.Codec} `{!Passlib.CryptContext}.
Variable secret : string.
Import app_models db_models.

Lemma login_unfold now user s :
  login secret now user s =
  match filter (fun u => bool_decide (email u = UserLogin.email user) = true)
               (Db.rows (Db.store s)) with
  | [] => (Raise (HTTPException 401 "Credenciais inválidas"), s)
  | [u] =>
      if Passlib.verify (UserLogin.senha user) (senha u)
      then (Token.mk <$> encode secret now (UserLogin.email user), s)
      else (Raise (HTTPException 401 "Credenciais inválidas"), s)
  | _ => (Raise MultipleResultsFound, s)
  end.
Proof.
  unfold login, mbind, Db.M_bind, Db.execute, Db.scalar_one_or_none.
  destruct (filter _ (Db.rows (Db.store s))) as [|u [|? ?]]; simpl; try reflexivity.
  destruct (Passlib.verify _ _); simpl; [|reflexivity].
  unfold Db.lift. destruct (encode _ _ _); reflexivity.
Qed.

(** A registration with a fresh email and a fresh name inserts its row and
    returns the token issued for the email. *)
Lemma registrar_fresh salt now user t :
  UserCreate.email user ∉ (email <$> Db.rows t) ->
  UserCreate.nome user ∉ (nome <$> Db.rows t) ->
  Db.run_request (registrar secret salt now user) t =
  (Token.mk <$> encode secret now (UserCreate.email user), registered salt user t).
Proof.
  intros Hemail Hnome. unfold Db.run_request. rewrite registrar_unfold. simpl.
  rewrite (filter_email_absent _ _ Hemail), (filter_nome_absent _ _ Hnome).
  unfold Db.flush. rewrite insert_fresh by done. reflexivity.
Qed.

(** Whatever the outcome, the table is left as it was or gains the row of a
    registration whose email and name were both free. *)
Lemma registrar_store salt now user t :
  (Db.run_request (registrar secret salt now user) t).2 = t
  \/ ((UserCreate.email user ∉ (email <$> Db.rows t))
      /\ (UserCreate.nome user ∉ (nome <$> Db.rows t))
      /\ (Db.run_request (registrar secret salt now user) t).2 = registered salt user t).
Proof.
  destruct (decide (UserCreate.email user ∈ (email <$> Db.rows t))) as [Hin|Hemail].
  - left. unfold Db.run_request. rewrite registrar_unfold. simpl.
    destruct (filter _ (Db.rows t)) as [|? [|? ?]] eqn:Hf; try reflexivity.
    by apply filter_email_nil_absent in Hf.
  - destruct (decide (UserCreate.nome user ∈ (nome <$> Db.rows t))) as [Hin|Hnome].
    + left. unfold Db.run_request. rewrite registrar_unfold. simpl.
      rewrite (filter_email_absent _ _ Hemail).
      destruct (filter _ (Db.rows t)) as [|? [|? ?]] eqn:Hf; try reflexivity.
      by apply filter_nome_nil_absent in Hf.
    + right. by rewrite registrar_fresh.
Qed.

Lemma login_store now user t :
  (Db.run_request (login secret now user) t).2 = t.
Proof.
  unfold Db.run_request. rewrite login_unfold. simpl.
  destruct (filter _ (Db.rows t)) as [|u [|? ?]]; try reflexivity.
  destruct (Passlib.verify _ _); reflexivity.
Qed.

End registrar_facts.

(** ** The reference instance satisfies the laws *)

Module ReferenceFacts.
Import Jose Reference.

Lemma nibbles_of_byte (c : Ascii.ascii) :
  let n := Ascii.N_of_ascii c in
  unnibble (nibble (n / 16)) = Some (n / 16)%N
  /\ unnibble (nibble (n mod 16)) = Some (n mod 16)%N
  /\ Ascii.ascii_of_N (16 * (n / 16) + n mod 16) = c
  /\ Ascii.eqb (nibble (n / 16)) "." = false
  /\ Ascii.eqb (nibble (n mod 16)) "." = false
  /\ Ascii.eqb (nibble (n / 16)) "$" = false
  /\ Ascii.eqb (nibble (n mod 16)) "$" = false.
Proof.
  destruct c as [[] [] [] [] [] [] [] []]; vm_compute; repeat split; reflexivity.
Qed.

Lemma letters_decode_encode s : letters_decode (letters_encode s) = Some s.
Proof.
  induction s as [|c s IH]; [reflexivity|].
  destruct (nibbles_of_byte c) as (Hh & Hl & Hc & _).
  cbn [letters_encode letters_decode]. cbv zeta in Hh, Hl, Hc.
  rewrite Hh, Hl, IH, Hc. reflexivity.
Qed.

Lemma letters_encode_alphabet s : contains "." (letters_encode s) = false.
Proof.
  induction s as [|c s IH]; [reflexivity|].
  destruct (nibbles_of_byte c) as (_ & _ & _ & Hh & Hl & _).
  cbn [letters_encode contains]. cbv zeta in Hh, Hl.
  rewrite Hh, Hl. exact IH.
Qed.

Lemma letters_encode_no_dollar s : contains "$" (letters_encode s) = false.
Proof.
  induction s as [|c s IH]; [reflexivity|].
  destruct (nibbles_of_byte c) as (_ & _ & _ & _ & _ & Hh & Hl).
  cbn [letters_encode contains]. cbv zeta in Hh, Hl.
  rewrite Hh, Hl. exact IH.
Qed.

Lemma get_put_string s k : get_string (put_string s k) = Some (s, k).
Proof.
  induction s as [|c s IH]; [reflexivity|].
  cbn [put_string]. cbn [get_string]. rewrite IH. reflexivity.
Qed.

Lemma get_put_pos p k : get_pos (put_pos p k) = Some (p, k).
Proof.
  induction p as [p IH|p IH|]; cbn [put_pos]; cbn [get_pos];
    rewrite ?IH; reflexivity.
Qed.

Lemma get_put_Z n k : get_Z (put_Z n k) = Some (n, k).
Proof.
  destruct n; cbn [put_Z]; cbn [get_Z]; rewrite ?get_put_pos; reflexivity.
Qed.

Lemma get_put_value v k : scalar v -> get_value (put_value v k) = Some (v, k).
Proof.
  destruct v; try done; intros _; cbn [put_value]; cbn [get_value];
    rewrite ?get_put_string, ?get_put_Z; reflexivity.
Qed.

Lemma get_put_entries l fuel :
  Forall (fun kv => scalar kv.2) l ->
  (length l < fuel)%nat -> get_entries fuel (put_entries l) = Some l.
Proof.
  revert fuel. induction l as [|[key v] l IH]; intros [|fuel] Hl Hfuel;
    simpl in Hfuel; try lia.
  - reflexivity.
  - apply Forall_cons in Hl as [Hv Hl]. cbn [put_entries]. cbn [get_entries].
    rewrite get_put_string, (get_put_value _ _ Hv), IH by (done || lia).
    reflexivity.
Qed.

Lemma length_put_string s k :
  (String.length k <= String.length (put_string s k))%nat.
Proof. induction s; simpl; lia. Qed.

Lemma length_put_pos p k :
  (String.length k <= String.length (put_pos p k))%nat.
Proof. induction p; simpl; lia. Qed.

Lemma length_put_value v k :
  (String.length k <= String.length (put_value v k))%nat.
Proof.
  destruct v as [s|[|p|p]| | | | |]; simpl; try lia.
  - pose proof (length_put_string s k). lia.
  - pose proof (length_put_pos p k). lia.
  - pose proof (length_put_pos p k). lia.
Qed.

Lemma length_put_entries l : (length l < String.length (put_entries l))%nat.
Proof.
  induction l as [|[key v] l IH]; simpl; [lia|].
  pose proof (length_put_string key (put_value v (put_entries l))).
  pose proof (length_put_value v (put_entries l)). lia.
Qed.

Lemma loads_dumps o :
  map_Forall (fun _ v => scalar v) o -> json_loads (dumps o) = Object o.
Proof.
  intros Ho. unfold json_loads, loads, dumps.
  rewrite get_put_entries; [|..|apply length_put_entries].
  - simpl. by rewrite list_to_map_to_list.
  - apply Forall_forall. intros [k v] Hkv. apply (Ho k v).
    by apply elem_of_map_to_list.
Qed.

Lemma string_length_app (l s : string) :
  String.length (l +:+ s) = (String.length l + String.length s)%nat.
Proof. induction l as [|a l IH]; [reflexivity|]. rewrite app_cons. simpl. lia. Qed.

Lemma length_letters_encode s : String.length (letters_encode s) = (2 * String.length s)%nat.
Proof. induction s as [|c s IH]; simpl; lia. Qed.

Lemma crypt_verify_crypt salt secret : crypt_verify secret (crypt salt secret) = true.
Proof.
  unfold crypt_verify, crypt.
  assert ("$6$" +:+ salt +:+ "$" +:+ letters_encode secret
          = ("$6$" +:+ salt) +:+ String "$" (letters_encode secret)) as ->.
  { reflexivity. }
  rewrite split_last_app by apply letters_encode_no_dollar.
  by rewrite bool_decide_eq_true_2.
Qed.

Lemma crypt_not_plain salt secret : crypt salt secret ≠ secret.
Proof.
  unfold crypt. intros Heq. apply (f_equal String.length) in Heq.
  rewrite !string_length_app, length_letters_encode in Heq. simpl in Heq. lia.
Qed.

End ReferenceFacts.

(** The reference codec and password context. *)
Definition reference_codec : Jose.Codec :=
  {| Jose.hmac_sha256 := Reference.mac;
     Jose.base64url_encode := Reference.letters_encode;
     Jose.base64url_decode := Reference.letters_decode;
     Jose.json_dumps := Reference.dumps;
     Jose.json_loads := Reference.json_loads;
     Jose.py_int := fun _ => None;
     Jose.base64url_decode_encode := ReferenceFacts.letters_decode_encode;
     Jose.base64url_encode_alphabet := ReferenceFacts.letters_encode_alphabet;
     Jose.json_loads_dumps := ReferenceFacts.loads_dumps |}.

Definition reference_crypt : Passlib.CryptContext :=
  {| Passlib.hash := Reference.crypt;
     Passlib.verify := Reference.crypt_verify;
     Passlib.verify_hash := ReferenceFacts.crypt_verify_crypt;
     Passlib.hash_one_way := ReferenceFacts.crypt_not_plain |}.

(** ** Registration and login *)

Section credential_store.
Context `{!Jose.Codec} `{!Passlib.CryptContext}.
Variable secret : string.
Import app_models db_models.

(** C1: a registration whose email and name are both absent from the store
    succeeds: it returns a token and leaves the store with one more row, which
    holds the name, the email and the hash of the password, after the rows
    that were there.  The token validates, at every clock reading up to its
    expiry (one hour after the second of issue), to claims whose subject is
    the registered email. *)
Theorem register_then_validate_recovers_email
    (salt : string) (now : Z) (user : UserCreate.t) (t : Db.Table) :
  UserCreate.email user ∉ (email <$> Db.rows t) ->
  UserCreate.nome user ∉ (nome <$> Db.rows t) ->
  exists token,
    Db.run_request (registrar secret salt now user) t
    = (Ok (Token.mk token),
       {| Db.rows := Db.rows t ++
            [ {| id := Some (Db.next_id t);
                 nome := UserCreate.nome user;
                 email := UserCreate.email user;
                 senha := Passlib.hash salt (UserCreate.senha user) |} ];
          Db.next_id := Db.next_id t + 1 |})
    /\ forall now', Jose.timegm now' <= Jose.timegm now + 3600 ->
         exists claims,
           validate_token secret now' token = Ok claims
           /\ claims !! "sub" = Some (Jose.JStr (UserCreate.email user))
           /\ expiry claims = Some (Jose.timegm now + 3600).
Proof.
  intros Hemail Hnome.
  destruct (encode_ok secret now (UserCreate.email user)) as [token Htoken].
  exists token. split.
  - rewrite registrar_fresh, Htoken by done. reflexivity.
  - intros now' Hnow'. exists (issued_claims now (UserCreate.email user)).
    split; [by apply validate_token_encode|].
    split; [apply issued_claims_sub|apply issued_claims_expiry].
Qed.

(** C3: on a store whose emails are unique, a registration with an email
    already present fails with DuplicateEmail whatever its name; and when a
    registration fails with DuplicateName, its email was not in the store and
    its name was. *)
Theorem duplicate_email_checked_before_name
    (salt : string) (now : Z) (user : UserCreate.t) (t : Db.Table) :
  Db.unique_email t ->
  (UserCreate.email user ∈ (email <$> Db.rows t) ->
   Db.run_request (registrar secret salt now user) t = (Raise DuplicateEmail, t))
  /\ (forall t',
        Db.run_request (registrar secret salt now user) t = (Raise DuplicateName, t') ->
        (UserCreate.email user ∉ (email <$> Db.rows t))
        /\ (UserCreate.nome user ∈ (nome <$> Db.rows t))).
Proof.
  intros Huniq. split.
  - intros (u & Heq & Hu)%list_elem_of_fmap.
    unfold Db.run_request. rewrite registrar_unfold. simpl.
    rewrite Heq, (filter_email_unique u _ Huniq Hu). reflexivity.
  - intros t'. unfold Db.run_request. rewrite registrar_unfold. simpl.
    destruct (filter (fun u => bool_decide (email u = _) = true) (Db.rows t))
      as [|? [|? ?]] eqn:Hemail; [|discriminate..].
    destruct (filter (fun u => bool_decide (nome u = _) = true) (Db.rows t))
      as [|v [|? ?]] eqn:Hnome; [|intros _|discriminate].
    + unfold Db.flush. rewrite insert_fresh by by apply filter_email_nil_absent.
      destruct (encode_ok secret now (UserCreate.email user)) as [token ->].
      intros [=].
    + split; [by apply filter_email_nil_absent|].
      assert (v ∈ filter (fun u => bool_decide (nome u = UserCreate.nome user) = true)
                         (Db.rows t)) as Hv by (rewrite Hnome; apply list_elem_of_here).
      apply list_elem_of_filter in Hv as [Hv ?]. apply bool_decide_eq_true in Hv.
      rewrite <- Hv. by apply list_elem_of_fmap_2.
Qed.

(** C10: when a registration fails with DuplicateEmail or DuplicateName, the
    session ends exactly as it began, with nothing added and nothing
    committed, so the table is the one the request found. *)
Theorem failed_registration_writes_nothing
    (salt : string) (now : Z) (user : UserCreate.t) (t : Db.Table)
    (e : exn) (s' : Db.AsyncSession) :
  registrar secret salt now user (fresh_session t) = (Raise e, s') ->
  e = DuplicateEmail \/ e = DuplicateName ->
  s' = fresh_session t
  /\ (Db.run_request (registrar secret salt now user) t).2 = t.
Proof.
  intros Hrun He.
  assert (s' = fresh_session t) as ->.
  { revert Hrun. rewrite registrar_unfold. simpl.
    destruct (filter (fun u => bool_decide (email u = _) = true) (Db.rows t))
      as [|? [|? ?]]; [|congruence..].
    destruct (filter (fun u => bool_decide (nome u = _) = true) (Db.rows t))
      as [|? [|? ?]]; [|congruence..].
    destruct (Db.insert _ _).
    - destruct (encode_ok secret now (UserCreate.email user)) as [token ->].
      intros [=].
    - intros [= <- <-]. destruct He; discriminate. }
  split; [done|]. unfold Db.run_request.
  change {| Db.store := t; Db.pending := [] |} with (fresh_session t).
  by rewrite Hrun.
Qed.

(** C5: on a store whose emails are unique, a login whose email is stored and
    whose password verifies against the stored hash returns a token that
    validates to claims with the email as subject; a login with an unknown
    email and a login with a wrong password both fail with the one
    InvalidCredentials error; the store is never changed. *)
Theorem login_outcomes (now : Z) (user : UserLogin.t) (t : Db.Table) :
  Db.unique_email t ->
  (forall u, u ∈ Db.rows t -> email u = UserLogin.email user ->
     Passlib.verify (UserLogin.senha user) (senha u) = true ->
     exists token claims,
       Db.run_request (login secret now user) t = (Ok (Token.mk token), t)
       /\ validate_token secret now token = Ok claims
       /\ claims !! "sub" = Some (Jose.JStr (UserLogin.email user)))
  /\ (UserLogin.email user ∉ (email <$> Db.rows t) ->
      Db.run_request (login secret now user) t = (Raise InvalidCredentials, t))
  /\ (forall u, u ∈ Db.rows t -> email u = UserLogin.email user ->
        Passlib.verify (UserLogin.senha user) (senha u) = false ->
        Db.run_request (login secret now user) t = (Raise InvalidCredentials, t)).
Proof.
  intros Huniq. split; [|split].
  - intros u Hu Heq Hpw.
    destruct (encode_ok secret now (UserLogin.email user)) as [token Htoken].
    exists token, (issued_claims now (UserLogin.email user)). split; [|split].
    + unfold Db.run_request. rewrite login_unfold. simpl.
      rewrite <- Heq, (filter_email_unique u _ Huniq Hu), Hpw.
      rewrite Heq, Htoken. reflexivity.
    + apply (validate_token_encode secret now now _ _ Htoken). lia.
    + apply issued_claims_sub.
  - intros Habsent. unfold Db.run_request. rewrite login_unfold. simpl.
    by rewrite (filter_email_absent _ _ Habsent).
  - intros u Hu Heq Hpw. unfold Db.run_request. rewrite login_unfold. simpl.
    rewrite <- Heq. by rewrite (filter_email_unique u _ Huniq Hu), Hpw.
Qed.

End credential_store.

(** ** Reachable stores *)

Section reachable_stores.
Context `{!Jose.Codec} `{!Passlib.CryptContext}.
Variable secret : string.
Import app_models db_models.

Lemma store_invariant_empty : store_invariant [] Db.empty.
Proof.
  split; [constructor|split; [constructor|]].
  intros u Hu. by apply elem_of_nil in Hu.
Qed.

Lemma store_invariant_mono reqs req t :
  store_invariant reqs t -> store_invariant (reqs ++ [req]) t.
Proof.
  intros (He & Hn & Hrows). split; [done|split; [done|]].
  intros u Hu. destruct (Hrows u Hu) as (salt & now & user & Hin & Hrest).
  exists salt, now, user. split; [|done]. apply elem_of_app. by left.
Qed.

Lemma store_invariant_step reqs req t :
  store_invariant reqs t -> store_invariant (reqs ++ [req]) (handle secret t req).
Proof.
  intros Hinv. destruct req as [salt now user|now user]; simpl.
  - destruct (registrar_store secret salt now user t) as [->|(Hemail & Hnome & ->)];
      [by apply store_invariant_mono|].
    destruct Hinv as (He & Hn & Hrows). unfold store_invariant, registered. simpl.
    split; [|split].
    + rewrite fmap_app. apply NoDup_app. split; [done|]. split; [|apply NoDup_singleton].
      intros x Hx Hx'. apply list_elem_of_singleton in Hx'. simpl in Hx'. by subst.
    + rewrite fmap_app. apply NoDup_app. split; [done|]. split; [|apply NoDup_singleton].
      intros x Hx Hx'. apply list_elem_of_singleton in Hx'. simpl in Hx'. by subst.
    + intros u [Hu|Hu]%elem_of_app.
      * destruct (Hrows u Hu) as (salt' & now' & user' & Hin & Hrest).
        exists salt', now', user'. split; [|done]. apply elem_of_app. by left.
      * apply list_elem_of_singleton in Hu as ->. exists salt, now, user. simpl.
        split; [apply elem_of_app; right; apply list_elem_of_singleton; done|].
        repeat split; [apply Passlib.hash_one_way].
  - rewrite login_store. by apply store_invariant_mono.
Qed.

Lemma store_invariant_run reqs : store_invariant reqs (run secret reqs).
Proof.
  induction reqs as [|req reqs IH] using rev_ind.
  - apply store_invariant_empty.
  - unfold run. rewrite foldl_snoc. by apply store_invariant_step.
Qed.

(** X23: requests handled one after the other: in every store reached from a
    fresh deployment by registrations and logins, no two rows share an email,
    no two rows share a name, and the password field of every row is the hash
    the context computed for the registration that created the row, never
    that registration's plaintext. *)
Theorem reachable_store_invariants (reqs : list request) :
  NoDup (email <$> Db.rows (run secret reqs))
  /\ NoDup (nome <$> Db.rows (run secret reqs))
  /\ forall u, u ∈ Db.rows (run secret reqs) ->
       exists salt now user,
         Registrar salt now user ∈ reqs
         /\ email u = UserCreate.email user
         /\ nome u = UserCreate.nome user
         /\ senha u = Passlib.hash salt (UserCreate.senha user)
         /\ senha u ≠ UserCreate.senha user.
Proof. apply store_invariant_run. Qed.

End reachable_stores.

(** ** Registrations handled concurrently *)

Section interleaved_facts.
Context `{!Jose.Codec} `{!Passlib.CryptContext}.
Variable secret : string.
Import app_models db_models Interleaved.

Lemma advance_email_query k t :
  at_stage k = AtEmailQuery ->
  advance secret k t =
  match filter (fun u => bool_decide (email u = UserCreate.email (user k)) = true)
               (Db.rows t) with
  | [] => (move k AtNameQuery, t)
  | [_] => (move k (Returned (Raise (HTTPException 400 "Email já registrado"))), t)
  | _ => (move k (Returned (Raise MultipleResultsFound)), t)
  end.
Proof.
  intros Hat. unfold advance. rewrite Hat.
  unfold mbind, Db.M_bind, Db.execute, Db.scalar_one_or_none.
  cbn [Db.rows Db.store].
  by destruct (filter _ (Db.rows t)) as [|? [|? ?]].
Qed.

Lemma advance_name_query k t :
  at_stage k = AtNameQuery ->
  advance secret k t =
  match filter (fun u => bool_decide (nome u = UserCreate.nome (user k)) = true)
               (Db.rows t) with
  | [] => (move k AtCommit, t)
  | [_] => (move k (Returned (Raise (HTTPException 400 "Nome indisponível"))), t)
  | _ => (move k (Returned (Raise MultipleResultsFound)), t)
  end.
Proof.
  intros Hat. unfold advance. rewrite Hat.
  unfold mbind, Db.M_bind, Db.execute, Db.scalar_one_or_none.
  cbn [Db.rows Db.store].
  by destruct (filter _ (Db.rows t)) as [|? [|? ?]].
Qed.

Lemma advance_at_commit k t :
  at_stage k = AtCommit ->
  advance secret k t =
  match Db.insert (new_user (salt k) (user k)) t with
  | Some t' =>
      (move k (Returned (Token.mk <$> encode secret (now k) (UserCreate.email (user k)))),
       t')
  | None =>
      (move k (Returned (Raise IntegrityError)),
       {| Db.rows := Db.rows t; Db.next_id := Db.next_id t + 1 |})
  end.
Proof.
  intros Hat. unfold advance. rewrite Hat.
  unfold mbind, Db.M_bind, Db.add, Db.commit, Db.lift, new_user.
  cbn [Db.rows Db.store Db.pending app Db.flush Db.sequence_after].
  destruct (Db.insert _ t); [|reflexivity].
  by destruct (encode _ _ _).
Qed.

Lemma advance_returned k t r :
  at_stage k = Returned r -> advance secret k t = (k, t).
Proof. intros Hat. unfold advance. by rewrite Hat. Qed.

(** Run without interruption, the three statements of a task are the
    handler. *)
Lemma run_alone_registrar salt now user t :
  (at_stage (run_alone secret (start salt now user) t).1,
   (run_alone secret (start salt now user) t).2)
  = (Returned (Db.run_request (registrar secret salt now user) t).1,
     (Db.run_request (registrar secret salt now user) t).2).
Proof.
  unfold Db.run_request, run_alone. rewrite registrar_unfold. cbv zeta.
  rewrite (advance_email_query (start salt now user) t) by done.
  cbn [Db.rows Db.store Db.pending Interleaved.user start].
  destruct (filter (fun u => bool_decide (email u = _) = true) (Db.rows t))
    as [|? [|? ?]]; cbn [fst snd]; [|reflexivity..].
  rewrite (advance_name_query (move _ AtNameQuery) t) by done.
  cbn [Interleaved.user move].
  destruct (filter (fun u => bool_decide (nome u = _) = true) (Db.rows t))
    as [|? [|? ?]]; cbn [fst snd]; [|reflexivity..].
  rewrite (advance_at_commit (move _ AtCommit) t) by done.
  cbn [app Db.flush Db.sequence_after Interleaved.salt Interleaved.user
       Interleaved.now move].
  by destruct (Db.insert _ t).
Qed.

Lemma advance_email_free k t :
  at_stage k = AtEmailQuery ->
  UserCreate.email (user k) ∉ (email <$> Db.rows t) ->
  advance secret k t = (move k AtNameQuery, t).
Proof.
  intros Hat Hfree. rewrite advance_email_query by done.
  by rewrite (filter_email_absent _ _ Hfree).
Qed.

Lemma advance_name_free k t :
  at_stage k = AtNameQuery ->
  UserCreate.nome (user k) ∉ (nome <$> Db.rows t) ->
  advance secret k t = (move k AtCommit, t).
Proof.
  intros Hat Hfree. rewrite advance_name_query by done.
  by rewrite (filter_nome_absent _ _ Hfree).
Qed.

Lemma advance_commit k t :
  at_stage k = AtCommit ->
  UserCreate.email (user k) ∉ (email <$> Db.rows t) ->
  exists token,
    advance secret k t =
    (move k (Returned (Ok (Token.mk token))), registered (salt k) (user k) t).
Proof.
  intros Hat Hfree. rewrite advance_at_commit by done.
  destruct (encode_ok secret (now k) (UserCreate.email (user k))) as [token Htoken].
  exists token. rewrite insert_fresh by done. by rewrite Htoken.
Qed.

(** The unique constraint on the email holds under every schedule. *)
Lemma advance_unique_email k t :
  Db.unique_email t -> Db.unique_email (advance secret k t).2.
Proof.
  intros Huniq. destruct (at_stage k) eqn:Hat.
  - rewrite advance_email_query by done.
    by destruct (filter _ (Db.rows t)) as [|? [|? ?]].
  - rewrite advance_name_query by done.
    by destruct (filter _ (Db.rows t)) as [|? [|? ?]].
  - rewrite advance_at_commit by done. unfold Db.insert.
    case_bool_decide as Hin; cbn [snd]; [done|].
    unfold Db.unique_email. cbn [Db.rows]. rewrite fmap_app.
    apply NoDup_app. split; [done|]. split; [|apply NoDup_singleton].
    intros x Hx Hx'. apply list_elem_of_singleton in Hx'. cbn in Hx'. by subst.
  - by rewrite (advance_returned _ _ _ Hat).
Qed.

Lemma run_schedule_unique_email schedule tasks t :
  Db.unique_email t -> Db.unique_email (run_schedule secret schedule tasks t).2.
Proof.
  unfold run_schedule. revert tasks t.
  induction schedule as [|i schedule IH]; intros tasks t Huniq; [done|].
  cbn [foldl]. unfold resume at 2. cbn [fst snd].
  destruct (tasks !! i) as [k|]; [|by apply IH].
  pose proof (advance_unique_email k t Huniq) as Hk.
  destruct (advance secret k t) as [k' t']. by apply IH.
Qed.

Lemma resume_at i tasks t k k' t' :
  tasks !! i = Some k -> advance secret k t = (k', t') ->
  resume secret (tasks, t) i = (<[i := k']> tasks, t').
Proof. intros Hk Hadv. unfold resume. cbn [fst snd]. by rewrite Hk, Hadv. Qed.

(** C6: the name is not unique in every reachable store.  Two registrations
    under one name that is free, with two different emails that are free,
    resumed so that both run their two queries before either commits, both
    return a token and both rows are inserted: the store then holds two rows
    with the same name.  (Handled one after the other, the second would have
    been refused; and the email stays unique under every schedule, the table
    enforcing it.) *)
Theorem interleaved_registrations_share_a_name
    (salt1 salt2 : string) (now1 now2 : Z) (u1 u2 : UserCreate.t) (t : Db.Table) :
  UserCreate.nome u1 = UserCreate.nome u2 ->
  UserCreate.email u1 ≠ UserCreate.email u2 ->
  UserCreate.email u1 ∉ (email <$> Db.rows t) ->
  UserCreate.email u2 ∉ (email <$> Db.rows t) ->
  UserCreate.nome u1 ∉ (nome <$> Db.rows t) ->
  exists token1 token2,
    run_schedule secret [0; 0; 1; 1; 0; 1]%nat
      [start salt1 now1 u1; start salt2 now2 u2] t
    = ([move (start salt1 now1 u1) (Returned (Ok (Token.mk token1)));
        move (start salt2 now2 u2) (Returned (Ok (Token.mk token2)))],
       registered salt2 u2 (registered salt1 u1 t))
    /\ ¬ NoDup (nome <$> Db.rows (registered salt2 u2 (registered salt1 u1 t))).
Proof.
  intros Hname Hemail He1 He2 Hn1.
  assert (UserCreate.nome u2 ∉ (nome <$> Db.rows t)) as Hn2 by by rewrite <- Hname.
  destruct (advance_commit (move (move (start salt1 now1 u1) AtNameQuery) AtCommit) t
              eq_refl He1) as [token1 Hc1].
  assert (UserCreate.email u2 ∉ (email <$> Db.rows (registered salt1 u1 t))) as He2'.
  { unfold registered. cbn [Db.rows]. rewrite fmap_app, elem_of_app.
    intros [?|Hin]; [done|]. apply list_elem_of_singleton in Hin. cbn in Hin.
    by apply Hemail. }
  destruct (advance_commit (move (move (start salt2 now2 u2) AtNameQuery) AtCommit)
              (registered salt1 u1 t) eq_refl He2') as [token2 Hc2].
  exists token1, token2. split.
  - unfold run_schedule. cbn [foldl].
    erewrite resume_at;
      [|reflexivity|by apply advance_email_free]. cbn [list_insert].
    erewrite resume_at;
      [|reflexivity|by apply advance_name_free]. cbn [list_insert].
    erewrite resume_at;
      [|reflexivity|by apply advance_email_free]. cbn [list_insert].
    erewrite resume_at;
      [|reflexivity|by apply advance_name_free]. cbn [list_insert].
    erewrite resume_at; [|reflexivity|exact Hc1]. cbn [list_insert].
    erewrite resume_at; [|reflexivity|exact Hc2]. reflexivity.
  - unfold registered. cbn [Db.rows]. rewrite !fmap_app. cbn [fmap list_fmap nome].
    intros (_ & Hdisj & _)%NoDup_app.
    apply (Hdisj (UserCreate.nome u1)).
    + apply elem_of_app. right. apply list_elem_of_here.
    + rewrite Hname. apply list_elem_of_here.
Qed.

End interleaved_facts.

(** ** The token service *)

Section token_service.
Context `{!Jose.Codec}.
Variable secret : string.
Import Jose.

Lemma load_raise token e :
  load token = Raise e -> e = JWSError \/ e = RecursionError.
Proof.
  unfold load.
  destruct (split_last "." token) as [[si cs]|]; cbn [expect]; bind_ok;
    [|intros [= <-]; auto].
  destruct (split_first "." si) as [[hs ps]|]; cbn [expect]; bind_ok;
    [|intros [= <-]; auto].
  destruct (base64url_decode hs) as [hd|]; cbn [expect]; bind_ok;
    [|intros [= <-]; auto].
  destruct (json_loads hd) as [header| |]; bind_ok;
    [|intros [= <-]; auto..].
  destruct (base64url_decode ps) as [payload|]; cbn [expect]; bind_ok;
    [|intros [= <-]; auto].
  destruct (base64url_decode cs) as [signature|]; cbn [expect]; bind_ok;
    [discriminate|intros [= <-]; auto].
Qed.

(** How [jws.verify] fails: on a malformed token, on a signature that does
    not verify, or on a header nested too deeply. *)
Lemma jws_verify_raise token e :
  jws_verify token secret [__JWT_ALGORITHM] = Raise e ->
  (e = JWSError
   /\ (malformed token
       \/ ((exists x, load token = Ok x) /\ ¬ signature_verifies secret token)))
  \/ (e = RecursionError /\ load token = Raise RecursionError).
Proof.
  unfold signature_verifies, malformed, jws_verify.
  destruct (load token) as [[[[header payload] si] sig]|e'] eqn:Hload;
    unfold mbind, result_bind; cbv beta iota.
  - destruct (verify_signature _ _ _ _ _); [discriminate|].
    intros [= <-]. left. split; [done|]. right. split; [by eexists|].
    by intros [? [=]].
  - intros [= <-]. destruct (load_raise _ _ Hload) as [-> | ->]; auto.
Qed.

Lemma jws_verify_malformed token :
  malformed token
  \/ ((exists x, load token = Ok x) /\ ¬ signature_verifies secret token) ->
  jws_verify token secret [__JWT_ALGORITHM] = Raise JWSError.
Proof.
  unfold signature_verifies, malformed, jws_verify.
  intros [->|[[[[[header payload] si] sig] Hload] Hno]]; [reflexivity|].
  rewrite Hload in *. revert Hno. unfold mbind, result_bind. cbv beta iota.
  destruct (verify_signature _ _ _ _ _); [|done].
  intros Hno. exfalso. apply Hno. by eexists.
Qed.

(** The answer of [validate_token], by what is found in the token. *)
Lemma validate_token_cases now token :
  match verified_claims secret token with
  | Some claims =>
      ¬ too_deep secret token
      /\ validate_token secret now token
         = answer claims (validate_claims now claims None None None)
  | None =>
      (too_deep secret token
       /\ validate_token secret now token = Raise RecursionError)
      \/ (¬ too_deep secret token
          /\ validate_token secret now token = Raise TokenInvalid)
  end.
Proof.
  unfold verified_claims, too_deep, validate_token, jwt_decode.
  destruct (jws_verify token secret [__JWT_ALGORITHM]) as [payload|e] eqn:Hv.
  - assert (load token ≠ Raise RecursionError) as Hload.
    { intros Hload. unfold jws_verify in Hv. by rewrite Hload in Hv. }
    binds_ok. destruct (json_loads payload) as [claims| |] eqn:Hl; binds_ok.
    + split.
      * intros [?|(p & [= <-] & Hp)]; [done|]. congruence.
      * unfold answer.
        destruct (validate_claims now claims None None None) as [[]|e]; binds_ok;
          [reflexivity|]. by destruct e.
    + right. split; [|reflexivity].
      intros [?|(p & [= <-] & Hp)]; [done|]. congruence.
    + left. split; [|reflexivity]. right. by exists payload.
  - destruct (jws_verify_raise _ _ Hv) as [[-> _]|[-> Hload]]; binds_ok.
    + right. split; [|reflexivity].
      intros [Hload|(p & [=] & _)]. unfold jws_verify in Hv.
      by rewrite Hload in Hv.
    + left. split; [by left|reflexivity].
Qed.

Lemma answer_ok claims checked claims' :
  answer claims checked = Ok claims' <-> checked = Ok tt /\ claims' = claims.
Proof.
  unfold answer. destruct checked as [[]|e].
  - split; [by intros [= <-]|by intros [_ ->]].
  - split; [|by intros [[=] _]].
    destruct e; try discriminate; cbn [is_JWTError]; discriminate.
Qed.

Lemma answer_expired claims checked :
  (forall e, checked = Raise e -> e = ExpiredSignatureError \/ time_claim_error e) ->
  answer claims checked = Raise TokenExpired <-> checked = Raise ExpiredSignatureError.
Proof.
  unfold answer, TokenInvalid, TokenExpired, time_claim_error.
  destruct checked as [[]|e]; [split; discriminate|].
  intros He. destruct (He e eq_refl) as [->|[->|[->| ->]]];
    cbn [is_JWTError]; split; try discriminate; done.
Qed.

Lemma answer_invalid claims checked :
  (checked = Raise JWTClaimsError -> answer claims checked = Raise TokenInvalid)
  /\ (forall e, checked = Raise e ->
        e = ExpiredSignatureError \/ time_claim_error e ->
        answer claims checked = Raise TokenInvalid -> e = JWTClaimsError).
Proof.
  split; [by intros ->|]. unfold TokenInvalid, TokenExpired.
  intros e -> [->|[->|[->| ->]]]; cbn [answer is_JWTError]; try done;
    discriminate.
Qed.

(** A token validates exactly when its signature verifies and its claim set
    passes every check; the claims returned are those of the payload. *)
Lemma validate_token_ok now token claims :
  validate_token secret now token = Ok claims <->
  verified_claims secret token = Some claims /\ acceptable now claims.
Proof.
  pose proof (validate_token_cases now token) as Hcases.
  destruct (verified_claims secret token) as [claims'|].
  - destruct Hcases as [_ ->]. rewrite answer_ok, validate_claims_ok. split.
    + by intros [? ->].
    + by intros [[= ->] ?].
  - split; [|by intros [[=] _]].
    destruct Hcases as [[_ ->]|[_ ->]]; discriminate.
Qed.

(** C4: validation fails with the Expired outcome exactly when the signature
    of the token verifies, its payload is a claim set whose iat and nbf claims
    pass their checks, and the second of the clock is past the exp claim.  It
    fails with the Invalid outcome when the token is malformed, when its
    signature does not verify and when its payload is no JSON object; in all,
    exactly when no claim set can be read under a signature that verifies, or
    the first failing check of the claim set refuses it.  Both outcomes have
    status 403.  It succeeds exactly when the signature verifies and the claim
    set passes every check, and then returns the claims decoded from the
    verified payload.  What is neither is one of three exceptions of the
    interpreter that pass through: [RecursionError], exactly when the JSON of
    the header or of the payload is nested too deeply, [TypeError] and
    [OverflowError] from a time claim that [int] does not take. *)
Theorem validate_token_outcomes (now : Z) (token : string) :
  (validate_token secret now token = Raise TokenExpired <->
   exists claims exp,
     verified_claims secret token = Some claims
     /\ issued_at_passes claims
     /\ not_before_passes now claims
     /\ expiry claims = Some exp
     /\ exp < timegm now)
  /\ (malformed token
      \/ ((exists x, load token = Ok x) /\ ¬ signature_verifies secret token)
      \/ (exists payload,
            jws_verify token secret [__JWT_ALGORITHM] = Ok payload
            /\ json_loads payload = NotObject) ->
      validate_token secret now token = Raise TokenInvalid)
  /\ (validate_token secret now token = Raise TokenInvalid <->
      (verified_claims secret token = None /\ ¬ too_deep secret token)
      \/ exists claims,
           verified_claims secret token = Some claims /\ refused_claim now claims)
  /\ (forall e, validate_token secret now token = Raise e ->
        ((e = TokenExpired \/ e = TokenInvalid)
         /\ exists detail, e = HTTPException 403 detail)
        \/ e = RecursionError \/ e = TypeError \/ e = OverflowError)
  /\ (validate_token secret now token = Raise RecursionError <->
      too_deep secret token)
  /\ (forall claims,
        validate_token secret now token = Ok claims <->
        verified_claims secret token = Some claims /\ acceptable now claims).
Proof.
  pose proof (validate_token_cases now token) as Hcases.
  split; [|split; [|split; [|split; [|split]]]].
  - destruct (verified_claims secret token) as [claims|].
    + destruct Hcases as [_ ->].
      rewrite (answer_expired _ _ (validate_claims_raise now claims)).
      rewrite validate_claims_expired.
      split.
      * intros (Hiat & Hnbf & exp & Hexp & Hlt). by exists claims, exp.
      * intros (? & exp & [= <-] & Hiat & Hnbf & Hexp & Hlt). eauto.
    + split; [|by intros (? & ? & [=] & _)].
      destruct Hcases as [[_ ->]|[_ ->]]; discriminate.
  - intros Hbad.
    assert (verified_claims secret token = None /\ ¬ too_deep secret token)
      as [Hnone Hdeep].
    { unfold verified_claims, too_deep.
      destruct Hbad as [Hbad|[Hbad|(payload & Hv & Hl)]].
      - rewrite (jws_verify_malformed token (or_introl Hbad)).
        split; [done|]. unfold malformed in Hbad. rewrite Hbad.
        by intros [[=]|(? & [=] & _)].
      - rewrite (jws_verify_malformed token (or_intror Hbad)).
        split; [done|]. destruct Hbad as [[x Hx] _]. rewrite Hx.
        by intros [[=]|(? & [=] & _)].
      - rewrite Hv, Hl. split; [done|].
        intros [Hload|(p & [= <-] & Hp)]; [|congruence].
        unfold jws_verify in Hv. by rewrite Hload in Hv. }
    rewrite Hnone in Hcases. by destruct Hcases as [[? _]|[_ ->]].
  - destruct (verified_claims secret token) as [claims|].
    + destruct Hcases as [_ ->]. split.
      * intros Hinv. right. exists claims. split; [done|].
        apply validate_claims_refused.
        destruct (validate_claims now claims None None None) as [[]|e] eqn:Hc;
          [discriminate|].
        f_equal. eapply (proj2 (answer_invalid claims (Raise e))); [done| |done].
        by apply (validate_claims_raise now claims).
      * intros [[[=] _]|(? & [= <-] & Href)].
        apply validate_claims_refused in Href. by rewrite Href.
    + destruct Hcases as [[Hdeep ->]|[Hdeep ->]].
      * split; [discriminate|]. by intros [[_ ?]|(? & [=] & _)].
      * split; [|done]. intros _. by left.
  - intros e. destruct (verified_claims secret token) as [claims|].
    + destruct Hcases as [_ ->]. unfold answer.
      destruct (validate_claims now claims None None None) as [[]|e'] eqn:Hc;
        [discriminate|].
      destruct (validate_claims_raise _ _ _ Hc) as [->|[->|[->| ->]]];
        cbn [is_JWTError]; intros [= <-]; auto.
      * left. split; [by left|by eexists].
      * left. split; [by right|by eexists].
    + destruct Hcases as [[_ ->]|[_ ->]]; intros [= <-]; auto.
      left. split; [by right|by eexists].
  - destruct (verified_claims secret token) as [claims|].
    + destruct Hcases as [Hdeep ->]. split; [|done]. unfold answer.
      destruct (validate_claims now claims None None None) as [[]|e'] eqn:Hc;
        [discriminate|].
      destruct (validate_claims_raise _ _ _ Hc) as [->|[->|[->| ->]]];
        cbn [is_JWTError]; discriminate.
    + destruct Hcases as [[Hdeep ->]|[Hdeep ->]]; [done|].
      split; [discriminate|done].
  - intros claims. apply validate_token_ok.
Qed.

(** C9: the token issued for a subject is the signature of the claim set
    with exactly the two claims sub (the subject) and exp (the second of
    issue plus 3600), and nothing else enters it: two issues for the same
    subject at clock readings within the same second return the same
    string. *)
Theorem encode_same_second (email : string) (now1 now2 : Z) :
  timegm now1 = timegm now2 ->
  let claims : gmap string jvalue :=
    <["sub" := JStr email]> (<["exp" := JInt (timegm now1 + 3600)]> ∅) in
  encode secret now1 email = jws_sign claims secret __JWT_ALGORITHM
  /\ dom claims = ({["sub"; "exp"]} : gset string)
  /\ encode secret now2 email = encode secret now1 email
  /\ exists token,
       encode secret now1 email = Ok token
       /\ verified_claims secret token = Some claims.
Proof.
  intros Hsec claims. split; [|split; [|split]].
  - apply encode_eq.
  - unfold claims. rewrite !dom_insert_L, dom_empty_L. set_solver.
  - rewrite !encode_eq. unfold issued_claims. by rewrite Hsec.
  - destruct (encode_ok secret now1 email) as [token Htoken]. exists token.
    split; [done|]. rewrite encode_eq in Htoken.
    apply verified_claims_jws_sign; [apply issued_claims_scalar|done].
Qed.

End token_service.

(** ** The theorems at the sample data *)

Lemma register_then_validate_recovers_email_witness :
  let user := Sample.alice in
  (app_models.UserCreate.email user ∉ (db_models.email <$> Db.rows Sample.table))
  /\ (app_models.UserCreate.nome user ∉ (db_models.nome <$> Db.rows Sample.table))
  /\ exists token,
       Db.run_request
         (@registrar reference_codec reference_crypt Sample.secret "Na7" Sample.t0 user)
         Sample.table
       = (Ok (app_models.Token.mk token),
          {| Db.rows := Db.rows Sample.table ++
               [ {| db_models.id := Some (Db.next_id Sample.table);
                    db_models.nome := app_models.UserCreate.nome user;
                    db_models.email := app_models.UserCreate.email user;
                    db_models.senha :=
                      @Passlib.hash reference_crypt "Na7"
                        (app_models.UserCreate.senha user) |} ];
             Db.next_id := Db.next_id Sample.table + 1 |})
       /\ forall now', Jose.timegm now' <= Jose.timegm Sample.t0 + 3600 ->
            exists claims,
              @validate_token reference_codec Sample.secret now' token = Ok claims
              /\ claims !! "sub" = Some (Jose.JStr (app_models.UserCreate.email user))
              /\ @expiry reference_codec claims = Some (Jose.timegm Sample.t0 + 3600).
Proof.
  assert (app_models.UserCreate.email Sample.alice
            ∉ (db_models.email <$> Db.rows Sample.table)) as Hemail
    by (apply (bool_decide_unpack _); vm_compute; exact I).
  assert (app_models.UserCreate.nome Sample.alice
            ∉ (db_models.nome <$> Db.rows Sample.table)) as Hnome
    by (apply (bool_decide_unpack _); vm_compute; exact I).
  split; [exact Hemail|]. split; [exact Hnome|].
  exact (@register_then_validate_recovers_email reference_codec reference_crypt
           Sample.secret "Na7" Sample.t0 Sample.alice Sample.table Hemail Hnome).
Defined.

Lemma duplicate_email_checked_before_name_witness :
  Db.unique_email Sample.table
  /\ (app_models.UserCreate.email Sample.robert
        ∈ (db_models.email <$> Db.rows Sample.table))
  /\ Db.run_request
       (@registrar reference_codec reference_crypt Sample.secret "Na7" Sample.t0
          Sample.robert)
       Sample.table
     = (Raise DuplicateEmail, Sample.table).
Proof.
  assert (Db.unique_email Sample.table) as Huniq
    by (apply (bool_decide_unpack _); vm_compute; exact I).
  assert (app_models.UserCreate.email Sample.robert
            ∈ (db_models.email <$> Db.rows Sample.table)) as Hin
    by (apply (bool_decide_unpack _); vm_compute; exact I).
  split; [exact Huniq|]. split; [exact Hin|].
  exact (proj1 (@duplicate_email_checked_before_name reference_codec reference_crypt
                  Sample.secret "Na7" Sample.t0 Sample.robert Sample.table Huniq) Hin).
Defined.

Lemma failed_registration_writes_nothing_witness :
  @registrar reference_codec reference_crypt Sample.secret "Na7" Sample.t0
    Sample.robert (fresh_session Sample.table)
  = (Raise DuplicateEmail, fresh_session Sample.table)
  /\ (Db.run_request
        (@registrar reference_codec reference_crypt Sample.secret "Na7" Sample.t0
           Sample.robert)
        Sample.table).2 = Sample.table.
Proof.
  assert (@registrar reference_codec reference_crypt Sample.secret "Na7" Sample.t0
            Sample.robert (fresh_session Sample.table)
          = (Raise DuplicateEmail, fresh_session Sample.table)) as Hrun
    by (vm_compute; reflexivity).
  split; [exact Hrun|].
  exact (proj2 (@failed_registration_writes_nothing reference_codec reference_crypt
                  Sample.secret "Na7" Sample.t0 Sample.robert Sample.table
                  DuplicateEmail (fresh_session Sample.table) Hrun
                  (or_introl eq_refl))).
Defined.

Lemma login_outcomes_witness :
  Db.unique_email Sample.table
  /\ exists token claims,
       Db.run_request
         (@login reference_codec reference_crypt Sample.secret Sample.t0 Sample.bob_login)
         Sample.table
       = (Ok (app_models.Token.mk token), Sample.table)
       /\ @validate_token reference_codec Sample.secret Sample.t0 token = Ok claims
       /\ claims !! "sub" = Some (Jose.JStr "bob@example.org").
Proof.
  assert (Db.unique_email Sample.table) as Huniq
    by (apply (bool_decide_unpack _); vm_compute; exact I).
  split; [exact Huniq|].
  refine (proj1 (@login_outcomes reference_codec reference_crypt Sample.secret
                   Sample.t0 Sample.bob_login Sample.table Huniq) _ _ _ _).
  - apply list_elem_of_here.
  - reflexivity.
  - vm_compute. reflexivity.
Defined.

(** C4, read as: Expired exactly when the signature verifies and the clock
    is past the exp claim, fails on a token whose nbf claim is ahead of the
    clock: the signature verifies and the clock is past the exp claim, yet
    the token is refused as invalid, not as expired, the nbf claim being
    checked first. *)
Lemma validate_token_expired_counterexample :
  @Jose.jws_sign reference_codec Cases.stale_claims Sample.secret "HS256"
  = Ok Cases.stale_token
  /\ @signature_verifies reference_codec Sample.secret Cases.stale_token
  /\ @verified_claims reference_codec Sample.secret Cases.stale_token
     = Some Cases.stale_claims
  /\ @expiry reference_codec Cases.stale_claims = Some 1
  /\ 1 < Jose.timegm Sample.t0
  /\ @validate_token reference_codec Sample.secret Sample.t0 Cases.stale_token
     = Raise TokenInvalid
  /\ ¬ (@validate_token reference_codec Sample.secret Sample.t0 Cases.stale_token
        = Raise TokenExpired
        <-> @signature_verifies reference_codec Sample.secret Cases.stale_token
            /\ exists claims exp,
                 @verified_claims reference_codec Sample.secret Cases.stale_token
                 = Some claims
                 /\ @expiry reference_codec claims = Some exp
                 /\ exp < Jose.timegm Sample.t0).
Proof.
  assert (@Jose.jws_sign reference_codec Cases.stale_claims Sample.secret "HS256"
          = Ok Cases.stale_token) as Hsign by (vm_compute; reflexivity).
  assert (map_Forall (fun _ v => Jose.scalar v) Cases.stale_claims) as Hscalar.
  { unfold Cases.stale_claims.
    apply map_Forall_insert_2; [exact I|].
    apply map_Forall_insert_2; [exact I|]. apply map_Forall_empty. }
  assert (@signature_verifies reference_codec Sample.secret Cases.stale_token)
    as Hsig.
  { eexists. exact (@jws_verify_jws_sign reference_codec _ _ _ Hsign). }
  assert (@verified_claims reference_codec Sample.secret Cases.stale_token
          = Some Cases.stale_claims) as Hclaims
    by exact (@verified_claims_jws_sign reference_codec _ _ _ Hscalar Hsign).
  assert (@expiry reference_codec Cases.stale_claims = Some 1) as Hexp
    by (vm_compute; reflexivity).
  assert (1 < Jose.timegm Sample.t0) as Hpast by (vm_compute; reflexivity).
  assert (@validate_token reference_codec Sample.secret Sample.t0 Cases.stale_token
          = Raise TokenInvalid) as Hinvalid by (vm_compute; reflexivity).
  split; [exact Hsign|]. split; [exact Hsig|]. split; [exact Hclaims|].
  split; [exact Hexp|]. split; [exact Hpast|]. split; [exact Hinvalid|].
  intros [_ Hexpired].
  assert (@validate_token reference_codec Sample.secret Sample.t0 Cases.stale_token
          = Raise TokenExpired) as Hno.
  { apply Hexpired. split; [exact Hsig|].
    exists Cases.stale_claims, 1. split; [exact Hclaims|]. split; [exact Hexp|].
    exact Hpast. }
  rewrite Hinvalid in Hno. discriminate Hno.
Qed.

Lemma encode_same_second_witness :
  Jose.timegm Sample.t0 = Jose.timegm Sample.t1
  /\ @encode reference_codec Sample.secret Sample.t1 "bob@example.org"
     = @encode reference_codec Sample.secret Sample.t0 "bob@example.org".
Proof.
  assert (Jose.timegm Sample.t0 = Jose.timegm Sample.t1) as Hsec
    by (vm_compute; reflexivity).
  split; [exact Hsec|].
  exact (proj1 (proj2 (proj2
           (@encode_same_second reference_codec Sample.secret "bob@example.org"
              Sample.t0 Sample.t1 Hsec)))).
Defined.

(** ** The feeds as read *)

Section feed_facts.
Import Pandas Aggregate.
Variable remote : Remote.

Lemma read_csv_ok url names dtype df :
  read_csv remote url names dtype = Ok df ->
  exists rows,
    remote url = Some rows
    /\ df = {| columns := names; data := rows |}
    /\ Forall (fun row =>
         length row = length names
         /\ forallb (fun '(c, v) => conforms (assoc c dtype) v) (zip names row) = true)
         rows.
Proof.
  unfold read_csv. destruct (remote url) as [rows|]; [|discriminate].
  destruct (forallb _ rows) eqn:Hall; [|discriminate].
  intros [= <-]. exists rows. split; [done|]. split; [done|].
  apply Forall_forall. intros row Hrow.
  rewrite forallb_forall in Hall. specialize (Hall row).
  rewrite <- list_elem_of_In in Hall. specialize (Hall Hrow).
  apply andb_true_iff in Hall as [Hlen Hconf].
  by apply bool_decide_eq_true in Hlen.
Qed.

Lemma kills_feed_ok url df :
  __read_data remote url __COMBAT_COLUMNS __COMBAT_DYPES = Ok df ->
  exists rows,
    remote url = Some rows
    /\ df = {| columns := __COMBAT_COLUMNS; data := rows |}
    /\ Forall kills_row rows.
Proof.
  intros (rows & Hurl & -> & Hrows)%read_csv_ok.
  exists rows. split; [done|]. split; [done|].
  eapply Forall_impl; [exact Hrows|]. clear. intros row [Hlen Hconf].
  destruct row as [|a [|b [|c [|? ?]]]]; try discriminate.
  destruct a, b, c; try discriminate. by eexists _, _, _.
Qed.

End feed_facts.

Section player_data_facts.
Import Pandas Aggregate.
Variable remote : Remote.

Lemma map_rows_ok f rows rows' :
  map_rows f rows = Ok rows' -> Forall2 (fun r r' => f r = Ok r') rows rows'.
Proof.
  revert rows'. induction rows as [|r rows IH]; intros rows'; simpl.
  - intros [= <-]. constructor.
  - destruct (f r) as [r'|] eqn:Hr; [|discriminate]. simpl.
    destruct (map_rows f rows) as [rs|]; [|discriminate]. simpl.
    intros [= <-]. constructor; [done|]. by apply IH.
Qed.

Lemma base_row_ok row r1 r2 :
  length row = 6%nat ->
  forallb (fun '(c, v) =>
     conforms (assoc c [("id", int); ("name", str); ("alliance_id", float);
                        ("points", int); ("rank", int); ("towns", int)]) v)
    (zip base_columns row) = true ->
  apply_at 1 unquote_plus_cell row = Ok r1 ->
  apply_at 2 (fun c => astype_int (fillna (-1) c)) r1 = Ok r2 ->
  base_row row r2.
Proof.
  intros Hlen Hconf.
  destruct row as [|a [|b [|c [|d [|e [|f [|? ?]]]]]]]; try discriminate.
  destruct a, b, c, d, e, f; try discriminate; simpl;
    intros [= <-]; simpl; intros [= <-]; by eexists _, _, _, _, _, _.
Qed.

Lemma player_data_ok df :
  __player_data remote = Ok df ->
  exists players,
    remote players_url = Some players
    /\ columns df = base_columns
    /\ Forall2 base_row players (data df).
Proof.
  unfold __player_data.
  destruct (__read_data remote players_url _ _) as [d0|] eqn:Hread; [|discriminate].
  apply read_csv_ok in Hread as (players & Hurl & -> & Hrows). simpl.
  unfold set_apply at 2. simpl.
  destruct (map_rows _ players) as [rows1|] eqn:H1; [|discriminate]. simpl.
  unfold set_apply. simpl.
  destruct (map_rows _ rows1) as [rows2|] eqn:H2; [|discriminate]. simpl.
  intros [= <-]. exists players. split; [done|]. split; [done|]. simpl.
  apply map_rows_ok in H1, H2. clear Hurl.
  revert rows2 H2. induction H1 as [|r r1 rows rows1 Hr1 _ IH]; intros rows2 H2.
  - inversion H2. constructor.
  - inversion H2 as [|? r2 ? rows2' Hr2 H2']; subst.
    apply Forall_cons in Hrows as [[Hlen Hconf] Hrows].
    constructor; [|by apply IH].
    by eapply base_row_ok.
Qed.

End player_data_facts.

(** ** The left join *)

Section join_facts.
Import Pandas Aggregate.

Lemma upcast_cases ri keys R :
  upcast ri keys R = id \/ upcast ri keys R = astype_float.
Proof. unfold upcast. destruct (forallb _ keys); auto. Qed.

Lemma upcast_joined_cells ri keys R r :
  r ∈ R -> joined_cells R (upcast ri keys R <$> r).
Proof.
  intros Hr. exists r. split; [done|].
  destruct (upcast_cases ri keys R) as [-> | ->]; [left|by right].
  by rewrite list_fmap_id.
Qed.

Lemma elem_of_left_join row li ri w L R :
  row ∈ left_join li ri w L R <->
  exists l, l ∈ L
    /\ row ∈ join_row ri w (upcast ri ((fun l => default NaN (l !! li)) <$> L) R)
              R (default NaN (l !! li)) l.
Proof.
  unfold left_join. cbv zeta. rewrite list_elem_of_join. split.
  - intros (rows & Hrow & (l & -> & Hl)%list_elem_of_fmap). eauto.
  - intros (l & Hl & Hrow). eexists. split; [exact Hrow|].
    apply list_elem_of_fmap. eauto.
Qed.

(** Every row of the join is a left row followed by a right row that matches
    its key, or by NaN when no right row matches. *)
Lemma elem_of_join_row row ri w cast R key l :
  row ∈ join_row ri w cast R key l <->
  (row = l ++ replicate w NaN /\ forall r, r ∈ R -> default NaN (r !! ri) ≠ key)
  \/ (exists r, r ∈ R /\ default NaN (r !! ri) = key /\ row = l ++ (cast <$> r)).
Proof.
  unfold join_row.
  destruct (filter _ R) as [|m ms] eqn:Hf.
  - rewrite list_elem_of_singleton. split.
    + intros ->. left. split; [done|]. intros r Hr Hkey.
      eapply (filter_nonempty_elem _ _ Hf r Hr). exact Hkey.
    + intros [[-> _]|(r & Hr & Hkey & _)]; [done|].
      exfalso. eapply (filter_nonempty_elem _ _ Hf r Hr). exact Hkey.
  - rewrite <- Hf. rewrite list_elem_of_fmap. split.
    + intros (r & -> & [Hkey Hr]%list_elem_of_filter). right. eauto.
    + intros [[_ Hno]|(r & Hr & Hkey & ->)].
      * exfalso. assert (m ∈ filter (fun r => default NaN (r !! ri) = key) R) as Hm
          by (rewrite Hf; apply list_elem_of_here).
        apply list_elem_of_filter in Hm as [Hkey Hm]. by apply (Hno m).
      * exists r. split; [done|]. by apply list_elem_of_filter.
Qed.

(** No left row is lost. *)
Lemma join_row_nonempty ri w cast R key l :
  exists x, l ++ x ∈ join_row ri w cast R key l
            /\ (x = replicate w NaN \/ exists r, r ∈ R /\ x = cast <$> r).
Proof.
  unfold join_row. destruct (filter _ R) as [|m ms] eqn:Hf.
  - exists (replicate w NaN). split; [apply list_elem_of_here|by left].
  - exists (cast <$> m). split; [apply list_elem_of_here|right].
    assert (m ∈ filter (fun r => default NaN (r !! ri) = key) R) as Hm
      by (rewrite Hf; apply list_elem_of_here).
    apply list_elem_of_filter in Hm as [_ Hm]. eauto.
Qed.

Lemma left_join_keeps l li ri w L R :
  l ∈ L ->
  exists x, l ++ x ∈ left_join li ri w L R
            /\ (x = replicate w NaN \/ joined_cells R x).
Proof.
  intros Hl.
  destruct (join_row_nonempty ri w
              (upcast ri ((fun l => default NaN (l !! li)) <$> L) R) R
              (default NaN (l !! li)) l) as (x & Hx & Hcase).
  exists x. split; [apply elem_of_left_join; eauto|].
  destruct Hcase as [->|(r & Hr & ->)]; [by left|right].
  by apply upcast_joined_cells.
Qed.

Lemma left_join_unmatched l li ri w L R :
  l ∈ L ->
  default NaN (l !! li) ∉ ((fun r => default NaN (r !! ri)) <$> R) ->
  l ++ replicate w NaN ∈ left_join li ri w L R.
Proof.
  intros Hl Hno. apply elem_of_left_join. exists l. split; [done|].
  apply elem_of_join_row. left. split; [done|].
  intros r Hr Hkey. apply Hno. rewrite <- Hkey.
  by apply (list_elem_of_fmap_2 (fun r => default NaN (r !! ri))).
Qed.

Lemma left_join_inv row li ri w L R :
  row ∈ left_join li ri w L R ->
  exists l x, l ∈ L /\ row = l ++ x /\ (x = replicate w NaN \/ joined_cells R x).
Proof.
  intros (l & Hl & Hrow)%elem_of_left_join.
  apply elem_of_join_row in Hrow as [[-> _]|(r & Hr & _ & ->)]; [eauto 6|].
  exists l. eexists. split; [done|]. split; [reflexivity|]. right.
  by apply upcast_joined_cells.
Qed.

End join_facts.

(** ** The aggregation, stage by stage *)

Section aggregation_facts.
Import Pandas Aggregate.
Variable remote : Remote.

Lemma merge_combat base combat :
  merge {| columns := base_columns; data := base |}
    (rename [("rank", "combat_rank"); ("points", "combat_points")]
       {| columns := __COMBAT_COLUMNS; data := combat |})
    "id" "player_id" ("_x", "_y")
  = Ok {| columns := base_columns ++ ["combat_rank"; "player_id"; "combat_points"];
          data := left_join 0 1 3 base combat |}.
Proof. reflexivity. Qed.

Lemma merge_attack rows attack :
  merge {| columns := base_columns ++ ["combat_rank"; "player_id"; "combat_points"];
           data := rows |}
    (rename [("rank", "attack_rank"); ("points", "attack_points")]
       {| columns := __COMBAT_COLUMNS; data := attack |})
    "id" "player_id" ("", "_atk")
  = Ok {| columns := base_columns ++
                     ["combat_rank"; "player_id"; "combat_points";
                      "attack_rank"; "player_id_atk"; "attack_points"];
          data := left_join 0 1 3 rows attack |}.
Proof. reflexivity. Qed.

Lemma merge_defense rows defense :
  merge {| columns := base_columns ++
                      ["combat_rank"; "player_id"; "combat_points";
                       "attack_rank"; "player_id_atk"; "attack_points"];
           data := rows |}
    (rename [("rank", "defense_rank"); ("points", "defense_points")]
       {| columns := __COMBAT_COLUMNS; data := defense |})
    "id" "player_id" ("", "_def")
  = Ok {| columns := merged_columns; data := left_join 0 1 3 rows defense |}.
Proof. reflexivity. Qed.

Lemma drop_join_keys rows :
  drop ["player_id"; "player_id_atk"; "player_id_def"]
    {| columns := merged_columns; data := rows |}
  = Ok {| columns := result_columns; data := keep kept <$> rows |}.
Proof. reflexivity. Qed.

Lemma sort_by_rank rows :
  sort_values "rank" {| columns := result_columns; data := rows |}
  = Ok {| columns := result_columns; data := merge_sort (row_le 4) rows |}.
Proof. reflexivity. Qed.

Lemma get_players_data_ok df :
  get_players_data remote = Ok df ->
  exists players combat attack defense base,
    remote players_url = Some players
    /\ remote kills_all_url = Some combat
    /\ remote kills_att_url = Some attack
    /\ remote kills_def_url = Some defense
    /\ Forall2 base_row players base
    /\ Forall kills_row combat
    /\ Forall kills_row attack
    /\ Forall kills_row defense
    /\ df = {| columns := result_columns;
               data := merge_sort (row_le 4)
                         (keep kept <$> joined base combat attack defense) |}.
Proof.
  unfold get_players_data.
  destruct (__player_data remote) as [[cols base]|] eqn:Hbase; [|discriminate].
  apply player_data_ok in Hbase as (players & Hplayers & Hcols & Hbase).
  simpl in Hcols, Hbase. subst cols. bind_ok.
  unfold __player_combat_data.
  destruct (__read_data remote kills_all_url _ _) as [d1|] eqn:H1; [|discriminate].
  apply kills_feed_ok in H1 as (combat & Hcombat & -> & Hc). fmap_ok. bind_ok.
  rewrite merge_combat. bind_ok.
  unfold __player_attack_data.
  destruct (__read_data remote kills_att_url _ _) as [d2|] eqn:H2; [|discriminate].
  apply kills_feed_ok in H2 as (attack & Hattack & -> & Ha). fmap_ok. bind_ok.
  rewrite merge_attack. bind_ok.
  unfold __player_defense_data.
  destruct (__read_data remote kills_def_url _ _) as [d3|] eqn:H3; [|discriminate].
  apply kills_feed_ok in H3 as (defense & Hdefense & -> & Hd). fmap_ok. bind_ok.
  rewrite merge_defense. bind_ok.
  rewrite drop_join_keys. bind_ok. rewrite sort_by_rank.
  intros [= <-]. exists players, combat, attack, defense, base.
  repeat (split; [done|]). reflexivity.
Qed.

End aggregation_facts.

(** ** Records of the aggregation *)

Section record_facts.
Import Pandas Aggregate.

Lemma kills_or_nan_length x R :
  Forall kills_row R -> x = replicate 3 NaN \/ joined_cells R x -> length x = 3%nat.
Proof.
  intros HR [->|(r & Hr & Hx)]; [reflexivity|].
  rewrite Forall_forall in HR. destruct (HR r Hr) as (? & ? & ? & ->).
  by destruct Hx as [-> | ->].
Qed.

(** A joined row is a base record followed by three triples. *)
Lemma joined_inv row base combat attack defense :
  row ∈ joined base combat attack defense ->
  exists b x y z,
    b ∈ base /\ row = ((b ++ x) ++ y) ++ z
    /\ (x = replicate 3 NaN \/ joined_cells combat x)
    /\ (y = replicate 3 NaN \/ joined_cells attack y)
    /\ (z = replicate 3 NaN \/ joined_cells defense z).
Proof.
  unfold joined.
  intros (l2 & z & Hl2 & -> & Hz)%left_join_inv.
  apply left_join_inv in Hl2 as (l1 & y & Hl1 & -> & Hy).
  apply left_join_inv in Hl1 as (b & x & Hb & -> & Hx).
  exists b, x, y, z. eauto 10.
Qed.

(** No base record is lost by the three joins. *)
Lemma joined_keeps b base combat attack defense :
  b ∈ base ->
  exists x y z,
    ((b ++ x) ++ y) ++ z ∈ joined base combat attack defense
    /\ (x = replicate 3 NaN \/ joined_cells combat x)
    /\ (y = replicate 3 NaN \/ joined_cells attack y)
    /\ (z = replicate 3 NaN \/ joined_cells defense z).
Proof.
  intros Hb. unfold joined.
  destruct (left_join_keeps b 0 1 3 base combat Hb) as (x & Hx & Hx').
  destruct (left_join_keeps _ 0 1 3 _ attack Hx) as (y & Hy & Hy').
  destruct (left_join_keeps _ 0 1 3 _ defense Hy) as (z & Hz & Hz').
  exists x, y, z. eauto.
Qed.

(** The drop keeps the base record and two cells of each triple. *)
Lemma keep_joined_row b x y z :
  length b = 6%nat -> length x = 3%nat -> length y = 3%nat -> length z = 3%nat ->
  exists rest,
    keep kept (((b ++ x) ++ y) ++ z) = b ++ rest
    /\ length rest = 6%nat
    /\ (x = replicate 3 NaN -> y = replicate 3 NaN -> z = replicate 3 NaN ->
        rest = replicate 6 NaN).
Proof.
  intros Hb Hx Hy Hz.
  destruct b as [|b0 [|b1 [|b2 [|b3 [|b4 [|b5 [|? ?]]]]]]]; try discriminate.
  destruct x as [|x0 [|x1 [|x2 [|? ?]]]]; try discriminate.
  destruct y as [|y0 [|y1 [|y2 [|? ?]]]]; try discriminate.
  destruct z as [|z0 [|z1 [|z2 [|? ?]]]]; try discriminate.
  exists [x0; x2; y0; y2; z0; z2]. split; [reflexivity|]. split; [reflexivity|].
  by intros [= -> _ ->] [= -> _ ->] [= -> _ ->].
Qed.

Lemma base_row_length row record : base_row row record -> length record = 6%nat.
Proof. by intros (? & ? & ? & ? & ? & ? & _ & ->). Qed.

Lemma base_records_length players base :
  Forall2 base_row players base -> Forall (fun b => length b = 6%nat) base.
Proof.
  intros H. apply Forall_forall. intros b Hb.
  apply list_elem_of_lookup in Hb as [k Hk].
  destruct (Forall2_lookup_r _ _ _ _ _ H Hk) as (row & _ & Hrow).
  by eapply base_row_length.
Qed.

Lemma base_records_rank players base b :
  Forall2 base_row players base -> b ∈ base ->
  exists rk, b !! 4%nat = Some (Int rk).
Proof.
  intros H Hb. apply list_elem_of_lookup in Hb as [k Hk].
  destruct (Forall2_lookup_r _ _ _ _ _ H Hk)
    as (row & _ & (? & ? & ? & ? & rk & ? & _ & ->)).
  by exists rk.
Qed.

End record_facts.

(** ** Sorting by a column *)

Section sort_facts.
Import Pandas Aggregate.

Lemma cell_le_total a b : cell_le a b \/ cell_le b a.
Proof.
  destruct a as [x|s|], b as [y|t|]; simpl; auto.
  - lia.
  - apply (total String.le).
Qed.

#[global] Instance row_le_total i : Total (row_le i).
Proof. intros r1 r2. apply cell_le_total. Qed.

(** Rows sorted by a column that holds integers carry ascending integers. *)
Lemma sorted_integer_column i rows :
  Forall (fun r => exists k, r !! i = Some (Int k)) rows ->
  Sorted (row_le i) rows ->
  exists ks : list Z,
    (fun r => r !! i) <$> rows = (fun k => Some (Int k)) <$> ks
    /\ Sorted Z.le ks.
Proof.
  induction rows as [|r rows IH]; intros Hint Hsorted.
  - exists []. split; [reflexivity|constructor].
  - apply Forall_cons in Hint as [[k Hk] Hint].
    apply Sorted_inv in Hsorted as [Hsorted Hhd].
    destruct (IH Hint Hsorted) as (ks & Hks & Hsks).
    exists (k :: ks). split.
    + rewrite !fmap_cons, Hk, Hks. reflexivity.
    + constructor; [done|].
      destruct rows as [|r' rows]; destruct ks as [|k' ks]; try discriminate;
        constructor.
      apply HdRel_inv in Hhd. unfold row_le in Hhd.
      rewrite !fmap_cons in Hks. injection Hks as Hk' _.
      rewrite Hk, Hk' in Hhd. exact Hhd.
Qed.

End sort_facts.

(** ** The aggregated players *)

Section aggregation.
Import Pandas Aggregate.
Variable remote : Remote.

Lemma result_row_inv row players base combat attack defense :
  Forall2 base_row players base ->
  Forall kills_row combat -> Forall kills_row attack -> Forall kills_row defense ->
  row ∈ merge_sort (row_le 4) (keep kept <$> joined base combat attack defense) ->
  exists b rest, b ∈ base /\ row = b ++ rest /\ length b = 6%nat /\ length rest = 6%nat.
Proof.
  intros Hbase Hc Ha Hd. rewrite merge_sort_Permutation.
  intros (jrow & -> & Hj)%list_elem_of_fmap.
  apply joined_inv in Hj as (b & x & y & z & Hb & -> & Hx & Hy & Hz).
  assert (length b = 6%nat) as Hlen.
  { pose proof (base_records_length _ _ Hbase) as Hall.
    rewrite Forall_forall in Hall. by apply Hall. }
  destruct (keep_joined_row b x y z Hlen) as (rest & -> & Hrest & _);
    eauto using kills_or_nan_length.
  exists b, rest. eauto.
Qed.

Lemma result_row_keeps b players base combat attack defense :
  Forall2 base_row players base ->
  Forall kills_row combat -> Forall kills_row attack -> Forall kills_row defense ->
  b ∈ base ->
  exists rest,
    b ++ rest ∈ merge_sort (row_le 4) (keep kept <$> joined base combat attack defense)
    /\ length rest = 6%nat.
Proof.
  intros Hbase Hc Ha Hd Hb.
  destruct (joined_keeps b base combat attack defense Hb)
    as (x & y & z & Hj & Hx & Hy & Hz).
  assert (length b = 6%nat) as Hlen.
  { pose proof (base_records_length _ _ Hbase) as Hall.
    rewrite Forall_forall in Hall. by apply Hall. }
  destruct (keep_joined_row b x y z Hlen) as (rest & Hkeep & Hrest & _);
    eauto using kills_or_nan_length.
  exists rest. split; [|done]. rewrite merge_sort_Permutation, <- Hkeep.
  by apply list_elem_of_fmap_2.
Qed.

Lemma result_row_unmatched i name alliance p rk tw base combat attack defense :
  player_record i name alliance p rk tw ∈ base ->
  Int i ∉ player_ids combat -> Int i ∉ player_ids attack -> Int i ∉ player_ids defense ->
  player_record i name alliance p rk tw ++ replicate 6 NaN
    ∈ merge_sort (row_le 4) (keep kept <$> joined base combat attack defense).
Proof.
  intros Hb Hc Ha Hd. rewrite merge_sort_Permutation.
  change (player_record i name alliance p rk tw ++ replicate 6 NaN)
    with (keep kept (((player_record i name alliance p rk tw ++ replicate 3 NaN)
                        ++ replicate 3 NaN) ++ replicate 3 NaN)).
  apply list_elem_of_fmap_2. unfold joined.
  apply left_join_unmatched; [|exact Hd].
  apply left_join_unmatched; [|exact Ha].
  apply left_join_unmatched; [exact Hb|exact Hc].
Qed.

(** C2: when the aggregation returns, every row of the players feed has a
    record in the result, with its name URL-decoded ([+] read as a space) and
    a missing alliance id replaced by -1; a player whose id occurs in none of
    the combat, attack and defense feeds has all six combat, attack and
    defense fields NaN. *)
Theorem base_players_are_kept (df : DataFrame)
    (players combat attack defense : list (list cell)) :
  get_players_data remote = Ok df ->
  remote players_url = Some players ->
  remote kills_all_url = Some combat ->
  remote kills_att_url = Some attack ->
  remote kills_def_url = Some defense ->
  forall row, row ∈ players ->
    exists i name alliance p rk tw,
      row = [Int i; Str name; alliance; Int p; Int rk; Int tw]
      /\ (exists rest,
            [Int i; Str (Urllib.unquote_plus name); fillna (-1) alliance;
             Int p; Int rk; Int tw] ++ rest ∈ data df
            /\ length rest = 6%nat)
      /\ (Int i ∉ player_ids combat -> Int i ∉ player_ids attack ->
          Int i ∉ player_ids defense ->
          [Int i; Str (Urllib.unquote_plus name); fillna (-1) alliance;
           Int p; Int rk; Int tw; NaN; NaN; NaN; NaN; NaN; NaN] ∈ data df).
Proof.
  intros (players' & combat' & attack' & defense' & base & Hp & Hc & Ha & Hd
          & Hbase & Hcr & Har & Hdr & ->)%get_players_data_ok Hp' Hc' Ha' Hd'.
  rewrite Hp in Hp'. rewrite Hc in Hc'. rewrite Ha in Ha'. rewrite Hd in Hd'.
  injection Hp' as ->. injection Hc' as ->. injection Ha' as ->. injection Hd' as ->.
  intros row Hrow. cbn [data].
  apply list_elem_of_lookup in Hrow as [k Hk].
  destruct (Forall2_lookup_l _ _ _ _ _ Hbase Hk)
    as (b & Hb & (i & name & alliance & p & rk & tw & -> & ->)).
  apply list_elem_of_lookup_2 in Hb.
  exists i, name, alliance, p, rk, tw. split; [done|]. split.
  - by eapply result_row_keeps.
  - intros Hci Hai Hdi.
    by apply (result_row_unmatched i name alliance p rk tw).
Qed.

(** C7: when the aggregation returns, the fifth column of the result is the
    rank of the players feed, every record carries the rank of the player it
    was made of, and down the records the ranks never decrease. *)
Theorem players_sorted_by_rank (df : DataFrame) :
  get_players_data remote = Ok df ->
  columns df !! 4%nat = Some "rank"
  /\ (exists players,
        remote players_url = Some players
        /\ forall row, row ∈ data df ->
             exists player, player ∈ players
               /\ row !! 0%nat = player !! 0%nat
               /\ rank_of row = player !! 4%nat)
  /\ exists ranks : list Z,
       rank_of <$> data df = (fun k => Some (Int k)) <$> ranks
       /\ StronglySorted Z.le ranks.
Proof.
  intros (players & combat & attack & defense & base & Hp & Hc & Ha & Hd
          & Hbase & Hcr & Har & Hdr & ->)%get_players_data_ok.
  cbn [columns data]. split; [reflexivity|]. split.
  - exists players. split; [done|]. intros row Hrow.
    destruct (result_row_inv _ _ _ _ _ _ Hbase Hcr Har Hdr Hrow)
      as (b & rest & Hb & -> & _ & _).
    apply list_elem_of_lookup in Hb as [k Hk].
    destruct (Forall2_lookup_r _ _ _ _ _ Hbase Hk)
      as (player & Hplayer & (i & name & alliance & p & rk & tw & -> & ->)).
    exists [Int i; Str name; alliance; Int p; Int rk; Int tw].
    split; [exact (list_elem_of_lookup_2 _ _ _ Hplayer)|]. split; reflexivity.
  - destruct (sorted_integer_column 4
                (merge_sort (row_le 4) (keep kept <$> joined base combat attack defense)))
      as (ranks & Hranks & Hsorted).
    + apply Forall_forall. intros row Hrow.
      destruct (result_row_inv _ _ _ _ _ _ Hbase Hcr Har Hdr Hrow)
        as (b & rest & Hb & -> & _ & _).
      destruct (base_records_rank _ _ _ Hbase Hb) as [rk Hrk].
      exists rk. rewrite lookup_app_l; [done|]. by eapply lookup_lt_Some.
    + apply Sorted_merge_sort. apply _.
    + exists ranks. split; [exact Hranks|].
      apply @Sorted_StronglySorted; [intros x y z ? ?; lia|exact Hsorted].
Qed.

(** C8: when the aggregation returns, the three merges had produced the base
    columns and, for each kills feed, its rank, its join key and its points;
    the result is that frame without the three join keys: its columns are the
    six base columns and the six renamed rank and points columns, no
    player_id column or suffixed variant is left, and every record has twelve
    fields. *)
Theorem join_keys_are_dropped (df : DataFrame) :
  get_players_data remote = Ok df ->
  columns df =
    ["id"; "name"; "alliance_id"; "points"; "rank"; "towns";
     "combat_rank"; "combat_points"; "attack_rank"; "attack_points";
     "defense_rank"; "defense_points"]
  /\ (forall c, c ∈ ["player_id"; "player_id_atk"; "player_id_def"] ->
        c ∉ columns df)
  /\ (exists merged,
        columns merged =
          ["id"; "name"; "alliance_id"; "points"; "rank"; "towns";
           "combat_rank"; "player_id"; "combat_points";
           "attack_rank"; "player_id_atk"; "attack_points";
           "defense_rank"; "player_id_def"; "defense_points"]
        /\ (drop ["player_id"; "player_id_atk"; "player_id_def"] merged
             ≫= sort_values "rank") = Ok df)
  /\ forall row, row ∈ data df -> length row = 12%nat.
Proof.
  intros (players & combat & attack & defense & base & Hp & Hc & Ha & Hd
          & Hbase & Hcr & Har & Hdr & ->)%get_players_data_ok.
  cbn [columns data]. split; [reflexivity|]. split; [|split].
  - intros c Hc' Hin.
    apply (bool_decide_pack _) in Hin.
    repeat (apply elem_of_cons in Hc' as [->|Hc']; [by vm_compute in Hin|]).
    by apply elem_of_nil in Hc'.
  - exists {| columns := merged_columns;
              data := joined base combat attack defense |}.
    split; [reflexivity|]. rewrite drop_join_keys. bind_ok. apply sort_by_rank.
  - intros row Hrow.
    destruct (result_row_inv _ _ _ _ _ _ Hbase Hcr Har Hdr Hrow)
      as (b & rest & _ & -> & Hb & Hrest).
    rewrite length_app. lia.
Qed.

End aggregation.

Example sample_aggregated : get_players_data Sample.remote = Ok Sample.aggregated.
Proof. vm_compute. reflexivity. Qed.

Lemma base_players_are_kept_witness :
  get_players_data Sample.remote = Ok Sample.aggregated
  /\ [Pandas.Int 1; Pandas.Str "A+B"; Pandas.NaN; Pandas.Int 100; Pandas.Int 1;
      Pandas.Int 3] ∈ Sample.players
  /\ [Pandas.Int 1; Pandas.Str "A B"; Pandas.Int (-1); Pandas.Int 100;
      Pandas.Int 1; Pandas.Int 3;
      Pandas.NaN; Pandas.NaN; Pandas.NaN; Pandas.NaN; Pandas.NaN; Pandas.NaN]
     ∈ Pandas.data Sample.aggregated.
Proof.
  assert (get_players_data Sample.remote = Ok Sample.aggregated) as Hrun
    by (vm_compute; reflexivity).
  assert ([Pandas.Int 1; Pandas.Str "A+B"; Pandas.NaN; Pandas.Int 100; Pandas.Int 1;
           Pandas.Int 3] ∈ Sample.players) as Hrow
    by (apply (bool_decide_unpack _); vm_compute; exact I).
  split; [exact Hrun|]. split; [exact Hrow|].
  destruct (base_players_are_kept Sample.remote Sample.aggregated
              Sample.players Sample.combat Sample.attack Sample.defense
              Hrun eq_refl eq_refl eq_refl eq_refl _ Hrow)
    as (i & name & alliance & p & rk & tw & Heq & _ & Habsent).
  injection Heq as <- <- <- <- <- <-.
  apply Habsent; apply (bool_decide_unpack _); vm_compute; exact I.
Defined.

Lemma players_sorted_by_rank_witness :
  get_players_data Sample.remote = Ok Sample.aggregated
  /\ exists ranks : list Z,
       Aggregate.rank_of <$> Pandas.data Sample.aggregated
         = (fun k => Some (Pandas.Int k)) <$> ranks
       /\ StronglySorted Z.le ranks.
Proof.
  assert (get_players_data Sample.remote = Ok Sample.aggregated) as Hrun
    by (vm_compute; reflexivity).
  split; [exact Hrun|].
  exact (proj2 (proj2 (players_sorted_by_rank Sample.remote Sample.aggregated Hrun))).
Defined.

Lemma join_keys_are_dropped_witness :
  get_players_data Sample.remote = Ok Sample.aggregated
  /\ Pandas.columns Sample.aggregated =
       ["id"; "name"; "alliance_id"; "points"; "rank"; "towns";
        "combat_rank"; "combat_points"; "attack_rank"; "attack_points";
        "defense_rank"; "defense_points"].
Proof.
  assert (get_players_data Sample.remote = Ok Sample.aggregated) as Hrun
    by (vm_compute; reflexivity).
  split; [exact Hrun|].
  exact (proj1 (join_keys_are_dropped Sample.remote Sample.aggregated Hrun)).
Defined.

Lemma interleaved_registrations_share_a_name_witness :
  app_models.UserCreate.nome Sample.ana1 = app_models.UserCreate.nome Sample.ana2
  /\ app_models.UserCreate.email Sample.ana1 ≠ app_models.UserCreate.email Sample.ana2
  /\ exists token1 token2,
       @Interleaved.run_schedule reference_codec reference_crypt Sample.secret
         [0; 0; 1; 1; 0; 1]%nat
         [Interleaved.start "Na7" Sample.t0 Sample.ana1;
          Interleaved.start "Qb2" Sample.t1 Sample.ana2] Db.empty
       = ([Interleaved.move (Interleaved.start "Na7" Sample.t0 Sample.ana1)
             (Interleaved.Returned (Ok (app_models.Token.mk token1)));
           Interleaved.move (Interleaved.start "Qb2" Sample.t1 Sample.ana2)
             (Interleaved.Returned (Ok (app_models.Token.mk token2)))],
          @registered reference_crypt "Qb2" Sample.ana2
            (@registered reference_crypt "Na7" Sample.ana1 Db.empty))
       /\ ¬ NoDup (db_models.nome <$>
                     Db.rows (@registered reference_crypt "Qb2" Sample.ana2
                                (@registered reference_crypt "Na7" Sample.ana1 Db.empty))).
Proof.
  assert (app_models.UserCreate.email Sample.ana1
          ≠ app_models.UserCreate.email Sample.ana2) as Hemail by discriminate.
  split; [reflexivity|]. split; [exact Hemail|].
  apply (@interleaved_registrations_share_a_name reference_codec reference_crypt
           Sample.secret "Na7" "Qb2" Sample.t0 Sample.t1 Sample.ana1 Sample.ana2
           Db.empty eq_refl Hemail); apply not_elem_of_nil.
Defined.

(** * Further properties *)

(** ** Registration and login, composed *)

Section credentials_composed.
Context `{!Jose.Codec} `{!Passlib.CryptContext}.
Variable secret : string.
Import app_models db_models.

Lemma registered_unique_email salt user t :
  Db.unique_email t ->
  UserCreate.email user ∉ (email <$> Db.rows t) ->
  Db.unique_email (registered salt user t).
Proof.
  intros Huniq Hfree. unfold Db.unique_email, registered. cbn [Db.rows].
  rewrite fmap_app. apply NoDup_app. split; [done|]. split; [|apply NoDup_singleton].
  intros x Hx Hx'. apply list_elem_of_singleton in Hx'. cbn in Hx'. by subst.
Qed.

Lemma filter_email_registered salt user t :
  UserCreate.email user ∉ (email <$> Db.rows t) ->
  filter (fun v => bool_decide (email v = UserCreate.email user) = true)
         (Db.rows (registered salt user t))
  = [ {| id := Some (Db.next_id t); nome := UserCreate.nome user;
         email := UserCreate.email user;
         senha := Passlib.hash salt (UserCreate.senha user) |} ].
Proof.
  intros Hfree. unfold registered. cbn [Db.rows].
  rewrite filter_app, (filter_email_absent _ _ Hfree).
  by rewrite filter_cons_True by by rewrite bool_decide_eq_true.
Qed.

Lemma filter_nome_registered salt user t :
  UserCreate.nome user ∉ (nome <$> Db.rows t) ->
  filter (fun v => bool_decide (nome v = UserCreate.nome user) = true)
         (Db.rows (registered salt user t))
  = [ {| id := Some (Db.next_id t); nome := UserCreate.nome user;
         email := UserCreate.email user;
         senha := Passlib.hash salt (UserCreate.senha user) |} ].
Proof.
  intros Hfree. unfold registered. cbn [Db.rows].
  rewrite filter_app, (filter_nome_absent _ _ Hfree).
  by rewrite filter_cons_True by by rewrite bool_decide_eq_true.
Qed.

Lemma registrar_fresh_ok salt now user t :
  UserCreate.email user ∉ (email <$> Db.rows t) ->
  UserCreate.nome user ∉ (nome <$> Db.rows t) ->
  exists token,
    encode secret now (UserCreate.email user) = Ok token
    /\ Db.run_request (registrar secret salt now user) t
       = (Ok (Token.mk token), registered salt user t).
Proof.
  intros Hemail Hnome.
  destruct (encode_ok secret now (UserCreate.email user)) as [token Htoken].
  exists token. split; [done|]. by rewrite registrar_fresh, Htoken.
Qed.

(** X1: after a registration with a fresh email and a fresh name, a login
    with the same email and password succeeds on the store the registration
    left, leaves that store as it is, and returns a token that validates to
    the email as subject. *)
Theorem register_then_login
    (salt : string) (now now' : Z) (user : UserCreate.t) (t : Db.Table) :
  UserCreate.email user ∉ (email <$> Db.rows t) ->
  UserCreate.nome user ∉ (nome <$> Db.rows t) ->
  exists token t' token' claims,
    Db.run_request (registrar secret salt now user) t = (Ok (Token.mk token), t')
    /\ Db.run_request
         (login secret now'
            (UserLogin.mk (UserCreate.email user) (UserCreate.senha user))) t'
       = (Ok (Token.mk token'), t')
    /\ validate_token secret now' token' = Ok claims
    /\ claims !! "sub" = Some (Jose.JStr (UserCreate.email user)).
Proof.
  intros Hemail Hnome.
  destruct (registrar_fresh_ok salt now user t Hemail Hnome) as (token & _ & Hreg).
  destruct (encode_ok secret now' (UserCreate.email user)) as [token' Htoken'].
  exists token, (registered salt user t), token',
    (issued_claims now' (UserCreate.email user)).
  split; [exact Hreg|]. split; [|split].
  - unfold Db.run_request. rewrite login_unfold.
    cbn [UserLogin.email UserLogin.senha Db.store].
    rewrite (filter_email_registered salt user t Hemail). cbn [senha].
    by rewrite Passlib.verify_hash, Htoken'.
  - apply (validate_token_encode secret now' now' _ _ Htoken'). lia.
  - apply issued_claims_sub.
Qed.

(** X2: once a registration has succeeded, a second registration with its
    email is refused with DuplicateEmail, and one with another, free email
    but its name is refused with DuplicateName; neither changes the store. *)
Theorem second_registration_refused
    (salt salt' : string) (now now' : Z) (user user' : UserCreate.t) (t : Db.Table) :
  UserCreate.email user ∉ (email <$> Db.rows t) ->
  UserCreate.nome user ∉ (nome <$> Db.rows t) ->
  (UserCreate.email user' = UserCreate.email user ->
   Db.run_request (registrar secret salt' now' user') (registered salt user t)
   = (Raise DuplicateEmail, registered salt user t))
  /\ (UserCreate.email user' ∉ (email <$> Db.rows (registered salt user t)) ->
      UserCreate.nome user' = UserCreate.nome user ->
      Db.run_request (registrar secret salt' now' user') (registered salt user t)
      = (Raise DuplicateName, registered salt user t)).
Proof.
  intros Hemail Hnome. split.
  - intros Heq. unfold Db.run_request. rewrite registrar_unfold. cbn [Db.store].
    by rewrite Heq, (filter_email_registered salt user t Hemail).
  - intros Hfree Heq. unfold Db.run_request. rewrite registrar_unfold. cbn [Db.store].
    by rewrite (filter_email_absent _ _ Hfree), Heq,
      (filter_nome_registered salt user t Hnome).
Qed.

(** X3: whatever its outcome, a registration leaves every stored row in
    place; it appends one row, holding the given name and email and the hash
    of the password, exactly when it returns a token, and writes nothing when
    it raises. *)
Theorem registrar_only_appends
    (salt : string) (now : Z) (user : UserCreate.t) (t : Db.Table) :
  Db.rows t `prefix_of`
    Db.rows (Db.run_request (registrar secret salt now user) t).2
  /\ (forall token,
        (Db.run_request (registrar secret salt now user) t).1 = Ok token ->
        (Db.run_request (registrar secret salt now user) t).2
        = registered salt user t)
  /\ (forall e,
        (Db.run_request (registrar secret salt now user) t).1 = Raise e ->
        (Db.run_request (registrar secret salt now user) t).2 = t).
Proof.
  destruct (decide (UserCreate.email user ∈ (email <$> Db.rows t))) as [Hin|Hemail];
    [|destruct (decide (UserCreate.nome user ∈ (nome <$> Db.rows t))) as [Hin|Hnome]].
  - assert ((Db.run_request (registrar secret salt now user) t).2 = t
            /\ exists e, (Db.run_request (registrar secret salt now user) t).1 = Raise e)
      as [Ht [e He]].
    { unfold Db.run_request. rewrite registrar_unfold. cbn [Db.store].
      destruct (filter (fun u => bool_decide (email u = _) = true) (Db.rows t))
        as [|? [|? ?]] eqn:Hf; [|by eauto..].
      by apply filter_email_nil_absent in Hf. }
    rewrite Ht, He. split; [done|]. split; [discriminate|done].
  - assert ((Db.run_request (registrar secret salt now user) t).2 = t
            /\ exists e, (Db.run_request (registrar secret salt now user) t).1 = Raise e)
      as [Ht [e He]].
    { unfold Db.run_request. rewrite registrar_unfold. cbn [Db.store].
      rewrite (filter_email_absent _ _ Hemail).
      destruct (filter (fun u => bool_decide (nome u = _) = true) (Db.rows t))
        as [|? [|? ?]] eqn:Hf; [|by eauto..].
      by apply filter_nome_nil_absent in Hf. }
    rewrite Ht, He. split; [done|]. split; [discriminate|done].
  - destruct (registrar_fresh_ok salt now user t Hemail Hnome) as (token & _ & ->).
    cbn [fst snd]. split; [|split; [done|discriminate]].
    unfold registered. cbn [Db.rows]. by apply prefix_app_r.
Qed.

(** X4: a login never writes: whatever the request and the store, the store
    after it is the store before it.  On a store whose passwords are hashes
    made by the context, as [registrar] stores them, its answer is a token for
    the email; or the InvalidCredentials error, and then no row of that email
    holds a hash of the given password; or, only on a store where the email is
    not unique, the error of [scalar_one_or_none]. *)
Theorem login_never_writes (now : Z) (user : UserLogin.t) (t : Db.Table) :
  (Db.run_request (login secret now user) t).2 = t
  /\ ((forall u, u ∈ Db.rows t ->
         exists salt password, senha u = Passlib.hash salt password) ->
      (exists token,
         encode secret now (UserLogin.email user) = Ok token
         /\ (Db.run_request (login secret now user) t).1 = Ok (Token.mk token))
      \/ ((Db.run_request (login secret now user) t).1 = Raise InvalidCredentials
          /\ forall u salt, u ∈ Db.rows t -> email u = UserLogin.email user ->
               senha u ≠ Passlib.hash salt (UserLogin.senha user))
      \/ ((Db.run_request (login secret now user) t).1 = Raise MultipleResultsFound
          /\ ¬ Db.unique_email t)).
Proof.
  split; [apply login_store|]. intros _.
  unfold Db.run_request. rewrite login_unfold. cbn [Db.store].
  destruct (filter (fun u => bool_decide (email u = _) = true) (Db.rows t))
    as [|u [|v ?]] eqn:Hf; cbn [fst].
  - right. left. split; [done|]. intros u salt Hu Heq _.
    apply (filter_nonempty_elem _ _ Hf u Hu). by apply bool_decide_eq_true.
  - destruct (Passlib.verify _ _) eqn:Hpw.
    + destruct (encode_ok secret now (UserLogin.email user)) as [token Htoken].
      left. exists token. split; [exact Htoken|]. rewrite Htoken. reflexivity.
    + right. left. split; [done|]. intros u' salt Hu' Heq Hhash.
      assert (u' ∈ filter
                (fun u => bool_decide (email u = UserLogin.email user) = true)
                (Db.rows t)) as Hin
        by (apply list_elem_of_filter; split; [by apply bool_decide_eq_true|done]).
      rewrite Hf in Hin. apply list_elem_of_singleton in Hin as ->.
      rewrite Hhash, Passlib.verify_hash in Hpw. discriminate.
  - right. right. split; [done|]. intros Huniq.
    assert (u ∈ filter (fun u => bool_decide (email u = UserLogin.email user) = true)
                       (Db.rows t)) as Hu by (rewrite Hf; apply list_elem_of_here).
    apply list_elem_of_filter in Hu as [Hue Hu]. apply bool_decide_eq_true in Hue.
    rewrite <- Hue in Hf. rewrite (filter_email_unique u _ Huniq Hu) in Hf.
    discriminate.
Qed.

(** X5: on a store where two rows share a name, a registration under that
    name with a free email is not refused with DuplicateName: the query by
    name finds two rows, [scalar_one_or_none] raises, and the store is left as
    it was. *)
Theorem ambiguous_name_raises
    (salt : string) (now : Z) (user : UserCreate.t) (t : Db.Table) (u v : User) :
  UserCreate.email user ∉ (email <$> Db.rows t) ->
  u ∈ Db.rows t -> v ∈ Db.rows t -> u ≠ v ->
  nome u = UserCreate.nome user -> nome v = UserCreate.nome user ->
  Db.run_request (registrar secret salt now user) t
  = (Raise MultipleResultsFound, t).
Proof.
  intros Hemail Hu Hv Hne Hnu Hnv.
  unfold Db.run_request. rewrite registrar_unfold. cbn [Db.store].
  rewrite (filter_email_absent _ _ Hemail).
  assert (u ∈ filter (fun w => bool_decide (nome w = UserCreate.nome user) = true)
                     (Db.rows t)) as Hu'
    by (apply list_elem_of_filter; split; [by apply bool_decide_eq_true|done]).
  assert (v ∈ filter (fun w => bool_decide (nome w = UserCreate.nome user) = true)
                     (Db.rows t)) as Hv'
    by (apply list_elem_of_filter; split; [by apply bool_decide_eq_true|done]).
  destruct (filter (fun w => bool_decide (nome w = _) = true) (Db.rows t))
    as [|a [|b ?]]; [by apply elem_of_nil in Hu'| |reflexivity].
  apply list_elem_of_singleton in Hu', Hv'. congruence.
Qed.

End credentials_composed.

(** ** Tokens: lifetime, identity, forgery *)

Section token_facts.
Context `{!Jose.Codec}.
Variable secret : string.
Import Jose.

(** X6: a token issued at [now] is accepted at every clock second up to and
    including the second of issue plus 3600, with exactly the claims it was
    issued with, and is refused as expired from the next second on. *)
Theorem token_lifetime (now now' : Z) (email token : string) :
  encode secret now email = Ok token ->
  validate_token secret now' token =
  if timegm now + 3600 <? timegm now'
  then Raise TokenExpired
  else Ok (<["sub" := JStr email]> (<["exp" := JInt (timegm now + 3600)]> ∅)).
Proof.
  intros Htoken. rewrite encode_eq in Htoken.
  unfold validate_token, __JWT_ALGORITHM.
  rewrite (jwt_decode_jws_sign _ _ _ _ (issued_claims_scalar now email) Htoken).
  clear Htoken. rewrite validate_claims_issued.
  destruct (timegm now + 3600 <? timegm now'); reflexivity.
Qed.

(** X7: tokens do not collide: if two issues under one secret return the same
    string, they were for the same subject and in the same second. *)
Theorem encode_injective (now1 now2 : Z) (email1 email2 : string) :
  encode secret now1 email1 = encode secret now2 email2 ->
  email1 = email2 /\ timegm now1 = timegm now2.
Proof.
  intros Heq.
  destruct (encode_ok secret now1 email1) as [token Htoken].
  pose proof Htoken as Htoken'. rewrite Heq in Htoken'.
  rewrite encode_eq in Htoken, Htoken'.
  apply verified_claims_jws_sign in Htoken; [|apply issued_claims_scalar].
  apply verified_claims_jws_sign in Htoken'; [|apply issued_claims_scalar].
  clear Heq.
  rewrite Htoken in Htoken'. apply (inj Some) in Htoken'.
  rename Htoken' into Hclaims. clear Htoken. split.
  - apply (f_equal (fun m => m !! "sub")) in Hclaims.
    rewrite !issued_claims_sub in Hclaims. congruence.
  - apply (f_equal expiry) in Hclaims.
    rewrite !issued_claims_expiry in Hclaims. apply (inj Some) in Hclaims. lia.
Qed.

Lemma split_last_Some c s l r :
  split_last c s = Some (l, r) -> s = l +:+ String c r.
Proof.
  revert l. induction s as [|a s IH]; intros l; [discriminate|]. simpl.
  destruct (split_last c s) as [[l' r']|] eqn:Hs.
  - intros [= <- <-]. rewrite app_cons. f_equal. by apply IH.
  - destruct (Ascii.eqb_spec a c) as [->|]; [|discriminate].
    by intros [= <- <-].
Qed.

Lemma split_first_Some c s l r :
  split_first c s = Some (l, r) -> s = l +:+ String c r.
Proof.
  revert l. induction s as [|a s IH]; intros l; [discriminate|]. simpl.
  destruct (Ascii.eqb_spec a c) as [->|].
  - by intros [= <- <-].
  - destruct (split_first c s) as [[l' r']|] eqn:Hs; [|discriminate].
    intros [= <- <-]. rewrite app_cons. f_equal. by apply IH.
Qed.

Lemma count_char_app c l r :
  count_char c (l +:+ r) = (count_char c l + count_char c r)%nat.
Proof.
  induction l as [|a l IH]; [reflexivity|]. rewrite app_cons. simpl. lia.
Qed.

(** With fewer than two dots the token has no three segments. *)
Lemma load_two_dots token :
  (count_char "." token < 2)%nat -> load token = Raise JWSError.
Proof.
  intros Hdots. unfold load.
  destruct (split_last "." token) as [[si cs]|] eqn:Hlast; [|reflexivity].
  cbn [expect]. bind_ok.
  destruct (split_first "." si) as [[hs ps]|] eqn:Hfirst; [|reflexivity].
  exfalso. apply split_last_Some in Hlast. apply split_first_Some in Hfirst.
  subst. rewrite !count_char_app in Hdots. simpl in Hdots. lia.
Qed.

Lemma validate_token_malformed now token :
  load token = Raise JWSError ->
  validate_token secret now token = Raise TokenInvalid.
Proof.
  intros Hload. unfold validate_token, jwt_decode, jws_verify.
  rewrite Hload. reflexivity.
Qed.

(** X8: a bearer string with fewer than two dots (the empty string, a word,
    two segments) is refused as invalid at every clock reading. *)
Theorem too_few_segments_invalid (now : Z) (token : string) :
  (count_char "." token < 2)%nat ->
  validate_token secret now token = Raise TokenInvalid.
Proof.
  intros Hdots. by apply validate_token_malformed, load_two_dots.
Qed.

(** A token under the header the program issues, with a signature that is
    not the HMAC of its first two segments. *)
Lemma jws_verify_forged payload_segment signature :
  signature ≠ hmac_sha256 secret (encode_header "HS256" +:+ "." +:+ payload_segment) ->
  jws_verify
    ((encode_header "HS256" +:+ "." +:+ payload_segment)
       +:+ "." +:+ base64url_encode signature)
    secret [__JWT_ALGORITHM]
  = Raise JWSError.
Proof.
  intros Hsig. unfold jws_verify, load. rewrite (dot_app (_ +:+ _)).
  rewrite split_last_app by apply base64url_encode_alphabet.
  cbn [expect]. binds_ok. rewrite dot_app.
  rewrite split_first_app by apply base64url_encode_alphabet.
  cbn [expect]. cbv beta iota. unfold encode_header at 1.
  rewrite base64url_decode_encode. cbn [expect]. cbv beta iota.
  rewrite (json_loads_dumps _ (header_scalar "HS256")). cbv beta iota.
  destruct (base64url_decode payload_segment) as [payload|]; cbn [expect];
    cbv beta iota; [|reflexivity].
  rewrite base64url_decode_encode. cbn [expect]. cbv beta iota.
  unfold verify_signature.
  rewrite lookup_insert_ne by done. rewrite lookup_insert_eq.
  rewrite <- dot_app.
  rewrite (bool_decide_eq_false_2
             (hmac_sha256 secret (encode_header "HS256" +:+ "." +:+ payload_segment)
              = signature)) by congruence.
  by rewrite andb_false_r.
Qed.

(** X9: forgery is refused.  Under the header the program issues, whatever
    the payload segment, a token whose third segment encodes anything but the
    HMAC of its first two segments under the secret is refused as invalid at
    every clock reading: the payload is not looked into. *)
Theorem forged_signature_invalid (now : Z) (payload_segment signature : string) :
  signature ≠ hmac_sha256 secret (encode_header "HS256" +:+ "." +:+ payload_segment) ->
  validate_token secret now
    ((encode_header "HS256" +:+ "." +:+ payload_segment)
       +:+ "." +:+ base64url_encode signature)
  = Raise TokenInvalid.
Proof.
  intros Hsig. unfold validate_token, jwt_decode.
  by rewrite (jws_verify_forged _ _ Hsig).
Qed.

(** X10: a token is bound to the secret it was issued under: validated under
    another secret, one that signs the same input differently, it is
    invalid. *)
Theorem other_secret_invalid (secret' : string) (now now' : Z) (email token : string) :
  encode secret now email = Ok token ->
  hmac_sha256 secret'
    (encode_header "HS256" +:+ "." +:+ encode_payload (issued_claims now email))
  ≠ hmac_sha256 secret
      (encode_header "HS256" +:+ "." +:+ encode_payload (issued_claims now email)) ->
  validate_token secret' now' token = Raise TokenInvalid.
Proof.
  intros Htoken Hmac. rewrite encode_eq in Htoken.
  destruct (load_jws_sign (issued_claims now email) secret) as (token' & Hsign & Hload).
  rewrite Htoken in Hsign. injection Hsign as <-. clear Htoken.
  unfold validate_token, jwt_decode, jws_verify. rewrite Hload. clear Hload.
  binds_ok. unfold verify_signature.
  rewrite lookup_insert_ne by done. rewrite lookup_insert_eq.
  rewrite (bool_decide_eq_false_2 (hmac_sha256 secret' _ = hmac_sha256 secret _))
    by done.
  rewrite andb_false_r. reflexivity.
Qed.

End token_facts.

(** ** The aggregation: all four feeds or nothing *)

Section aggregation_outcomes.
Import Pandas Aggregate Feeds.
Variable remote : Remote.

Lemma set_apply_loc label i f cols rows :
  get_loc label cols = Some i ->
  set_apply label f {| columns := cols; data := rows |}
  = (rows' ← map_rows (apply_at i f) rows; Ok {| columns := cols; data := rows' |}).
Proof. intros Hloc. unfold set_apply. cbn [columns data]. by rewrite Hloc. Qed.

Lemma players_row_of_conform row r1 :
  length row = 6%nat ->
  forallb (fun '(c, v) =>
     conforms (assoc c [("id", int); ("name", str); ("alliance_id", float);
                        ("points", int); ("rank", int); ("towns", int)]) v)
    (zip base_columns row) = true ->
  apply_at 1 unquote_plus_cell row = Ok r1 ->
  players_row row.
Proof.
  intros Hlen Hconf.
  destruct row as [|a [|b [|c [|d [|e [|f [|? ?]]]]]]]; try discriminate.
  destruct a, b, c, d, e, f; try discriminate; intros _;
    eexists _, _, _, _, _, _; (split; [reflexivity|]); eauto.
Qed.

Lemma player_data_rows df :
  __player_data remote = Ok df ->
  exists players,
    remote players_url = Some players /\ Forall players_row players.
Proof.
  unfold __player_data.
  destruct (__read_data remote players_url _ _) as [d0|] eqn:Hread; [|discriminate].
  apply read_csv_ok in Hread as (players & Hurl & -> & Hrows). bind_ok.
  erewrite (set_apply_loc "name" 1); [|reflexivity].
  destruct (map_rows _ players) as [rows1|] eqn:H1; [|discriminate].
  intros _. exists players. split; [done|].
  apply map_rows_ok in H1. clear Hurl.
  induction H1 as [|r r1 rows rows1 Hr1 _ IH]; [constructor|].
  apply Forall_cons in Hrows as [[Hlen Hconf] Hrows].
  constructor; [by eapply players_row_of_conform|by apply IH].
Qed.

(** X11: a feed that cannot be fetched fails the whole aggregation: when
    one of the four feeds is missing, [get_players_data] raises and returns
    no frame, whatever the other three hold. *)
Theorem missing_feed_fails_aggregation (url : string) :
  url ∈ [players_url; kills_all_url; kills_att_url; kills_def_url] ->
  remote url = None ->
  exists e, get_players_data remote = Raise e.
Proof.
  intros Hurl Hmissing.
  destruct (get_players_data remote) as [df|e] eqn:Hdf; [|by exists e].
  apply get_players_data_ok in Hdf
    as (players & combat & attack & defense & base & Hp & Hc & Ha & Hd & _).
  repeat (apply elem_of_cons in Hurl as [->|Hurl]; [congruence|]).
  by apply elem_of_nil in Hurl.
Qed.

End aggregation_outcomes.

(** ** The aggregation: what a record holds *)

Section aggregation_records.
Import Pandas Aggregate Feeds.
Variable remote : Remote.

Lemma filter_key_at_most_one {A B} `{!EqDecision B} (f : A -> B) (k : B) (R : list A) :
  NoDup (f <$> R) -> (length (filter (fun r => f r = k) R) <= 1)%nat.
Proof.
  induction R as [|r R IH]; [intros _; cbn; lia|].
  rewrite fmap_cons, NoDup_cons. intros [Hr HR].
  destruct (decide (f r = k)) as [Hk|Hk].
  - rewrite filter_cons_True by done. cbn [length].
    assert (filter (fun r => f r = k) R = []) as ->; [|simpl; lia].
    destruct (filter (fun r => f r = k) R) as [|r' ?] eqn:Hf; [done|].
    exfalso. apply Hr.
    assert (r' ∈ filter (fun r => f r = k) R) as Hr'
      by (rewrite Hf; apply list_elem_of_here).
    apply list_elem_of_filter in Hr' as [Hk' Hr']. rewrite Hk, <- Hk'.
    by apply list_elem_of_fmap_2.
  - rewrite filter_cons_False by done. by apply IH.
Qed.

Lemma join_row_length ri w cast R key l :
  (1 <= length (join_row ri w cast R key l))%nat
  /\ (NoDup ((fun r => default NaN (r !! ri)) <$> R) ->
      length (join_row ri w cast R key l) = 1%nat).
Proof.
  unfold join_row.
  pose proof (filter_key_at_most_one (fun r => default NaN (r !! ri)) key R) as Hle.
  destruct (filter _ R) as [|m ms]; [by split|].
  rewrite length_fmap. cbn [length] in *. split; [lia|].
  intros Hnd. specialize (Hle Hnd). lia.
Qed.

Lemma mjoin_cons {A} (x : list A) (xs : list (list A)) :
  mjoin (x :: xs) = x ++ mjoin xs.
Proof. reflexivity. Qed.

Lemma join_rows_length ri w cast R (f : list cell -> cell) L :
  (length L <= length (mjoin ((fun l => join_row ri w cast R (f l) l) <$> L)))%nat
  /\ (NoDup ((fun r => default NaN (r !! ri)) <$> R) ->
      length (mjoin ((fun l => join_row ri w cast R (f l) l) <$> L)) = length L).
Proof.
  induction L as [|l L [IHle IHeq]]; [by split|].
  rewrite fmap_cons, mjoin_cons, length_app.
  change (length (l :: L)) with (S (length L)).
  destruct (join_row_length ri w cast R (f l) l) as [Hle Heq].
  revert IHle IHeq Hle Heq.
  generalize (length (join_row ri w cast R (f l) l)).
  generalize (length (mjoin ((fun l0 => join_row ri w cast R (f l0) l0) <$> L))).
  intros a b IHle IHeq Hle Heq. split; [lia|].
  intros Hnd. specialize (IHeq Hnd). specialize (Heq Hnd). lia.
Qed.

Lemma left_join_length li ri w L R :
  (length L <= length (left_join li ri w L R))%nat
  /\ (NoDup ((fun r => default NaN (r !! ri)) <$> R) ->
      length (left_join li ri w L R) = length L).
Proof. unfold left_join. cbv zeta. apply join_rows_length. Qed.

(** X13: the result never has fewer records than the players feed has rows,
    and when no kills feed lists a player id twice it has exactly one record
    per row of the players feed. *)
Theorem one_record_per_player (df : DataFrame)
    (players combat attack defense : list (list cell)) :
  get_players_data remote = Ok df ->
  remote players_url = Some players ->
  remote kills_all_url = Some combat ->
  remote kills_att_url = Some attack ->
  remote kills_def_url = Some defense ->
  (length players <= length (data df))%nat
  /\ (NoDup (player_ids combat) -> NoDup (player_ids attack) ->
      NoDup (player_ids defense) ->
      length (data df) = length players).
Proof.
  intros (players' & combat' & attack' & defense' & base & Hp & Hc & Ha & Hd
          & Hbase & _ & _ & _ & ->)%get_players_data_ok Hp' Hc' Ha' Hd'.
  rewrite Hp in Hp'. rewrite Hc in Hc'. rewrite Ha in Ha'. rewrite Hd in Hd'.
  apply (inj Some) in Hp', Hc', Ha', Hd'. subst. cbn [data].
  rewrite merge_sort_Permutation, length_fmap. unfold joined.
  rewrite (Forall2_length _ _ _ Hbase).
  destruct (left_join_length 0 1 3 base combat) as [H1 H1'].
  destruct (left_join_length 0 1 3 (left_join 0 1 3 base combat) attack) as [H2 H2'].
  destruct (left_join_length 0 1 3
              (left_join 0 1 3 (left_join 0 1 3 base combat) attack) defense)
    as [H3 H3'].
  split; [lia|]. intros Hnc Hna Hnd.
  rewrite (H3' Hnd), (H2' Hna). by apply H1'.
Qed.

(** Integers of at most 53 bits are float64 values. *)
Lemma float64_exact n : Z.abs n ≤ 2 ^ 53 -> float64 n = n.
Proof.
  intros Hn. unfold float64.
  destruct (Z.ltb_spec (Z.abs n) (2 ^ 53)) as [|Hge]; [reflexivity|].
  assert (Z.abs n = 2 ^ 53) as Habs by lia.
  destruct (Z.abs_eq_or_opp n) as [Heq|Heq]; rewrite Heq in Habs.
  - subst n. vm_compute. reflexivity.
  - assert (n = - 2 ^ 53) as -> by lia. vm_compute. reflexivity.
Qed.

Lemma left_join_inv_key row L R :
  row ∈ left_join 0 1 3 L R ->
  exists l x,
    l ∈ L /\ row = l ++ x
    /\ ((x = replicate 3 NaN /\ left_key l ∉ (kills_key <$> R))
        \/ (exists r, r ∈ R /\ kills_key r = left_key l
                      /\ (x = r \/ x = astype_float <$> r))).
Proof.
  intros (l & Hl & Hrow)%elem_of_left_join.
  apply elem_of_join_row in Hrow as [[-> Hno]|(r & Hr & Hkey & ->)].
  - exists l, (replicate 3 NaN). split; [done|]. split; [done|]. left.
    split; [done|]. intros (r & Hkey & Hr)%list_elem_of_fmap.
    by apply (Hno r Hr).
  - exists l. eexists. split; [done|]. split; [reflexivity|]. right.
    exists r. split; [done|]. split; [done|].
    destruct (upcast_cases 1 (left_key <$> L) R) as [Hc|Hc];
      unfold left_key in Hc; rewrite Hc; [left|by right].
    by rewrite list_fmap_id.
Qed.

Lemma left_join_matched l r L R :
  l ∈ L -> r ∈ R -> kills_key r = left_key l ->
  exists x, l ++ x ∈ left_join 0 1 3 L R /\ (x = r \/ x = astype_float <$> r).
Proof.
  intros Hl Hr Hkey.
  exists (upcast 1 (left_key <$> L) R <$> r). split.
  - apply elem_of_left_join. exists l. split; [done|].
    apply elem_of_join_row. right. exists r. eauto.
  - destruct (upcast_cases 1 (left_key <$> L) R) as [-> | ->]; [left|by right].
    by rewrite list_fmap_id.
Qed.

Lemma kills_triple R i x :
  Forall kills_row R ->
  (x = replicate 3 NaN /\ Int i ∉ (kills_key <$> R))
  \/ (exists r, r ∈ R /\ kills_key r = Int i /\ (x = r \/ x = astype_float <$> r)) ->
  exists c0 k c1, x = [c0; k; c1] /\ kills_fields R i c0 c1.
Proof.
  intros HR [[-> Hno]|(r & Hr & Hkey & Hx)].
  - exists NaN, NaN, NaN. split; [reflexivity|]. by left.
  - rewrite Forall_forall in HR. destruct (HR r Hr) as (rk & pid & pts & ->).
    cbn in Hkey. injection Hkey as ->.
    destruct Hx as [-> | ->].
    + exists (Int rk), (Int i), (Int pts). split; [reflexivity|]. right.
      exists rk, pts. split; [done|]. by left.
    + exists (Int (float64 rk)), (Int (float64 i)), (Int (float64 pts)).
      split; [reflexivity|]. right. exists rk, pts. split; [done|]. by right.
Qed.

Lemma result_row_sound df :
  get_players_data remote = Ok df ->
  exists players combat attack defense,
    remote players_url = Some players
    /\ remote kills_all_url = Some combat
    /\ remote kills_att_url = Some attack
    /\ remote kills_def_url = Some defense
    /\ forall row, row ∈ data df ->
         exists i name alliance p rk tw c0 c1 a0 a1 d0 d1,
           [Int i; Str name; alliance; Int p; Int rk; Int tw] ∈ players
           /\ (alliance = NaN \/ exists a, alliance = Int a)
           /\ row = [Int i; Str (Urllib.unquote_plus name); fillna (-1) alliance;
                     Int p; Int rk; Int tw; c0; c1; a0; a1; d0; d1]
           /\ kills_fields combat i c0 c1
           /\ kills_fields attack i a0 a1
           /\ kills_fields defense i d0 d1.
Proof.
  intros Hdf.
  assert (exists base, __player_data remote = Ok base) as [base0 Hbase0].
  { unfold get_players_data in Hdf.
    destruct (__player_data remote) as [base|]; [by eexists|discriminate]. }
  destruct (player_data_rows _ _ Hbase0) as (players0 & Hp0 & Hrows).
  apply get_players_data_ok in Hdf
    as (players & combat & attack & defense & base & Hp & Hc & Ha & Hd
        & Hbase & Hcr & Har & Hdr & ->).
  rewrite Hp in Hp0. apply (inj Some) in Hp0. subst players0.
  exists players, combat, attack, defense. repeat (split; [done|]).
  intros row. cbn [data]. rewrite merge_sort_Permutation.
  intros (jrow & -> & Hj)%list_elem_of_fmap. unfold joined in Hj.
  apply left_join_inv_key in Hj as (l2 & z & Hl2 & -> & Hz).
  apply left_join_inv_key in Hl2 as (l1 & y & Hl1 & -> & Hy).
  apply left_join_inv_key in Hl1 as (b & x & Hb & -> & Hx).
  apply list_elem_of_lookup in Hb as [k Hk].
  destruct (Forall2_lookup_r _ _ _ _ _ Hbase Hk)
    as (prow & Hprow & (i & name & alliance & p & rk & tw & -> & ->)).
  apply list_elem_of_lookup_2 in Hprow.
  assert (alliance = NaN \/ exists a, alliance = Int a) as Hall.
  { rewrite Forall_forall in Hrows.
    destruct (Hrows _ Hprow) as (? & ? & ? & ? & ? & ? & [= <- <- <- <- <- <-] & Hall).
    exact Hall. }
  destruct (kills_triple combat i x Hcr Hx) as (c0 & ck & c1 & -> & Hcf).
  destruct (kills_triple attack i y Har Hy) as (a0 & ak & a1 & -> & Haf).
  destruct (kills_triple defense i z Hdr Hz) as (d0 & dk & d1 & -> & Hdf).
  exists i, name, alliance, p, rk, tw, c0, c1, a0, a1, d0, d1.
  split; [done|]. split; [done|]. split; [reflexivity|]. done.
Qed.

(** X14: every record of the result is made of one row of the players feed:
    it carries the id, the points, the rank and the towns of that row, a name
    and an integer alliance id; and for each kills feed it shows either NaN
    twice, the feed having no row of that player, or the rank and points of a
    row the feed has for that player, as they are or, the column having
    turned float64, both rounded to 53 bits.  No record shows the kills of
    another player. *)
Theorem records_are_sound (df : DataFrame)
    (players combat attack defense : list (list cell)) :
  get_players_data remote = Ok df ->
  remote players_url = Some players ->
  remote kills_all_url = Some combat ->
  remote kills_att_url = Some attack ->
  remote kills_def_url = Some defense ->
  forall row, row ∈ data df ->
    exists i name alliance p rk tw shown_name shown_alliance c0 c1 a0 a1 d0 d1,
      [Int i; Str name; alliance; Int p; Int rk; Int tw] ∈ players
      /\ row = [Int i; Str shown_name; Int shown_alliance; Int p; Int rk; Int tw;
                c0; c1; a0; a1; d0; d1]
      /\ kills_fields combat i c0 c1
      /\ kills_fields attack i a0 a1
      /\ kills_fields defense i d0 d1.
Proof.
  intros (players' & combat' & attack' & defense' & Hp & Hc & Ha & Hd & Hrows)
    %result_row_sound Hp' Hc' Ha' Hd'.
  rewrite Hp in Hp'. rewrite Hc in Hc'. rewrite Ha in Ha'. rewrite Hd in Hd'.
  apply (inj Some) in Hp', Hc', Ha', Hd'. subst.
  intros row Hrow.
  destruct (Hrows row Hrow)
    as (i & name & alliance & p & rk & tw & c0 & c1 & a0 & a1 & d0 & d1
        & Hin & Hall & -> & Hrest).
  exists i, name, alliance, p, rk, tw, (Urllib.unquote_plus name).
  destruct Hall as [->|[a ->]].
  - exists (-1), c0, c1, a0, a1, d0, d1. by split.
  - exists a, c0, c1, a0, a1, d0, d1. by split.
Qed.

(** X15: the alliance id of every record of the result is an integer: no
    record is left with a missing alliance id. *)
Theorem alliance_id_is_integer (df : DataFrame) :
  get_players_data remote = Ok df ->
  columns df !! 2%nat = Some "alliance_id"
  /\ forall row, row ∈ data df -> exists a, row !! 2%nat = Some (Int a).
Proof.
  intros Hdf. split.
  - apply get_players_data_ok in Hdf
      as (? & ? & ? & ? & ? & _ & _ & _ & _ & _ & _ & _ & _ & ->). reflexivity.
  - apply result_row_sound in Hdf
      as (players & combat & attack & defense & _ & _ & _ & _ & Hrows).
    intros row Hrow.
    destruct (Hrows row Hrow)
      as (i & name & alliance & p & rk & tw & c0 & c1 & a0 & a1 & d0 & d1
          & _ & [->|[a ->]] & -> & _); by eexists.
Qed.

(** The cells of a kills row whose rank and points have at most 53 bits are
    shown as they are, float64 or not. *)
Lemma joined_cells_exact krk i kpts x :
  Z.abs krk ≤ 2 ^ 53 -> Z.abs kpts ≤ 2 ^ 53 ->
  x = [Int krk; Int i; Int kpts] \/ x = astype_float <$> [Int krk; Int i; Int kpts] ->
  exists k, x = [Int krk; Int k; Int kpts].
Proof.
  intros Hrk Hpts [-> | ->]; [by eexists|].
  cbn. rewrite (float64_exact krk Hrk), (float64_exact kpts Hpts). by eexists.
Qed.

(** Beyond 53 bits the points of a kills row are shown rounded where the
    column has turned float64 (the combat feed lacks the first player), and
    as they are where it has not (the defense feed has every player). *)
Example large_points_are_rounded :
  get_players_data Cases.remote_large
  = Ok {| columns := result_columns;
          data := [ [Int 1; Str "A"; Int 3; Int 10; Int 1; Int 1;
                     NaN; NaN; NaN; NaN; Int 2; Int 5];
                    [Int 2; Str "B"; Int 3; Int 20; Int 2; Int 1;
                     Int 1; Int 9007199254740992; NaN; NaN;
                     Int 1; Int 9007199254740993] ] |}.
Proof. vm_compute. reflexivity. Qed.

(** X16: the kills of a player reach the player's record: for a row of the
    players feed and a row of the combat (attack, defense) feed with the
    player's id, whose rank and points have at most 53 bits, the result has a
    record of that player whose combat (attack, defense) rank and points are
    those of the row. *)
Theorem matched_kills_are_shown (df : DataFrame)
    (players combat attack defense : list (list cell))
    (i : Z) (name : string) (alliance : cell) (p rk tw krk kpts : Z) :
  get_players_data remote = Ok df ->
  remote players_url = Some players ->
  remote kills_all_url = Some combat ->
  remote kills_att_url = Some attack ->
  remote kills_def_url = Some defense ->
  [Int i; Str name; alliance; Int p; Int rk; Int tw] ∈ players ->
  Z.abs krk ≤ 2 ^ 53 -> Z.abs kpts ≤ 2 ^ 53 ->
  ([Int krk; Int i; Int kpts] ∈ combat ->
   exists shown_name shown_alliance a0 a1 d0 d1,
     [Int i; shown_name; shown_alliance; Int p; Int rk; Int tw;
      Int krk; Int kpts; a0; a1; d0; d1] ∈ data df)
  /\ ([Int krk; Int i; Int kpts] ∈ attack ->
      exists shown_name shown_alliance c0 c1 d0 d1,
        [Int i; shown_name; shown_alliance; Int p; Int rk; Int tw;
         c0; c1; Int krk; Int kpts; d0; d1] ∈ data df)
  /\ ([Int krk; Int i; Int kpts] ∈ defense ->
      exists shown_name shown_alliance c0 c1 a0 a1,
        [Int i; shown_name; shown_alliance; Int p; Int rk; Int tw;
         c0; c1; a0; a1; Int krk; Int kpts] ∈ data df).
Proof.
  intros (players' & combat' & attack' & defense' & base & Hp & Hc & Ha & Hd
          & Hbase & Hcr & Har & Hdr & ->)%get_players_data_ok Hp' Hc' Ha' Hd' Hrow
    Hkrk Hkpts.
  rewrite Hp in Hp'. rewrite Hc in Hc'. rewrite Ha in Ha'. rewrite Hd in Hd'.
  apply (inj Some) in Hp', Hc', Ha', Hd'. subst. cbn [data].
  apply list_elem_of_lookup in Hrow as [k Hk].
  destruct (Forall2_lookup_l _ _ _ _ _ Hbase Hk)
    as (b & Hb & (? & ? & ? & ? & ? & ? & [= <- <- <- <- <- <-] & ->)).
  apply list_elem_of_lookup_2 in Hb.
  set (rec := player_record i name alliance p rk tw) in *.
  assert (forall x y z,
            (x = replicate 3 NaN \/ joined_cells combat x) ->
            (y = replicate 3 NaN \/ joined_cells attack y) ->
            (z = replicate 3 NaN \/ joined_cells defense z) ->
            exists x0 x1 x2 y0 y1 y2 z0 z1 z2,
              x = [x0; x1; x2] /\ y = [y0; y1; y2] /\ z = [z0; z1; z2]) as Hshape.
  { intros x y z Hx Hy Hz.
    pose proof (kills_or_nan_length _ _ Hcr Hx) as Hlx.
    pose proof (kills_or_nan_length _ _ Har Hy) as Hly.
    pose proof (kills_or_nan_length _ _ Hdr Hz) as Hlz.
    destruct x as [|x0 [|x1 [|x2 [|? ?]]]]; try discriminate.
    destruct y as [|y0 [|y1 [|y2 [|? ?]]]]; try discriminate.
    destruct z as [|z0 [|z1 [|z2 [|? ?]]]]; try discriminate.
    by eexists _, _, _, _, _, _, _, _, _. }
  assert (forall R, [Int krk; Int i; Int kpts] ∈ R -> forall x,
            x = [Int krk; Int i; Int kpts]
            \/ x = astype_float <$> [Int krk; Int i; Int kpts] ->
            joined_cells R x) as Hcells.
  { intros R HR x Hx. by exists [Int krk; Int i; Int kpts]. }
  split; [|split]; intros Hkill.
  - destruct (left_join_matched rec _ base combat Hb Hkill eq_refl)
      as (x & H1 & Hx).
    destruct (left_join_keeps _ 0 1 3 _ attack H1) as (y & H2 & Hy).
    destruct (left_join_keeps _ 0 1 3 _ defense H2) as (z & H3 & Hz).
    destruct (joined_cells_exact krk i kpts x Hkrk Hkpts Hx) as [xk ->].
    destruct (Hshape _ y z (or_intror (Hcells _ Hkill _ Hx)) Hy Hz)
      as (? & ? & ? & y0 & y1 & y2 & z0 & z1 & z2 & _ & -> & ->).
    eexists _, _, y0, y2, z0, z2. rewrite merge_sort_Permutation.
    apply (list_elem_of_fmap_2 (keep kept)) in H3. exact H3.
  - destruct (left_join_keeps rec 0 1 3 base combat Hb) as (x & H1 & Hx).
    destruct (left_join_matched _ _ _ attack H1 Hkill eq_refl) as (y & H2 & Hy).
    destruct (left_join_keeps _ 0 1 3 _ defense H2) as (z & H3 & Hz).
    destruct (joined_cells_exact krk i kpts y Hkrk Hkpts Hy) as [yk Hyk].
    destruct (Hshape x y z Hx (or_intror (Hcells _ Hkill _ Hy)) Hz)
      as (x0 & x1 & x2 & ? & ? & ? & z0 & z1 & z2 & -> & _ & ->).
    subst y.
    eexists _, _, x0, x2, z0, z2. rewrite merge_sort_Permutation.
    apply (list_elem_of_fmap_2 (keep kept)) in H3. exact H3.
  - destruct (left_join_keeps rec 0 1 3 base combat Hb) as (x & H1 & Hx).
    destruct (left_join_keeps _ 0 1 3 _ attack H1) as (y & H2 & Hy).
    destruct (left_join_matched _ _ _ defense H2 Hkill eq_refl) as (z & H3 & Hz).
    destruct (joined_cells_exact krk i kpts z Hkrk Hkpts Hz) as [zk Hzk].
    destruct (Hshape x y z Hx Hy (or_intror (Hcells _ Hkill _ Hz)))
      as (x0 & x1 & x2 & y0 & y1 & y2 & ? & ? & ? & -> & -> & _).
    subst z.
    eexists _, _, x0, x2, y0, y2. rewrite merge_sort_Permutation.
    apply (list_elem_of_fmap_2 (keep kept)) in H3. exact H3.
Qed.

End aggregation_records.

(** ** Names as the aggregation shows them *)

Lemma replace_without a b s :
  count_char a s = 0%nat -> Urllib.replace a b s = s.
Proof.
  induction s as [|c s IH]; [reflexivity|]. cbn [count_char Urllib.replace].
  destruct (Ascii.eqb c a); [discriminate|]. intros Hs. by rewrite IH.
Qed.

Lemma count_char_replace c a b s :
  c ≠ a -> c ≠ b ->
  count_char c (Urllib.replace a b s) = count_char c s.
Proof.
  intros Ha Hb. induction s as [|x s IH]; [reflexivity|].
  cbn [count_char Urllib.replace]. rewrite IH. f_equal.
  destruct (Ascii.eqb_spec x a) as [->|Hxa]; [|reflexivity].
  destruct (Ascii.eqb_spec b c) as [->|_]; [done|].
  by destruct (Ascii.eqb_spec a c) as [->|_].
Qed.

Lemma unquote_without s :
  count_char "%" s = 0%nat -> Urllib.unquote s = s.
Proof.
  induction s as [|c s IH]; [reflexivity|]. cbn [count_char Urllib.unquote].
  destruct (Ascii.eqb c "%"); [discriminate|]. intros Hs. by rewrite IH.
Qed.

Lemma unquote_plus_without_percent s :
  count_char "%" s = 0%nat -> Urllib.unquote_plus s = Urllib.replace "+" " " s.
Proof.
  intros Hs. unfold Urllib.unquote_plus. apply unquote_without.
  by rewrite count_char_replace.
Qed.

Section names_shown.
Import Pandas Aggregate Feeds.
Variable remote : Remote.

(** X17: a name of the players feed that holds no [%] is shown with each of
    its [+] turned into a space and nothing else changed; a name that holds
    neither [%] nor [+] is shown as the feed has it. *)
Theorem plain_names_are_kept (df : DataFrame) (players : list (list cell))
    (i : Z) (name : string) (alliance : cell) (p rk tw : Z) :
  get_players_data remote = Ok df ->
  remote players_url = Some players ->
  [Int i; Str name; alliance; Int p; Int rk; Int tw] ∈ players ->
  count_char "%" name = 0%nat ->
  (exists rest,
     [Int i; Str (Urllib.replace "+" " " name); fillna (-1) alliance;
      Int p; Int rk; Int tw] ++ rest ∈ data df)
  /\ (count_char "+" name = 0%nat ->
      exists rest,
        [Int i; Str name; fillna (-1) alliance; Int p; Int rk; Int tw] ++ rest
          ∈ data df).
Proof.
  intros (players' & combat & attack & defense & base & Hp & Hc & Ha & Hd
          & Hbase & Hcr & Har & Hdr & ->)%get_players_data_ok Hp' Hrow Hpercent.
  rewrite Hp in Hp'. apply (inj Some) in Hp'. subst players'. cbn [data].
  apply list_elem_of_lookup in Hrow as [k Hk].
  destruct (Forall2_lookup_l _ _ _ _ _ Hbase Hk)
    as (b & Hb & (? & ? & ? & ? & ? & ? & [= <- <- <- <- <- <-] & ->)).
  apply list_elem_of_lookup_2 in Hb.
  destruct (result_row_keeps _ _ _ _ _ _ Hbase Hcr Har Hdr Hb) as (rest & Hrest & _).
  unfold player_record in Hrest.
  rewrite (unquote_plus_without_percent name Hpercent) in Hrest.
  split; [by exists rest|].
  intros Hplus. exists rest. by rewrite (replace_without "+" " " name Hplus) in Hrest.
Qed.

End names_shown.

(** ** The protected page *)

Section protected_page.
Context `{!Jose.Codec} `{!Passlib.CryptContext}.
Variable secret : string.
Variable remote : Pandas.Remote.
Variable to_html : Pandas.DataFrame -> string.

(** X18: the page is served only to a bearer string whose signature
    verifies under the secret and whose claims pass every check, an exp claim
    in particular not being past, and only when the aggregation has returned:
    the answer is then the document around the rendered players.  There is no
    page for an unsigned, a forged or an expired token, and none built from
    part of the feeds. *)
Theorem page_requires_valid_token (now : Z) (credentials html : string) :
  consultar secret remote to_html now credentials = Ok html ->
  exists claims df,
    verified_claims secret credentials = Some claims
    /\ acceptable now claims
    /\ (forall exp, expiry claims = Some exp -> Jose.timegm now ≤ exp)
    /\ get_players_data remote = Ok df
    /\ html = page (to_html df).
Proof.
  unfold consultar.
  destruct (validate_token secret now credentials) as [claims|] eqn:Hv;
    [|discriminate].
  apply validate_token_ok in Hv as [Hclaims Hacc]. bind_ok.
  destruct (get_players_data remote) as [df|]; [|discriminate]. bind_ok.
  intros [= <-]. exists claims, df. repeat (split; [done|]). split; [|done].
  intros exp Hexp. destruct Hacc as (_ & _ & Hpass & _).
  unfold expiry in Hexp. destruct (claims !! "exp") as [v|] eqn:Hlook; [|done].
  cbn in Hexp. destruct (Hpass v) as (exp' & Hexp' & Hle); [done|]. congruence.
Qed.

(** X20: registration opens the page.  The token returned by a successful
    registration, presented within the hour while the feeds are well formed,
    is answered with the page around the rendered aggregation. *)
Theorem registration_opens_the_page (salt : string) (now now' : Z)
    (user : app_models.UserCreate.t) (t : Db.Table) (df : Pandas.DataFrame) :
  app_models.UserCreate.email user ∉ (db_models.email <$> Db.rows t) ->
  app_models.UserCreate.nome user ∉ (db_models.nome <$> Db.rows t) ->
  Jose.timegm now' ≤ Jose.timegm now + 3600 ->
  get_players_data remote = Ok df ->
  exists token,
    (Db.run_request (registrar secret salt now user) t).1
    = Ok (app_models.Token.mk token)
    /\ consultar secret remote to_html now' token = Ok (page (to_html df)).
Proof.
  intros Hemail Hnome Hnow Hdf.
  destruct (registrar_fresh_ok secret salt now user t Hemail Hnome)
    as (token & Htoken & Hreg).
  exists token. split; [by rewrite Hreg|].
  unfold consultar.
  rewrite (validate_token_encode secret _ _ _ _ Htoken Hnow). bind_ok.
  rewrite Hdf. reflexivity.
Qed.

End protected_page.

(** ** Registrations handled concurrently: what the table still enforces *)

Section interleaved_emails.
Context `{!Jose.Codec} `{!Passlib.CryptContext}.
Variable secret : string.
Import app_models db_models Interleaved.

Lemma advance_prefix k t :
  Db.rows t `prefix_of` Db.rows (advance secret k t).2.
Proof.
  destruct (at_stage k) eqn:Hat.
  - rewrite advance_email_query by done.
    by destruct (filter _ (Db.rows t)) as [|? [|? ?]].
  - rewrite advance_name_query by done.
    by destruct (filter _ (Db.rows t)) as [|? [|? ?]].
  - rewrite advance_at_commit by done. unfold Db.insert.
    case_bool_decide; cbn [snd]; [done|]. cbn [Db.rows]. by apply prefix_app_r.
  - by rewrite (advance_returned _ _ _ _ Hat).
Qed.

Lemma advance_commit_taken k t :
  at_stage k = AtCommit ->
  UserCreate.email (user k) ∈ (email <$> Db.rows t) ->
  advance secret k t =
  (move k (Returned (Raise IntegrityError)),
   {| Db.rows := Db.rows t; Db.next_id := Db.next_id t + 1 |}).
Proof.
  intros Hat Htaken. rewrite advance_at_commit by done.
  unfold Db.insert, new_user. cbn [email]. by rewrite bool_decide_eq_true_2.
Qed.

(** X21: under every schedule of every set of registrations, the rows stored
    before stay in place and no two rows share an email: what the interleaving
    can break is the uniqueness of names, never that of emails. *)
Theorem schedules_keep_emails_unique
    (schedule : list nat) (tasks : list task) (t : Db.Table) :
  Db.unique_email t ->
  Db.unique_email (run_schedule secret schedule tasks t).2
  /\ Db.rows t `prefix_of` Db.rows (run_schedule secret schedule tasks t).2.
Proof.
  unfold run_schedule. revert tasks t.
  induction schedule as [|i schedule IH]; intros tasks t Huniq; [done|].
  cbn [foldl]. unfold resume at 2 4. cbn [fst snd].
  destruct (tasks !! i) as [k|]; [|by apply IH].
  pose proof (advance_unique_email secret k t Huniq) as Hk.
  pose proof (advance_prefix k t) as Hpre.
  destruct (advance secret k t) as [k' t']. cbn [snd] in Hk, Hpre.
  destruct (IH (<[i := k']> tasks) t' Hk) as [Hu Hp].
  split; [exact Hu|]. by etrans.
Qed.

(** X22: two registrations with one email that is free, under two names that
    are free, resumed so that both run their two queries before either
    commits: the first to commit returns a token and its row is stored; the
    commit of the second is refused by the table, and the request ends with
    [IntegrityError], not with the DuplicateEmail answer.  The table then
    holds the rows it had and the row of the first request, nothing of the
    second; the refused INSERT has drawn a value from the sequence, which is
    two past where it was. *)
Theorem interleaved_same_email_one_wins
    (salt1 salt2 : string) (now1 now2 : Z) (u1 u2 : UserCreate.t) (t : Db.Table) :
  UserCreate.email u1 = UserCreate.email u2 ->
  UserCreate.email u1 ∉ (email <$> Db.rows t) ->
  UserCreate.nome u1 ∉ (nome <$> Db.rows t) ->
  UserCreate.nome u2 ∉ (nome <$> Db.rows t) ->
  exists token1,
    run_schedule secret [0; 0; 1; 1; 0; 1]%nat
      [start salt1 now1 u1; start salt2 now2 u2] t
    = ([move (start salt1 now1 u1) (Returned (Ok (Token.mk token1)));
        move (start salt2 now2 u2) (Returned (Raise IntegrityError))],
       {| Db.rows := Db.rows (registered salt1 u1 t);
          Db.next_id := Db.next_id t + 2 |}).
Proof.
  intros Hemail He1 Hn1 Hn2.
  assert (UserCreate.email u2 ∉ (email <$> Db.rows t)) as He2 by by rewrite <- Hemail.
  destruct (advance_commit secret (move (move (start salt1 now1 u1) AtNameQuery) AtCommit) t
              eq_refl He1) as [token1 Hc1].
  assert (UserCreate.email u2 ∈ (email <$> Db.rows (registered salt1 u1 t))) as Htaken.
  { unfold registered. cbn [Db.rows]. rewrite fmap_app, elem_of_app. right.
    rewrite <- Hemail. apply list_elem_of_here. }
  exists token1. unfold run_schedule. cbn [foldl].
  erewrite resume_at;
    [|reflexivity|by apply advance_email_free]. cbn [list_insert].
  erewrite resume_at;
    [|reflexivity|by apply advance_name_free]. cbn [list_insert].
  erewrite resume_at;
    [|reflexivity|by apply advance_email_free]. cbn [list_insert].
  erewrite resume_at;
    [|reflexivity|by apply advance_name_free]. cbn [list_insert].
  erewrite resume_at; [|reflexivity|exact Hc1]. cbn [list_insert].
  erewrite resume_at;
    [|reflexivity|by apply advance_commit_taken]. cbn [list_insert].
  do 2 f_equal. unfold registered. cbn [Db.next_id]. lia.
Qed.

End interleaved_emails.

(** ** The further theorems at the sample data *)

Lemma login_never_writes_witness :
  (forall u, u ∈ Db.rows Sample.table ->
     exists salt password, db_models.senha u = @Passlib.hash reference_crypt salt password)
  /\ (Db.run_request
        (@login reference_codec reference_crypt Sample.secret Sample.t0 Sample.bob_login)
        Sample.table).2 = Sample.table
  /\ exists token,
       (Db.run_request
          (@login reference_codec reference_crypt Sample.secret Sample.t0
             Sample.bob_login)
          Sample.table).1 = Ok (app_models.Token.mk token).
Proof.
  assert (forall u, u ∈ Db.rows Sample.table ->
            exists salt password,
              db_models.senha u = @Passlib.hash reference_crypt salt password)
    as Hhashes.
  { intros u Hu. apply list_elem_of_singleton in Hu as ->.
    by exists "Zx9", "hunter2". }
  split; [exact Hhashes|].
  split; [exact (proj1 (@login_never_writes reference_codec reference_crypt
                          Sample.secret Sample.t0 Sample.bob_login Sample.table))|].
  destruct (proj2 (@login_never_writes reference_codec reference_crypt
                     Sample.secret Sample.t0 Sample.bob_login Sample.table) Hhashes)
    as [(token & _ & Hok)|[[Hno _]|[Hmany _]]].
  - by exists token.
  - exfalso. revert Hno. vm_compute. discriminate.
  - exfalso. revert Hmany. vm_compute. discriminate.
Defined.

Lemma register_then_login_witness :
  (app_models.UserCreate.email Sample.alice ∉ (db_models.email <$> Db.rows Sample.table))
  /\ (app_models.UserCreate.nome Sample.alice ∉ (db_models.nome <$> Db.rows Sample.table))
  /\ exists token t' token' claims,
       Db.run_request
         (@registrar reference_codec reference_crypt Sample.secret "Na7" Sample.t0
            Sample.alice) Sample.table
       = (Ok (app_models.Token.mk token), t')
       /\ Db.run_request
            (@login reference_codec reference_crypt Sample.secret Sample.t1
               (app_models.UserLogin.mk (app_models.UserCreate.email Sample.alice)
                  (app_models.UserCreate.senha Sample.alice))) t'
          = (Ok (app_models.Token.mk token'), t')
       /\ @validate_token reference_codec Sample.secret Sample.t1 token' = Ok claims
       /\ claims !! "sub" = Some (Jose.JStr (app_models.UserCreate.email Sample.alice)).
Proof.
  assert (app_models.UserCreate.email Sample.alice
            ∉ (db_models.email <$> Db.rows Sample.table)) as Hemail
    by (apply (bool_decide_unpack _); vm_compute; exact I).
  assert (app_models.UserCreate.nome Sample.alice
            ∉ (db_models.nome <$> Db.rows Sample.table)) as Hnome
    by (apply (bool_decide_unpack _); vm_compute; exact I).
  split; [exact Hemail|]. split; [exact Hnome|].
  exact (@register_then_login reference_codec reference_crypt Sample.secret "Na7"
           Sample.t0 Sample.t1 Sample.alice Sample.table Hemail Hnome).
Defined.

Lemma second_registration_refused_witness :
  (app_models.UserCreate.email Sample.alice ∉ (db_models.email <$> Db.rows Sample.table))
  /\ (app_models.UserCreate.nome Sample.alice ∉ (db_models.nome <$> Db.rows Sample.table))
  /\ Db.run_request
       (@registrar reference_codec reference_crypt Sample.secret "Qb2" Sample.t1
          Cases.alicia)
       (@registered reference_crypt "Na7" Sample.alice Sample.table)
     = (Raise DuplicateEmail, @registered reference_crypt "Na7" Sample.alice Sample.table)
  /\ Db.run_request
       (@registrar reference_codec reference_crypt Sample.secret "Qb2" Sample.t1
          Cases.alice2)
       (@registered reference_crypt "Na7" Sample.alice Sample.table)
     = (Raise DuplicateName, @registered reference_crypt "Na7" Sample.alice Sample.table).
Proof.
  assert (app_models.UserCreate.email Sample.alice
            ∉ (db_models.email <$> Db.rows Sample.table)) as Hemail
    by (apply (bool_decide_unpack _); vm_compute; exact I).
  assert (app_models.UserCreate.nome Sample.alice
            ∉ (db_models.nome <$> Db.rows Sample.table)) as Hnome
    by (apply (bool_decide_unpack _); vm_compute; exact I).
  assert (app_models.UserCreate.email Cases.alice2
            ∉ (db_models.email <$>
                 Db.rows (@registered reference_crypt "Na7" Sample.alice Sample.table)))
    as Hfree by (apply (bool_decide_unpack _); vm_compute; exact I).
  split; [exact Hemail|]. split; [exact Hnome|]. split.
  - exact (proj1 (@second_registration_refused reference_codec reference_crypt
                    Sample.secret "Na7" "Qb2" Sample.t0 Sample.t1 Sample.alice
                    Cases.alicia Sample.table Hemail Hnome) eq_refl).
  - exact (proj2 (@second_registration_refused reference_codec reference_crypt
                    Sample.secret "Na7" "Qb2" Sample.t0 Sample.t1 Sample.alice
                    Cases.alice2 Sample.table Hemail Hnome) Hfree eq_refl).
Defined.

Lemma ambiguous_name_raises_witness :
  (app_models.UserCreate.email Cases.ana3 ∉ (db_models.email <$> Db.rows Cases.twins))
  /\ Cases.ana_row1 ∈ Db.rows Cases.twins
  /\ Cases.ana_row2 ∈ Db.rows Cases.twins
  /\ Cases.ana_row1 ≠ Cases.ana_row2
  /\ Db.run_request
       (@registrar reference_codec reference_crypt Sample.secret "Zx9" Sample.t0
          Cases.ana3) Cases.twins
     = (Raise MultipleResultsFound, Cases.twins).
Proof.
  assert (app_models.UserCreate.email Cases.ana3
            ∉ (db_models.email <$> Db.rows Cases.twins)) as Hemail
    by (apply (bool_decide_unpack _); vm_compute; exact I).
  assert (Cases.ana_row1 ∈ Db.rows Cases.twins) as H1 by apply list_elem_of_here.
  assert (Cases.ana_row2 ∈ Db.rows Cases.twins) as H2
    by (apply list_elem_of_further, list_elem_of_here).
  assert (Cases.ana_row1 ≠ Cases.ana_row2) as Hne by discriminate.
  split; [exact Hemail|]. split; [exact H1|]. split; [exact H2|]. split; [exact Hne|].
  exact (@ambiguous_name_raises reference_codec reference_crypt Sample.secret "Zx9"
           Sample.t0 Cases.ana3 Cases.twins Cases.ana_row1 Cases.ana_row2
           Hemail H1 H2 Hne eq_refl eq_refl).
Defined.

Lemma token_lifetime_witness :
  exists token,
    @encode reference_codec Sample.secret Sample.t0 "bob@example.org" = Ok token
    /\ @validate_token reference_codec Sample.secret Sample.t1 token
       = if Jose.timegm Sample.t0 + 3600 <? Jose.timegm Sample.t1
         then Raise TokenExpired
         else Ok (<["sub" := Jose.JStr "bob@example.org"]>
                    (<["exp" := Jose.JInt (Jose.timegm Sample.t0 + 3600)]> ∅)).
Proof.
  destruct (@encode_ok reference_codec Sample.secret Sample.t0 "bob@example.org")
    as [token Htoken].
  exists token. split; [exact Htoken|].
  exact (@token_lifetime reference_codec Sample.secret Sample.t0 Sample.t1
           "bob@example.org" token Htoken).
Defined.

Lemma encode_injective_witness :
  @encode reference_codec Sample.secret Sample.t0 "bob@example.org"
  = @encode reference_codec Sample.secret Sample.t1 "bob@example.org"
  /\ Jose.timegm Sample.t0 = Jose.timegm Sample.t1.
Proof.
  assert (@encode reference_codec Sample.secret Sample.t0 "bob@example.org"
          = @encode reference_codec Sample.secret Sample.t1 "bob@example.org") as Hsame
    by (vm_compute; reflexivity).
  split; [exact Hsame|].
  exact (proj2 (@encode_injective reference_codec Sample.secret Sample.t0 Sample.t1
                  "bob@example.org" "bob@example.org" Hsame)).
Defined.

Lemma too_few_segments_invalid_witness :
  (count_char "." "header.payload" < 2)%nat
  /\ @validate_token reference_codec Sample.secret Sample.t0 "header.payload"
     = Raise TokenInvalid.
Proof.
  assert (count_char "." "header.payload" < 2)%nat as Hdots by (vm_compute; lia).
  split; [exact Hdots|].
  exact (@too_few_segments_invalid reference_codec Sample.secret Sample.t0
           "header.payload" Hdots).
Defined.

Lemma forged_signature_invalid_witness :
  let signing_input :=
    @Jose.encode_header reference_codec "HS256" +:+ "." +:+
    @Jose.encode_payload reference_codec (@issued_claims Sample.t0 "bob@example.org") in
  "forged" ≠ @Jose.hmac_sha256 reference_codec Sample.secret signing_input
  /\ @validate_token reference_codec Sample.secret Sample.t0
       (signing_input +:+ "." +:+ @Jose.base64url_encode reference_codec "forged")
     = Raise TokenInvalid
  /\ @validate_token reference_codec Sample.secret Sample.t0
       (signing_input +:+ "." +:+
        @Jose.base64url_encode reference_codec
          (@Jose.hmac_sha256 reference_codec Sample.secret signing_input))
     = Ok (@issued_claims Sample.t0 "bob@example.org").
Proof.
  intros signing_input.
  assert ("forged" ≠ @Jose.hmac_sha256 reference_codec Sample.secret signing_input)
    as Hforged by (apply (bool_decide_unpack _); vm_compute; exact I).
  assert (Jose.timegm Sample.t0 ≤ Jose.timegm Sample.t0 + 3600) as Hnow
    by (vm_compute; discriminate).
  assert (@encode reference_codec Sample.secret Sample.t0 "bob@example.org"
          = Ok (signing_input +:+ "." +:+
                @Jose.base64url_encode reference_codec
                  (@Jose.hmac_sha256 reference_codec Sample.secret signing_input)))
    as Hgenuine by (rewrite (@encode_eq reference_codec); reflexivity).
  split; [exact Hforged|]. split.
  - exact (@forged_signature_invalid reference_codec Sample.secret Sample.t0
             (@Jose.encode_payload reference_codec
                (@issued_claims Sample.t0 "bob@example.org"))
             "forged" Hforged).
  - exact (@validate_token_encode reference_codec Sample.secret Sample.t0 Sample.t0
             "bob@example.org" _ Hgenuine Hnow).
Defined.

Lemma other_secret_invalid_witness :
  exists token,
    @encode reference_codec Sample.secret Sample.t0 "bob@example.org" = Ok token
    /\ @validate_token reference_codec "another" Sample.t0 token = Raise TokenInvalid.
Proof.
  destruct (@encode_ok reference_codec Sample.secret Sample.t0 "bob@example.org")
    as [token Htoken].
  assert (@Jose.hmac_sha256 reference_codec "another"
            (@Jose.encode_header reference_codec "HS256" +:+ "." +:+
             @Jose.encode_payload reference_codec
               (@issued_claims Sample.t0 "bob@example.org"))
          ≠ @Jose.hmac_sha256 reference_codec Sample.secret
              (@Jose.encode_header reference_codec "HS256" +:+ "." +:+
               @Jose.encode_payload reference_codec
                 (@issued_claims Sample.t0 "bob@example.org"))) as Hmac
    by (apply (bool_decide_unpack _); vm_compute; exact I).
  exists token. split; [exact Htoken|].
  exact (@other_secret_invalid reference_codec Sample.secret "another" Sample.t0
           Sample.t0 "bob@example.org" token Htoken Hmac).
Defined.

Lemma missing_feed_fails_aggregation_witness :
  kills_att_url ∈ [players_url; kills_all_url; kills_att_url; kills_def_url]
  /\ Cases.remote_without_attack kills_att_url = None
  /\ exists e, get_players_data Cases.remote_without_attack = Raise e.
Proof.
  assert (kills_att_url ∈ [players_url; kills_all_url; kills_att_url; kills_def_url])
    as Hurl by (apply (bool_decide_unpack _); vm_compute; exact I).
  assert (Cases.remote_without_attack kills_att_url = None) as Hmissing
    by (vm_compute; reflexivity).
  split; [exact Hurl|]. split; [exact Hmissing|].
  exact (missing_feed_fails_aggregation Cases.remote_without_attack kills_att_url
           Hurl Hmissing).
Defined.

Lemma one_record_per_player_witness :
  get_players_data Sample.remote = Ok Sample.aggregated
  /\ NoDup (Aggregate.player_ids Sample.combat)
  /\ NoDup (Aggregate.player_ids Sample.attack)
  /\ NoDup (Aggregate.player_ids Sample.defense)
  /\ length (Pandas.data Sample.aggregated) = length Sample.players.
Proof.
  assert (get_players_data Sample.remote = Ok Sample.aggregated) as Hrun
    by (vm_compute; reflexivity).
  assert (NoDup (Aggregate.player_ids Sample.combat)) as Hc
    by (apply (bool_decide_unpack _); vm_compute; exact I).
  assert (NoDup (Aggregate.player_ids Sample.attack)) as Ha
    by (apply (bool_decide_unpack _); vm_compute; exact I).
  assert (NoDup (Aggregate.player_ids Sample.defense)) as Hd
    by (apply (bool_decide_unpack _); vm_compute; exact I).
  split; [exact Hrun|]. split; [exact Hc|]. split; [exact Ha|]. split; [exact Hd|].
  exact (proj2 (one_record_per_player Sample.remote Sample.aggregated
                  Sample.players Sample.combat Sample.attack Sample.defense
                  Hrun eq_refl eq_refl eq_refl eq_refl) Hc Ha Hd).
Defined.

Lemma records_are_sound_witness :
  get_players_data Sample.remote = Ok Sample.aggregated
  /\ exists name alliance,
       [Pandas.Int 2; Pandas.Str name; alliance; Pandas.Int 50; Pandas.Int 2;
        Pandas.Int 1] ∈ Sample.players
       /\ Feeds.kills_fields Sample.combat 2 (Pandas.Int 1) (Pandas.Int 10)
       /\ Feeds.kills_fields Sample.attack 2 Pandas.NaN Pandas.NaN
       /\ Feeds.kills_fields Sample.defense 2 (Pandas.Int 5) (Pandas.Int 3).
Proof.
  assert (get_players_data Sample.remote = Ok Sample.aggregated) as Hrun
    by (vm_compute; reflexivity).
  assert ([Pandas.Int 2; Pandas.Str "CA"; Pandas.Int 7; Pandas.Int 50;
           Pandas.Int 2; Pandas.Int 1;
           Pandas.Int 1; Pandas.Int 10; Pandas.NaN; Pandas.NaN; Pandas.Int 5;
           Pandas.Int 3] ∈ Pandas.data Sample.aggregated) as Hrow
    by (apply (bool_decide_unpack _); vm_compute; exact I).
  split; [exact Hrun|].
  destruct (records_are_sound Sample.remote Sample.aggregated
              Sample.players Sample.combat Sample.attack Sample.defense
              Hrun eq_refl eq_refl eq_refl eq_refl _ Hrow)
    as (i & name & alliance & p & rk & tw & shown_name & shown_alliance
        & c0 & c1 & a0 & a1 & d0 & d1 & Hin & Heq & Hc & Ha & Hd).
  injection Heq as <- _ _ <- <- <- <- <- <- <- <- <-.
  exists name, alliance. by repeat split.
Defined.

Lemma alliance_id_is_integer_witness :
  get_players_data Sample.remote = Ok Sample.aggregated
  /\ Pandas.columns Sample.aggregated !! 2%nat = Some "alliance_id"
  /\ forall row, row ∈ Pandas.data Sample.aggregated ->
       exists a, row !! 2%nat = Some (Pandas.Int a).
Proof.
  assert (get_players_data Sample.remote = Ok Sample.aggregated) as Hrun
    by (vm_compute; reflexivity).
  split; [exact Hrun|].
  exact (alliance_id_is_integer Sample.remote Sample.aggregated Hrun).
Defined.

Lemma matched_kills_are_shown_witness :
  get_players_data Sample.remote = Ok Sample.aggregated
  /\ [Pandas.Int 2; Pandas.Str "C%41"; Pandas.Int 7; Pandas.Int 50; Pandas.Int 2;
      Pandas.Int 1] ∈ Sample.players
  /\ [Pandas.Int 5; Pandas.Int 2; Pandas.Int 3] ∈ Sample.defense
  /\ Z.abs 5 ≤ 2 ^ 53 /\ Z.abs 3 ≤ 2 ^ 53
  /\ exists shown_name shown_alliance c0 c1 a0 a1,
       [Pandas.Int 2; shown_name; shown_alliance; Pandas.Int 50; Pandas.Int 2;
        Pandas.Int 1; c0; c1; a0; a1; Pandas.Int 5; Pandas.Int 3]
       ∈ Pandas.data Sample.aggregated.
Proof.
  assert (get_players_data Sample.remote = Ok Sample.aggregated) as Hrun
    by (vm_compute; reflexivity).
  assert ([Pandas.Int 2; Pandas.Str "C%41"; Pandas.Int 7; Pandas.Int 50; Pandas.Int 2;
           Pandas.Int 1] ∈ Sample.players) as Hrow
    by (apply (bool_decide_unpack _); vm_compute; exact I).
  assert ([Pandas.Int 5; Pandas.Int 2; Pandas.Int 3] ∈ Sample.defense) as Hkill
    by (apply (bool_decide_unpack _); vm_compute; exact I).
  assert (Z.abs 5 ≤ 2 ^ 53) as Hrk by (vm_compute; discriminate).
  assert (Z.abs 3 ≤ 2 ^ 53) as Hpts by (vm_compute; discriminate).
  split; [exact Hrun|]. split; [exact Hrow|]. split; [exact Hkill|].
  split; [exact Hrk|]. split; [exact Hpts|].
  exact (proj2 (proj2 (matched_kills_are_shown Sample.remote Sample.aggregated
                         Sample.players Sample.combat Sample.attack Sample.defense
                         2 "C%41" (Pandas.Int 7) 50 2 1 5 3
                         Hrun eq_refl eq_refl eq_refl eq_refl Hrow Hrk Hpts)) Hkill).
Defined.

Lemma plain_names_are_kept_witness :
  get_players_data Sample.remote = Ok Sample.aggregated
  /\ [Pandas.Int 1; Pandas.Str "A+B"; Pandas.NaN; Pandas.Int 100; Pandas.Int 1;
      Pandas.Int 3] ∈ Sample.players
  /\ count_char "%" "A+B" = 0%nat
  /\ exists rest,
       [Pandas.Int 1; Pandas.Str (Urllib.replace "+" " " "A+B");
        Pandas.fillna (-1) Pandas.NaN; Pandas.Int 100; Pandas.Int 1; Pandas.Int 3]
         ++ rest ∈ Pandas.data Sample.aggregated.
Proof.
  assert (get_players_data Sample.remote = Ok Sample.aggregated) as Hrun
    by (vm_compute; reflexivity).
  assert ([Pandas.Int 1; Pandas.Str "A+B"; Pandas.NaN; Pandas.Int 100; Pandas.Int 1;
           Pandas.Int 3] ∈ Sample.players) as Hrow
    by (apply (bool_decide_unpack _); vm_compute; exact I).
  assert (count_char "%" "A+B" = 0%nat) as Hplain by (vm_compute; reflexivity).
  split; [exact Hrun|]. split; [exact Hrow|]. split; [exact Hplain|].
  exact (proj1 (plain_names_are_kept Sample.remote Sample.aggregated Sample.players
                  1 "A+B" Pandas.NaN 100 1 3 Hrun eq_refl Hrow Hplain)).
Defined.

Lemma page_requires_valid_token_witness :
  exists token claims df,
    @encode reference_codec Sample.secret Sample.t0 "bob@example.org" = Ok token
    /\ @consultar reference_codec Sample.secret Sample.remote Cases.render
         Sample.t1 token
       = Ok (page (Cases.render Sample.aggregated))
    /\ @verified_claims reference_codec Sample.secret token = Some claims
    /\ @acceptable reference_codec Sample.t1 claims
    /\ get_players_data Sample.remote = Ok df.
Proof.
  destruct (@encode_ok reference_codec Sample.secret Sample.t0 "bob@example.org")
    as [token Htoken].
  assert (Jose.timegm Sample.t1 ≤ Jose.timegm Sample.t0 + 3600) as Hnow
    by (vm_compute; discriminate).
  assert (get_players_data Sample.remote = Ok Sample.aggregated) as Hrun
    by (vm_compute; reflexivity).
  assert (@consultar reference_codec Sample.secret Sample.remote Cases.render
            Sample.t1 token
          = Ok (page (Cases.render Sample.aggregated))) as Hpage.
  { unfold consultar.
    rewrite (@validate_token_encode reference_codec Sample.secret Sample.t0
               Sample.t1 "bob@example.org" token Htoken Hnow).
    bind_ok. rewrite Hrun. reflexivity. }
  destruct (@page_requires_valid_token reference_codec Sample.secret Sample.remote
              Cases.render Sample.t1 token _ Hpage)
    as (claims & df & Hclaims & Hacc & _ & Hdf & _).
  exists token, claims, df.
  split; [exact Htoken|]. split; [exact Hpage|]. split; [exact Hclaims|].
  split; [exact Hacc|exact Hdf].
Defined.

Lemma registration_opens_the_page_witness :
  (app_models.UserCreate.email Sample.alice ∉ (db_models.email <$> Db.rows Sample.table))
  /\ (app_models.UserCreate.nome Sample.alice ∉ (db_models.nome <$> Db.rows Sample.table))
  /\ Jose.timegm Sample.t1 ≤ Jose.timegm Sample.t0 + 3600
  /\ get_players_data Sample.remote = Ok Sample.aggregated
  /\ exists token,
       (Db.run_request
          (@registrar reference_codec reference_crypt Sample.secret "Na7" Sample.t0
             Sample.alice) Sample.table).1
       = Ok (app_models.Token.mk token)
       /\ @consultar reference_codec Sample.secret Sample.remote Cases.render
            Sample.t1 token
          = Ok (page (Cases.render Sample.aggregated)).
Proof.
  assert (app_models.UserCreate.email Sample.alice
            ∉ (db_models.email <$> Db.rows Sample.table)) as Hemail
    by (apply (bool_decide_unpack _); vm_compute; exact I).
  assert (app_models.UserCreate.nome Sample.alice
            ∉ (db_models.nome <$> Db.rows Sample.table)) as Hnome
    by (apply (bool_decide_unpack _); vm_compute; exact I).
  assert (Jose.timegm Sample.t1 ≤ Jose.timegm Sample.t0 + 3600) as Hnow
    by (vm_compute; discriminate).
  assert (get_players_data Sample.remote = Ok Sample.aggregated) as Hrun
    by (vm_compute; reflexivity).
  split; [exact Hemail|]. split; [exact Hnome|]. split; [exact Hnow|].
  split; [exact Hrun|].
  exact (@registration_opens_the_page reference_codec reference_crypt Sample.secret
           Sample.remote Cases.render "Na7" Sample.t0 Sample.t1 Sample.alice
           Sample.table Sample.aggregated Hemail Hnome Hnow Hrun).
Defined.

Lemma schedules_keep_emails_unique_witness :
  Db.unique_email Sample.table
  /\ Db.unique_email
       (@Interleaved.run_schedule reference_codec reference_crypt Sample.secret
          [0; 1; 0; 1; 1; 0]%nat
          [Interleaved.start "Na7" Sample.t0 Cases.bea1;
           Interleaved.start "Qb2" Sample.t1 Cases.bea2] Sample.table).2
  /\ Db.rows Sample.table `prefix_of`
       Db.rows
         (@Interleaved.run_schedule reference_codec reference_crypt Sample.secret
            [0; 1; 0; 1; 1; 0]%nat
            [Interleaved.start "Na7" Sample.t0 Cases.bea1;
             Interleaved.start "Qb2" Sample.t1 Cases.bea2] Sample.table).2.
Proof.
  assert (Db.unique_email Sample.table) as Huniq
    by (apply (bool_decide_unpack _); vm_compute; exact I).
  split; [exact Huniq|].
  exact (@schedules_keep_emails_unique reference_codec reference_crypt Sample.secret
           [0; 1; 0; 1; 1; 0]%nat
           [Interleaved.start "Na7" Sample.t0 Cases.bea1;
            Interleaved.start "Qb2" Sample.t1 Cases.bea2] Sample.table Huniq).
Defined.

Lemma interleaved_same_email_one_wins_witness :
  app_models.UserCreate.email Cases.bea1 = app_models.UserCreate.email Cases.bea2
  /\ exists token1,
       @Interleaved.run_schedule reference_codec reference_crypt Sample.secret
         [0; 0; 1; 1; 0; 1]%nat
         [Interleaved.start "Na7" Sample.t0 Cases.bea1;
          Interleaved.start "Qb2" Sample.t1 Cases.bea2] Sample.table
       = ([Interleaved.move (Interleaved.start "Na7" Sample.t0 Cases.bea1)
             (Interleaved.Returned (Ok (app_models.Token.mk token1)));
           Interleaved.move (Interleaved.start "Qb2" Sample.t1 Cases.bea2)
             (Interleaved.Returned (Raise IntegrityError))],
          {| Db.rows := Db.rows (@registered reference_crypt "Na7" Cases.bea1
                                   Sample.table);
             Db.next_id := Db.next_id Sample.table + 2 |}).
Proof.
  assert (app_models.UserCreate.email Cases.bea1
            ∉ (db_models.email <$> Db.rows Sample.table)) as Hemail
    by (apply (bool_decide_unpack _); vm_compute; exact I).
  assert (app_models.UserCreate.nome Cases.bea1
            ∉ (db_models.nome <$> Db.rows Sample.table)) as Hn1
    by (apply (bool_decide_unpack _); vm_compute; exact I).
  assert (app_models.UserCreate.nome Cases.bea2
            ∉ (db_models.nome <$> Db.rows Sample.table)) as Hn2
    by (apply (bool_decide_unpack _); vm_compute; exact I).
  split; [reflexivity|].
  exact (@interleaved_same_email_one_wins reference_codec reference_crypt
           Sample.secret "Na7" "Qb2" Sample.t0 Sample.t1 Cases.bea1 Cases.bea2
           Sample.table eq_refl Hemail Hn1 Hn2).
Defined.
